(** * shipping-service: a shallow embedding of the shipment routes, the
      dispatch-command consumer and the analytics notification publisher.

    Source files embedded here:
    - [src/index.ts]: the Express routes, the Kafka dispatch consumer and the
      Kafka-based [publishAnalyticsNotification];
    - the MQTT variant of the same file (per-call client, [done] guard);
    - the plain [http] variant ([parseBody], [sendJson]).

    Conventions.  A JavaScript string is modelled by the [string] of its
    code units, for the strings whose code units are below 256.  The
    ambient sources of nondeterminism ([randomUUID], the clock, the outcome
    of a Kafka send) are oracles indexed by the number of earlier uses.  The
    builtins [JSON.parse], [Date.parse], [decodeURIComponent],
    [String.prototype.trim] and [String.prototype.toUpperCase] are
    parameters of the development; what a theorem needs to know of a builtin
    it says in a hypothesis.  The functions [JsString.trim] and
    [JsString.toUpperCase] are what the last two builtins do on ASCII
    text. *)

From Stdlib Require Import String Ascii List Bool Arith ZArith Lia.
Import ListNotations.
Open Scope string_scope.

(* ===================================================================== *)
(** ** JavaScript strings *)
(* ===================================================================== *)

Module JsString.

(** Truthiness of a string: [!s] is true exactly for the empty string. *)
Definition truthy (s : string) : bool :=
  match s with EmptyString => false | String _ _ => true end.

(** [a || b] on strings. *)
Definition or_else (a b : string) : string := if truthy a then a else b.

(** [s.replace(/-/g, '')]. *)
Fixpoint remove_hyphens (s : string) : string :=
  match s with
  | EmptyString => EmptyString
  | String c r =>
      if Ascii.eqb c "-" then remove_hyphens r else String c (remove_hyphens r)
  end.

(** [s.slice(0, n)]. *)
Fixpoint slice0 (n : nat) (s : string) : string :=
  match n, s with
  | S k, String c r => String c (slice0 k r)
  | _, _ => EmptyString
  end.

Definition upper_char (c : ascii) : ascii :=
  let n := nat_of_ascii c in
  if ((97 <=? n) && (n <=? 122))%nat then ascii_of_nat (n - 32) else c.

(** [s.toUpperCase()] for a string of ASCII characters: [a-z] become
    [A-Z], every other character is kept. *)
Fixpoint toUpperCase (s : string) : string :=
  match s with
  | EmptyString => EmptyString
  | String c r => String (upper_char c) (toUpperCase r)
  end.

(** The white space among the ASCII characters: TAB, LF, VT, FF, CR and
    SPACE. *)
Definition is_space (c : ascii) : bool :=
  let n := nat_of_ascii c in (((9 <=? n) && (n <=? 13)) || (n =? 32))%nat.

Fixpoint trimStart (s : string) : string :=
  match s with
  | EmptyString => EmptyString
  | String c r => if is_space c then trimStart r else s
  end.

Fixpoint trimEnd (s : string) : string :=
  match s with
  | EmptyString => EmptyString
  | String c r =>
      match trimEnd r with
      | EmptyString => if is_space c then EmptyString else String c EmptyString
      | r' => String c r'
      end
  end.

(** [s.trim()] for a string of ASCII characters. *)
Definition trim (s : string) : string := trimEnd (trimStart s).

Definition is_digit (c : ascii) : bool :=
  let n := nat_of_ascii c in ((48 <=? n) && (n <=? 57))%nat.



Fixpoint all_chars (p : ascii -> bool) (s : string) : bool :=
  match s with
  | EmptyString => true
  | String c r => p c && all_chars p r
  end.

(** Characters of [s] taken with their index. *)
Fixpoint all_chars_from (p : nat -> ascii -> bool) (i : nat) (s : string) : bool :=
  match s with
  | EmptyString => true
  | String c r => p i c && all_chars_from p (S i) r
  end.

End JsString.

(** ASCII text: every code unit is below 128. *)
Definition ascii_only (s : string) : bool :=
  JsString.all_chars (fun c => (nat_of_ascii c <? 128)%nat) s.



(* ===================================================================== *)
(** ** JavaScript values (what [JSON.parse] and [express.json] deliver) *)
(* ===================================================================== *)

(** Numbers are carried as integers: the program only tests a number for
    its type and its truthiness.  An object is the list of its own
    properties, each key once. *)
#[warnings="-register-all"] Inductive JsValue : Type :=
| JUndefined
| JNull
| JBool (b : bool)
| JNum (n : Z)
| JStr (s : string)
| JArr (items : list JsValue)
| JObj (props : list (string * JsValue)).

Module Js.

(** [!!v]. *)
Definition truthy (v : JsValue) : bool :=
  match v with
  | JUndefined | JNull => false
  | JBool b => b
  | JNum n => negb (Z.eqb n 0)
  | JStr s => JsString.truthy s
  | JArr _ | JObj _ => true
  end.

(** [typeof v === 'object'] (true of [null], arrays and objects). *)
Definition typeof_object (v : JsValue) : bool :=
  match v with JNull | JArr _ | JObj _ => true | _ => false end.

(** [typeof v === 'string']. *)
Definition typeof_string (v : JsValue) : bool :=
  match v with JStr _ => true | _ => false end.

(** [Array.isArray(v)]. *)
Definition isArray (v : JsValue) : bool :=
  match v with JArr _ => true | _ => false end.

Fixpoint lookup (k : string) (props : list (string * JsValue)) : JsValue :=
  match props with
  | [] => JUndefined
  | (k', v) :: rest => if String.eqb k k' then v else lookup k rest
  end.

(** [v.k] for one of the property names the program reads (none of them
    is inherited from a prototype) and a receiver that is neither [null]
    nor [undefined]: [undefined] unless [v] is an object that owns [k].
    Reading a property of [null] or [undefined] throws: see [get_prop]. *)
Definition prop (v : JsValue) (k : string) : JsValue :=
  match v with JObj props => lookup k props | _ => JUndefined end.

(** The string held by a value known to be a string. *)
Definition as_string (v : JsValue) : string :=
  match v with JStr s => s | _ => EmptyString end.

End Js.

(* ===================================================================== *)
(** ** types.ts *)
(* ===================================================================== *)

Inductive ShipmentStatus := CREATED | IN_TRANSIT | DELIVERED | DELAYED | CANCELLED.

Record Shipment : Type := mkShipment {
  shipmentId : string;
  orderId : string;
  carrier : string;
  trackingNumber : string;
  status : ShipmentStatus;
  cancelledAt : option string
}.

Inductive Priority := LOW | NORMAL | HIGH.

Record AnalyticsNotificationEvent : Type := mkNotification {
  notificationId : string;
  n_requestId : string;
  title : string;
  body : string;
  priority : Priority
}.

Record DispatchCommandEvent : Type := mkCommand {
  c_messageId : string;
  c_requestId : string;
  c_orderId : string;
  c_carrier : string;
  requestedAt : string
}.

Inductive ReplyStatus := ACCEPTED | REJECTED | PARTIAL.

Record FulfillmentReplyEvent : Type := mkReply {
  r_messageId : string;
  r_requestId : string;
  r_orderId : string;
  r_status : ReplyStatus;
  repliedAt : string;
  trackingId : option string;
  rejectionReason : option string
}.

(* ===================================================================== *)
(** ** The shipment registry: [new Map<string, Shipment>()] *)
(* ===================================================================== *)

(** A JavaScript [Map] iterates in insertion order, and [set] on a key that
    is present keeps the key's position: an association list with update in
    place. *)
Module JsMap.

Definition t : Type := list (string * Shipment).

Fixpoint get (k : string) (m : t) : option Shipment :=
  match m with
  | [] => None
  | (k', v) :: rest => if String.eqb k k' then Some v else get k rest
  end.

Fixpoint set (k : string) (v : Shipment) (m : t) : t :=
  match m with
  | [] => [(k, v)]
  | (k', v') :: rest =>
      if String.eqb k k' then (k', v) :: rest else (k', v') :: set k v rest
  end.

(** [Array.from(m.values())]. *)
Definition values (m : t) : list Shipment := map snd m.

Definition keys (m : t) : list string := map fst m.

End JsMap.

(* ===================================================================== *)
(** ** Errors, responses, the outbound side *)
(* ===================================================================== *)

Inductive JsError : Type :=
| Error (message : string)
| TypeError (message : string)
| URIError (message : string).

Definition error_message (e : JsError) : string :=
  match e with Error m | TypeError m | URIError m => m end.

(** The result of running a piece of code: it returns or it throws. *)
Inductive outcome (A : Type) : Type :=
| Returned (a : A)
| Thrown (e : JsError).
Arguments Returned {A} a.
Arguments Thrown {A} e.

(** What [res.status(code).json(payload)] sends. *)
Inductive ResponseBody : Type :=
| JsonShipment (view : Shipment)
| JsonShipments (views : list Shipment)
| JsonError (error : string).

Record Response : Type := Res {
  status_code : nat;
  json : ResponseBody
}.

(** The value of a Kafka message before [JSON.stringify]. *)
Inductive Payload : Type :=
| ReplyJson (reply : FulfillmentReplyEvent)
| NotificationJson (event : AnalyticsNotificationEvent).

(** One call of [fulfillmentProducer.send]. *)
Record ProducerRecord : Type := mkRecord {
  topic : string;
  key : string;
  value : Payload
}.

(* ===================================================================== *)
(** ** The MQTT publisher's per-call client *)
(* ===================================================================== *)

Inductive Timer := Armed | Fired | Cleared.

(** The closure state of one [publishAnalyticsNotification] call of the MQTT
    variant.  [end_calls] counts the calls of [client.end(true)] and
    [done_calls] the calls of [done]: they observe the run, the code does not
    read them. *)
Record MqttClient : Type := mkClient {
  m_topic : string;
  m_payload : AnalyticsNotificationEvent;
  completed : bool;
  end_calls : nat;
  done_calls : nat;
  timeout : Timer;
  connect_listener : bool;
  error_listener : bool;
  publish_callbacks : nat
}.

(** What the event loop can deliver to a client: the 1500 ms timer, the
    client's [connect] and [error] events, and the callback of a publish. *)
Inductive MqttEvent : Type :=
| EvTimeout
| EvConnect
| EvError (message : string)
| EvPublished (error : option string).

(* ===================================================================== *)
(** ** The process state *)
(* ===================================================================== *)

Record World : Type := mkWorld {
  shipments : JsMap.t;
  uuids_drawn : nat;
  clock_reads : nat;
  produced : list ProducerRecord;
  console : list string;
  clients : list MqttClient
}.

Definition empty_world : World :=
  {| shipments := []; uuids_drawn := 0; clock_reads := 0;
     produced := []; console := []; clients := [] |}.

(** Which notification publisher the build carries: none (the plain
    variants), the Kafka producer ([src/index.ts]) or a per-call MQTT
    client. *)
Inductive Notifier := NoNotifier | KafkaNotifier | MqttNotifier.

(** The configuration read from the environment at start-up. *)
Record Config : Type := mkConfig {
  analyticsNotificationTopic : string;
  analyticsMqttUrl : string;
  fulfillmentReplyTopic : string;
  notifier : Notifier
}.

(** The defaults of [src/index.ts]. *)
Definition default_config : Config :=
  {| analyticsNotificationTopic := "notification.user";
     analyticsMqttUrl := "mqtt://localhost:1883";
     fulfillmentReplyTopic := "queue.order.fulfillment.reply";
     notifier := KafkaNotifier |}.

(** The query parameter [req.query.orderId]: absent, a string, or one of the
    other shapes the query parser builds (an array, a nested object). *)
Inductive QueryParam : Type :=
| QAbsent
| QString (s : string)
| QOther.

(* ===================================================================== *)
(** ** A state monad with exceptions *)
(* ===================================================================== *)

Definition M (A : Type) : Type := World -> outcome A * World.

Definition ret {A} (a : A) : M A := fun w => (Returned a, w).

Definition throw {A} (e : JsError) : M A := fun w => (Thrown e, w).

Definition bind {A B} (m : M A) (k : A -> M B) : M B :=
  fun w =>
    match m w with
    | (Returned a, w') => k a w'
    | (Thrown e, w') => (Thrown e, w')
    end.

(** [try { m } catch (error) { h error }]. *)
Definition try_catch {A} (m : M A) (h : JsError -> M A) : M A :=
  fun w =>
    match m w with
    | (Returned a, w') => (Returned a, w')
    | (Thrown e, w') => h e w'
    end.

Declare Scope js_scope.
Delimit Scope js_scope with js.
Notation "x <- m ;; k" := (bind m (fun x => k))
  (at level 61, m at next level, right associativity) : js_scope.
Notation "m ;; k" := (bind m (fun _ => k))
  (at level 61, right associativity) : js_scope.
Open Scope js_scope.

(** Field updates of the process state. *)
Definition with_shipments (m : JsMap.t) (w : World) : World :=
  {| shipments := m; uuids_drawn := uuids_drawn w; clock_reads := clock_reads w;
     produced := produced w; console := console w; clients := clients w |}.

Definition with_uuids_drawn (n : nat) (w : World) : World :=
  {| shipments := shipments w; uuids_drawn := n; clock_reads := clock_reads w;
     produced := produced w; console := console w; clients := clients w |}.

Definition with_clock_reads (n : nat) (w : World) : World :=
  {| shipments := shipments w; uuids_drawn := uuids_drawn w; clock_reads := n;
     produced := produced w; console := console w; clients := clients w |}.

Definition with_produced (l : list ProducerRecord) (w : World) : World :=
  {| shipments := shipments w; uuids_drawn := uuids_drawn w;
     clock_reads := clock_reads w;
     produced := l; console := console w; clients := clients w |}.

Definition with_console (l : list string) (w : World) : World :=
  {| shipments := shipments w; uuids_drawn := uuids_drawn w;
     clock_reads := clock_reads w;
     produced := produced w; console := l; clients := clients w |}.

Definition with_clients (l : list MqttClient) (w : World) : World :=
  {| shipments := shipments w; uuids_drawn := uuids_drawn w;
     clock_reads := clock_reads w;
     produced := produced w; console := console w; clients := l |}.

(** [shipments.get(k)], [shipments.set(k, v)], [Array.from(shipments.values())]. *)
Definition shipments_get (k : string) : M (option Shipment) :=
  fun w => (Returned (JsMap.get k (shipments w)), w).

Definition shipments_set (k : string) (v : Shipment) : M unit :=
  fun w => (Returned tt, with_shipments (JsMap.set k v (shipments w)) w).

Definition shipments_values : M (list Shipment) :=
  fun w => (Returned (JsMap.values (shipments w)), w).

(** [console.error(line)]. *)
Definition console_error (line : string) : M unit :=
  fun w => (Returned tt, with_console (console w ++ [line]) w).

(** [v.k], which throws on [null] and [undefined] (the message is V8's). *)
Definition get_prop (v : JsValue) (k : string) : M JsValue :=
  match v with
  | JNull =>
      throw (TypeError ("Cannot read properties of null (reading '" ++ k ++ "')"))
  | JUndefined =>
      throw (TypeError ("Cannot read properties of undefined (reading '" ++ k ++ "')"))
  | _ => ret (Js.prop v k)
  end.

(* ===================================================================== *)
(** ** Pure helpers of the service *)
(* ===================================================================== *)

(** The view copies five fields; [cancelledAt] is not among them. *)
Definition toShipmentView (shipment : Shipment) : Shipment :=
  {| shipmentId := shipmentId shipment;
     orderId := orderId shipment;
     carrier := carrier shipment;
     trackingNumber := trackingNumber shipment;
     status := status shipment;
     cancelledAt := None |}.

Definition isDispatchCommandEvent (value : JsValue) : bool :=
  if negb (Js.truthy value) || negb (Js.typeof_object value) || Js.isArray value
  then false
  else
    let payload := value in
    Js.typeof_string (Js.prop payload "messageId") &&
    Js.typeof_string (Js.prop payload "requestId") &&
    Js.typeof_string (Js.prop payload "orderId") &&
    Js.typeof_string (Js.prop payload "carrier") &&
    Js.typeof_string (Js.prop payload "requestedAt").

(** The fields the consumer reads off a payload that passed
    [isDispatchCommandEvent] (the payload itself is the command). *)
Definition as_command (payload : JsValue) : DispatchCommandEvent :=
  {| c_messageId := Js.as_string (Js.prop payload "messageId");
     c_requestId := Js.as_string (Js.prop payload "requestId");
     c_orderId := Js.as_string (Js.prop payload "orderId");
     c_carrier := Js.as_string (Js.prop payload "carrier");
     requestedAt := Js.as_string (Js.prop payload "requestedAt") |}.

(** [a || b] where [a] is an optional string. *)
Definition opt_or_else (a : option string) (b : string) : string :=
  match a with
  | Some s => JsString.or_else s b
  | None => b
  end.

(** The filter predicate [shipment.orderId === orderId]. *)
Definition has_orderId (wanted : string) (shipment : Shipment) : bool :=
  String.eqb (orderId shipment) wanted.

(** [{ ...existing, status: 'CANCELLED', cancelledAt: now }]. *)
Definition cancelled_copy (existing : Shipment) (now : string) : Shipment :=
  {| shipmentId := shipmentId existing;
     orderId := orderId existing;
     carrier := carrier existing;
     trackingNumber := trackingNumber existing;
     status := CANCELLED;
     cancelledAt := Some now |}.

Definition ReplyStatus_eqb (a b : ReplyStatus) : bool :=
  match a, b with
  | ACCEPTED, ACCEPTED | REJECTED, REJECTED | PARTIAL, PARTIAL => true
  | _, _ => false
  end.

(* ===================================================================== *)
(** ** The MQTT client's callbacks *)
(* ===================================================================== *)

Module Mqtt.

(** The state right after [publishAnalyticsNotification] returns: the
    timer is armed and both [once] listeners are registered. *)
Definition opened (topic : string) (event : AnalyticsNotificationEvent) : MqttClient :=
  {| m_topic := topic; m_payload := event;
     completed := false; end_calls := 0; done_calls := 0;
     timeout := Armed;
     connect_listener := true; error_listener := true;
     publish_callbacks := 0 |}.

(** [done()]: the guard, then [client.end(true)]. *)
Definition done (c : MqttClient) : MqttClient :=
  if completed c
  then {| m_topic := m_topic c; m_payload := m_payload c;
          completed := completed c; end_calls := end_calls c;
          done_calls := S (done_calls c);
          timeout := timeout c;
          connect_listener := connect_listener c;
          error_listener := error_listener c;
          publish_callbacks := publish_callbacks c |}
  else {| m_topic := m_topic c; m_payload := m_payload c;
          completed := true; end_calls := S (end_calls c);
          done_calls := S (done_calls c);
          timeout := timeout c;
          connect_listener := connect_listener c;
          error_listener := error_listener c;
          publish_callbacks := publish_callbacks c |}.

Definition with_timeout (t : Timer) (c : MqttClient) : MqttClient :=
  {| m_topic := m_topic c; m_payload := m_payload c;
     completed := completed c; end_calls := end_calls c;
     done_calls := done_calls c;
     timeout := t;
     connect_listener := connect_listener c;
     error_listener := error_listener c;
     publish_callbacks := publish_callbacks c |}.

(** [clearTimeout(timeout)]: a timer that has fired stays fired. *)
Definition clearTimeout (c : MqttClient) : MqttClient :=
  match timeout c with
  | Armed => with_timeout Cleared c
  | _ => c
  end.

(** The [connect] listener: unregistered by [once], then one
    [client.publish] whose callback is pending. *)
Definition on_connect (c : MqttClient) : MqttClient :=
  {| m_topic := m_topic c; m_payload := m_payload c;
     completed := completed c; end_calls := end_calls c;
     done_calls := done_calls c;
     timeout := timeout c;
     connect_listener := false;
     error_listener := error_listener c;
     publish_callbacks := S (publish_callbacks c) |}.

Definition drop_error_listener (c : MqttClient) : MqttClient :=
  {| m_topic := m_topic c; m_payload := m_payload c;
     completed := completed c; end_calls := end_calls c;
     done_calls := done_calls c;
     timeout := timeout c;
     connect_listener := connect_listener c;
     error_listener := false;
     publish_callbacks := publish_callbacks c |}.

Definition callback_ran (c : MqttClient) : MqttClient :=
  {| m_topic := m_topic c; m_payload := m_payload c;
     completed := completed c; end_calls := end_calls c;
     done_calls := done_calls c;
     timeout := timeout c;
     connect_listener := connect_listener c;
     error_listener := error_listener c;
     publish_callbacks := pred (publish_callbacks c) |}.

(** Whether the event loop can deliver [ev] in state [c]: the timer fires
    only while armed, a [once] listener runs only while registered, a
    publish callback runs only for a publish that was issued. *)
Definition enabled (c : MqttClient) (ev : MqttEvent) : bool :=
  match ev with
  | EvTimeout => match timeout c with Armed => true | _ => false end
  | EvConnect => connect_listener c
  | EvError _ => error_listener c
  | EvPublished _ => negb (publish_callbacks c =? 0)%nat
  end.

(** One callback run: the new client state and the lines it logs.  An
    event that is not enabled is not delivered. *)
Definition step (url : string) (c : MqttClient) (ev : MqttEvent)
  : MqttClient * list string :=
  if negb (enabled c ev) then (c, [])
  else
    match ev with
    | EvTimeout => (done (with_timeout Fired c), [])
    | EvConnect => (on_connect c, [])
    | EvError message =>
        (done (clearTimeout (drop_error_listener c)),
         ["Failed to connect to analytics MQTT broker (" ++ url ++ "): " ++ message])
    | EvPublished error =>
        (done (clearTimeout (callback_ran c)),
         match error with
         | Some message =>
             ["Failed to publish analytics notification on " ++ m_topic c
                ++ ": " ++ message]
         | None => []
         end)
    end.


End Mqtt.

(* ===================================================================== *)
(** ** Reference instances of the builtins and of the oracles *)
(* ===================================================================== *)

(** The development is parametric in the builtins and in the oracles; the
    instances below are used to run the service on concrete inputs. *)
Module Sample.

Definition dquote : ascii := ascii_of_nat 34.

(** JSON texts are written with ['] for the double quote. *)
Fixpoint json_text (s : string) : string :=
  match s with
  | EmptyString => EmptyString
  | String c r => String (if Ascii.eqb c "'" then dquote else c) (json_text r)
  end.

Fixpoint skip_ws (s : string) : string :=
  match s with
  | String c r =>
      let n := nat_of_ascii c in
      if ((n =? 32) || (n =? 9) || (n =? 10) || (n =? 13))%nat then skip_ws r else s
  | EmptyString => EmptyString
  end.

(** [strip prefix s]: the rest of [s] after [prefix]. *)
Fixpoint strip (prefix s : string) : option string :=
  match prefix, s with
  | EmptyString, _ => Some s
  | String a p, String b r => if Ascii.eqb a b then strip p r else None
  | String _ _, EmptyString => None
  end.

(** The characters of a string literal after its opening quote, and the
    rest of the input after the closing quote.  The escapes of ASCII
    characters are decoded; [\u] escapes are not covered. *)
Fixpoint string_body (s : string) : option (string * string) :=
  match s with
  | EmptyString => None
  | String c r =>
      if Ascii.eqb c dquote then Some (EmptyString, r)
      else if Ascii.eqb c "\" then
        match r with
        | String e r' =>
            let decoded :=
              if Ascii.eqb e dquote then Some dquote
              else if Ascii.eqb e "\" then Some "\"%char
              else if Ascii.eqb e "/" then Some "/"%char
              else if Ascii.eqb e "b" then Some (ascii_of_nat 8)
              else if Ascii.eqb e "f" then Some (ascii_of_nat 12)
              else if Ascii.eqb e "n" then Some (ascii_of_nat 10)
              else if Ascii.eqb e "r" then Some (ascii_of_nat 13)
              else if Ascii.eqb e "t" then Some (ascii_of_nat 9)
              else None in
            match decoded, string_body r' with
            | Some d, Some (str, rest) => Some (String d str, rest)
            | _, _ => None
            end
        | EmptyString => None
        end
      else if (nat_of_ascii c <? 32)%nat then None
      else
        match string_body r with
        | Some (str, rest) => Some (String c str, rest)
        | None => None
        end
  end.

(** The digits at the head of [s], as a number, and the rest. *)
Fixpoint digits (acc : Z) (s : string) : Z * string :=
  match s with
  | String c r =>
      if JsString.is_digit c
      then digits (10 * acc + Z.of_nat (nat_of_ascii c - 48)) r
      else (acc, s)
  | EmptyString => (acc, s)
  end.

(** An integer literal [0] or [[1-9][0-9]*]. *)
Definition natural (s : string) : option (Z * string) :=
  match s with
  | String "0" r => Some (0%Z, r)
  | String c _ => if JsString.is_digit c then Some (digits 0 s) else None
  | EmptyString => None
  end.

(** [o[k] = v] while an object literal is read: a repeated key keeps its
    place and takes the later value. *)
Fixpoint put (k : string) (v : JsValue) (props : list (string * JsValue))
  : list (string * JsValue) :=
  match props with
  | [] => [(k, v)]
  | (k', v') :: rest =>
      if String.eqb k k' then (k', v) :: rest else (k', v') :: put k v rest
  end.

Fixpoint value (fuel : nat) (s : string) {struct fuel} : option (JsValue * string) :=
  match fuel with
  | O => None
  | S f =>
      match skip_ws s with
      | EmptyString => None
      | String c r =>
          if Ascii.eqb c "n" then option_map (pair JNull) (strip "ull" r)
          else if Ascii.eqb c "t" then option_map (pair (JBool true)) (strip "rue" r)
          else if Ascii.eqb c "f" then option_map (pair (JBool false)) (strip "alse" r)
          else if Ascii.eqb c dquote then
            match string_body r with
            | Some (str, rest) => Some (JStr str, rest)
            | None => None
            end
          else if Ascii.eqb c "[" then
            match skip_ws r with
            | String "]" rest => Some (JArr [], rest)
            | _ => elements f r []
            end
          else if Ascii.eqb c "{" then
            match skip_ws r with
            | String "}" rest => Some (JObj [], rest)
            | _ => members f r []
            end
          else if Ascii.eqb c "-" then
            match natural r with
            | Some (n, rest) => Some (JNum (- n), rest)
            | None => None
            end
          else
            match natural (String c r) with
            | Some (n, rest) => Some (JNum n, rest)
            | None => None
            end
      end
  end
with elements (fuel : nat) (s : string) (acc : list JsValue) {struct fuel}
  : option (JsValue * string) :=
  match fuel with
  | O => None
  | S f =>
      match value f s with
      | Some (v, r) =>
          match skip_ws r with
          | String "," rest => elements f rest (acc ++ [v])
          | String "]" rest => Some (JArr (acc ++ [v]), rest)
          | _ => None
          end
      | None => None
      end
  end
with members (fuel : nat) (s : string) (acc : list (string * JsValue)) {struct fuel}
  : option (JsValue * string) :=
  match fuel with
  | O => None
  | S f =>
      match skip_ws s with
      | String c r =>
          if Ascii.eqb c dquote then
            match string_body r with
            | Some (k, r1) =>
                match skip_ws r1 with
                | String ":" r2 =>
                    match value f r2 with
                    | Some (v, r3) =>
                        match skip_ws r3 with
                        | String "," rest => members f rest (put k v acc)
                        | String "}" rest => Some (JObj (put k v acc), rest)
                        | _ => None
                        end
                    | None => None
                    end
                | _ => None
                end
            | None => None
            end
          else None
      | EmptyString => None
      end
  end.

(** [JSON.parse] on the fragment of JSON whose numbers are integers and
    whose strings are ASCII without [\u] escapes; other texts are
    rejected. *)
Definition JSON_parse (text : string) : option JsValue :=
  match value (S (String.length text)) text with
  | Some (v, rest) =>
      match skip_ws rest with
      | EmptyString => Some v
      | String _ _ => None
      end
  | None => None
  end.

(** Two decimal digits at the head of [s], as a number. *)
Definition two_digits (s : string) : option nat :=
  match s with
  | String a (String b _) =>
      if JsString.is_digit a && JsString.is_digit b
      then Some ((nat_of_ascii a - 48) * 10 + (nat_of_ascii b - 48))
      else None
  | _ => None
  end.

Definition in_range (lo hi : nat) (s : string) : bool :=
  match two_digits s with
  | Some n => ((lo <=? n) && (n <=? hi))%nat
  | None => false
  end.

Fixpoint drop (n : nat) (s : string) : string :=
  match n, s with
  | S k, String _ r => drop k r
  | _, _ => s
  end.

(** The timestamps [YYYY-MM-DDTHH:MM:SSZ] with a month in [01..12], a day
    in [01..28] and a time of day: each of them is a valid date-time for
    [Date.parse].  The instance reports every other text as invalid. *)
Definition is_utc_timestamp (s : string) : bool :=
  (String.length s =? 20)%nat &&
  JsString.all_chars_from
    (fun i c =>
       if ((i =? 4) || (i =? 7))%nat then Ascii.eqb c "-"
       else if (i =? 10)%nat then Ascii.eqb c "T"
       else if ((i =? 13) || (i =? 16))%nat then Ascii.eqb c ":"
       else if (i =? 19)%nat then Ascii.eqb c "Z"
       else JsString.is_digit c) 0 s &&
  in_range 1 12 (drop 5 s) && in_range 1 28 (drop 8 s) &&
  in_range 0 23 (drop 11 s) && in_range 0 59 (drop 14 s) &&
  in_range 0 59 (drop 17 s).

Definition Date_parse_isNaN (text : string) : bool := negb (is_utc_timestamp text).

Definition hex_digit (c : ascii) : option nat :=
  let n := nat_of_ascii c in
  if ((48 <=? n) && (n <=? 57))%nat then Some (n - 48)
  else if ((97 <=? n) && (n <=? 102))%nat then Some (n - 87)
  else if ((65 <=? n) && (n <=? 70))%nat then Some (n - 55)
  else None.

(** [decodeURIComponent] on ASCII: a [%hh] escape of a code below 128 is
    decoded, a stray [%] is an error; escapes of larger codes are not
    covered. *)
Fixpoint decodeURIComponent (s : string) : option string :=
  match s with
  | EmptyString => Some EmptyString
  | String c r =>
      if Ascii.eqb c "%" then
        match r with
        | String h (String l r') =>
            match hex_digit h, hex_digit l with
            | Some a, Some b =>
                if (16 * a + b <? 128)%nat
                then option_map (String (ascii_of_nat (16 * a + b)))
                                (decodeURIComponent r')
                else None
            | _, _ => None
            end
        | _ => None
        end
      else option_map (String c) (decodeURIComponent r)
  end.

(** A run of [randomUUID]: distinct version-4 identifiers. *)
Definition randomUUID_at (n : nat) : string :=
  match n with
  | 0 => "3f2a9c1e-7b4d-4e8a-9c0f-5d6e7f8a9b0c"
  | 1 => "a1b2c3d4-e5f6-4a7b-8c9d-0e1f2a3b4c5d"
  | 2 => "0f9e8d7c-6b5a-4f3e-9d2c-1b0a9f8e7d6c"
  | 3 => "5c4d3e2f-1a0b-4c9d-8e7f-6a5b4c3d2e1f"
  | 4 => "9b8a7c6d-5e4f-4a3b-8c2d-1e0f9a8b7c6d"
  | _ => "7e6f5d4c-3b2a-4190-8f8e-7d6c5b4a3f2e"
  end.

(** A run of the clock, one second per read. *)
Definition toISOString_at (n : nat) : string :=
  match n with
  | 0 => "2024-05-01T10:00:00.000Z"
  | 1 => "2024-05-01T10:00:01.000Z"
  | 2 => "2024-05-01T10:00:02.000Z"
  | _ => "2024-05-01T10:00:03.000Z"
  end.

(** A healthy broker, and one that rejects every send. *)
Definition send_ok (n : nat) : option JsError := None.

Definition send_down (n : nat) : option JsError := Some (Error "broker down").

(** The build of [src/index.ts] (Kafka publisher), the MQTT build and
    the plain build. *)
Definition kafka_build : Config := default_config.


Definition plain_build : Config :=
  {| analyticsNotificationTopic := "notification/user";
     analyticsMqttUrl := "mqtt://localhost:1883";
     fulfillmentReplyTopic := "queue.order.fulfillment.reply";
     notifier := NoNotifier |}.

(** [trim] and [toUpperCase] on ASCII text. *)
Definition trim : string -> string := JsString.trim.

Definition toUpperCase : string -> string := JsString.toUpperCase.

End Sample.

(* ===================================================================== *)
(** ** The service *)
(* ===================================================================== *)

(** A request the process can receive: an HTTP request on one of the
    routes, a message of the dispatch-command topic, or an event of the MQTT
    client opened by the [client]-th notification. *)
Inductive Request : Type :=
| POST_shipments (body : JsValue)
| POST_shipments_raw (raw : string)
| GET_shipment (param : string)
| GET_shipments (orderId : QueryParam)
| POST_cancel (param : string)
| Unmatched
| DispatchMessage (value : option string)
| MqttDelivery (client : nat) (ev : MqttEvent).

Section Service.

Variable cfg : Config.

(** [randomUUID()]: the value returned by the [n]-th call. *)
Variable randomUUID_at : nat -> string.

(** [new Date().toISOString()]: the value of the [n]-th read. *)
Variable toISOString_at : nat -> string.

(** The rejection of the [n]-th [fulfillmentProducer.send], if it fails. *)
Variable send_error_at : nat -> option JsError.

(** [JSON.parse(text)]; [None] when it throws a [SyntaxError]. *)
Variable JSON_parse : string -> option JsValue.

(** [Number.isNaN(Date.parse(text))]. *)
Variable Date_parse_isNaN : string -> bool.

(** [decodeURIComponent(text)]; [None] when it throws a [URIError]. *)
Variable decodeURIComponent : string -> option string.

(** [text.trim()]. *)
Variable trim : string -> string.

(** [text.toUpperCase()]. *)
Variable toUpperCase : string -> string.

(** What the two builtins do on ASCII text. *)
Definition trim_on_ascii : Prop :=
  forall s, ascii_only s = true -> trim s = JsString.trim s.

Definition toUpperCase_on_ascii : Prop :=
  forall s, ascii_only s = true -> toUpperCase s = JsString.toUpperCase s.

(** [`TRK-${shipmentId.replace(/-/g, '').slice(0, 12).toUpperCase()}`]. *)
Definition makeTrackingNumber (shipmentId : string) : string :=
  "TRK-" ++ toUpperCase (JsString.slice0 12 (JsString.remove_hyphens shipmentId)).

Definition buildDefaultShipment (shipmentId : string) : Shipment :=
  {| shipmentId := shipmentId;
     orderId := "order-" ++ shipmentId;
     carrier := "ACME_SHIP";
     trackingNumber := makeTrackingNumber shipmentId;
     status := IN_TRANSIT;
     cancelledAt := None |}.

Definition randomUUID : M string :=
  fun w => (Returned (randomUUID_at (uuids_drawn w)),
            with_uuids_drawn (S (uuids_drawn w)) w).

Definition now_toISOString : M string :=
  fun w => (Returned (toISOString_at (clock_reads w)),
            with_clock_reads (S (clock_reads w)) w).

(** [fulfillmentProducer.send(record)], settled: the record is handed to
    the producer and the promise resolves or rejects. *)
Definition producer_send (record : ProducerRecord) : M (option JsError) :=
  fun w => (Returned (send_error_at (List.length (produced w))),
            with_produced (produced w ++ [record]) w).

(** [await fulfillmentProducer.send(record)]: a rejection is thrown. *)
Definition await_send (record : ProducerRecord) : M unit :=
  rejected <- producer_send record ;;
  match rejected with
  | Some e => throw e
  | None => ret tt
  end.

Definition decode_param (param : string) : M string :=
  match decodeURIComponent param with
  | Some s => ret s
  | None => throw (URIError "URI malformed")
  end.

(** *** publishAnalyticsNotification *)

(** [src/index.ts]: [void fulfillmentProducer.send(...).catch(log)]. *)
Definition publish_kafka (event : AnalyticsNotificationEvent) : M unit :=
  rejected <-
    producer_send {| topic := analyticsNotificationTopic cfg;
                     key := n_requestId event;
                     value := NotificationJson event |} ;;
  match rejected with
  | Some e =>
      console_error ("Failed to publish analytics notification on "
                       ++ analyticsNotificationTopic cfg ++ ": " ++ error_message e)
  | None => ret tt
  end.

(** The MQTT variant: a fresh client, the timer and the two listeners;
    everything else happens in later callbacks ([Mqtt.step]). *)
Definition publish_mqtt (event : AnalyticsNotificationEvent) : M unit :=
  fun w =>
    (Returned tt,
     with_clients
       (clients w ++ [Mqtt.opened (analyticsNotificationTopic cfg) event]) w).

Definition publishAnalyticsNotification (event : AnalyticsNotificationEvent) : M unit :=
  match notifier cfg with
  | NoNotifier => ret tt
  | KafkaNotifier => publish_kafka event
  | MqttNotifier => publish_mqtt event
  end.

(** The call site: [publishAnalyticsNotification({ notificationId:
    randomUUID(), ... })]; the variants without a publisher have no such
    statement. *)
Definition notify (event_with : string -> AnalyticsNotificationEvent) : M unit :=
  match notifier cfg with
  | NoNotifier => ret tt
  | _ =>
      notificationId <- randomUUID ;;
      publishAnalyticsNotification (event_with notificationId)
  end.

(** *** The dispatch-command consumer *)

Definition buildFulfillmentReply (command : DispatchCommandEvent)
  : M FulfillmentReplyEvent :=
  if Date_parse_isNaN (requestedAt command) then
    messageId <- randomUUID ;;
    now <- now_toISOString ;;
    ret {| r_messageId := messageId;
           r_requestId := c_requestId command;
           r_orderId := c_orderId command;
           r_status := REJECTED;
           repliedAt := now;
           trackingId := None;
           rejectionReason := Some "Invalid requestedAt" |}
  else
    messageId <- randomUUID ;;
    now <- now_toISOString ;;
    uuid <- randomUUID ;;
    ret {| r_messageId := messageId;
           r_requestId := c_requestId command;
           r_orderId := c_orderId command;
           r_status := ACCEPTED;
           repliedAt := now;
           trackingId := Some (makeTrackingNumber uuid);
           rejectionReason := None |}.

(** [eachMessage({ message })], on [message.value] (the buffer's text, or
    [null]). *)
Definition eachMessage (value : option string) : M unit :=
  match value with
  | None => ret tt
  | Some text =>
      match JSON_parse text with
      | None => ret tt
      | Some payload =>
          if negb (isDispatchCommandEvent payload) then ret tt
          else
            let command := as_command payload in
            reply <- buildFulfillmentReply command ;;
            (if ReplyStatus_eqb (r_status reply) ACCEPTED then
               shipmentId <- randomUUID ;;
               shipments_set shipmentId
                 {| shipmentId := shipmentId;
                    orderId := c_orderId command;
                    carrier := JsString.or_else (c_carrier command) "ACME_SHIP";
                    trackingNumber :=
                      opt_or_else (trackingId reply) (makeTrackingNumber shipmentId);
                    status := CREATED;
                    cancelledAt := None |}
             else ret tt) ;;
            await_send {| topic := fulfillmentReplyTopic cfg;
                          key := c_orderId command;
                          value := ReplyJson reply |}
      end
  end.

(** *** The routes *)

(** The body of the [try] block of [POST /shipments], from the payload on. *)
Definition create_shipment (payload : JsValue) : M Response :=
  p_orderId <- get_prop payload "orderId" ;;
  let orderId :=
    if Js.typeof_string p_orderId then trim (Js.as_string p_orderId)
    else "" in
  p_code <- get_prop payload "destinationPostalCode" ;;
  let destinationPostalCode :=
    if Js.typeof_string p_code then trim (Js.as_string p_code)
    else "" in
  if negb (JsString.truthy orderId) then
    ret (Res 400 (JsonError "orderId must be a non-empty string"))
  else if negb (JsString.truthy destinationPostalCode) then
    ret (Res 400 (JsonError "destinationPostalCode must be a non-empty string"))
  else
    shipmentId <- randomUUID ;;
    let shipment :=
      {| shipmentId := shipmentId;
         orderId := orderId;
         carrier := "ACME_SHIP";
         trackingNumber := makeTrackingNumber shipmentId;
         status := CREATED;
         cancelledAt := None |} in
    shipments_set shipmentId shipment ;;
    notify (fun notificationId =>
              {| notificationId := notificationId;
                 n_requestId := shipmentId;
                 title := "ShipmentCreated";
                 body := "Shipment " ++ shipmentId ++ " created for order " ++ orderId;
                 priority := NORMAL |}) ;;
    ret (Res 201 (JsonShipment (toShipmentView shipment))).

(** [app.post('/shipments', ...)]: [req.body] is what [express.json]
    parsed (a request whose body it cannot parse never reaches the
    handler). *)
Definition post_shipments (req_body : JsValue) : M Response :=
  try_catch
    (let payload := if Js.truthy req_body then req_body else JObj [] in
     create_shipment payload)
    (fun error => ret (Res 400 (JsonError (error_message error)))).





(** [parseBody(req)] of the plain [http] variant, on the whole body text. *)
Definition parseBody (raw : string) : M JsValue :=
  if (1024 * 1024 <? Z.of_nat (String.length raw))%Z then
    throw (Error "Payload too large")
  else if negb (JsString.truthy raw) then ret (JObj [])
  else
    match JSON_parse raw with
    | Some v => ret v
    | None => throw (Error "Invalid JSON body")
    end.

(** [POST /shipments] of the plain [http] variant. *)
Definition post_shipments_raw (raw : string) : M Response :=
  try_catch
    (payload <- parseBody raw ;;
     create_shipment payload)
    (fun error =>
       ret (Res 400 (JsonError
              (JsString.or_else (error_message error) "Invalid request body")))).

(** [app.get('/shipments/:shipmentId', ...)]. *)
Definition get_shipment (param : string) : M Response :=
  shipmentId <- decode_param param ;;
  stored <- shipments_get shipmentId ;;
  let shipment :=
    match stored with
    | Some s => s
    | None => buildDefaultShipment shipmentId
    end in
  ret (Res 200 (JsonShipment (toShipmentView shipment))).

(** [app.get('/shipments', ...)]. *)
Definition get_shipments (query_orderId : QueryParam) : M Response :=
  let orderId :=
    match query_orderId with
    | QString s => Some s
    | _ => None
    end in
  stored <- shipments_values ;;
  list <-
    (if (List.length stored =? 0)%nat then
       shipmentId <- randomUUID ;;
       uuid <- randomUUID ;;
       ret [ {| shipmentId := shipmentId;
                orderId := opt_or_else orderId "order-default";
                carrier := "ACME_SHIP";
                trackingNumber := makeTrackingNumber uuid;
                status := IN_TRANSIT;
                cancelledAt := None |} ]
     else ret stored) ;;
  let filtered :=
    match orderId with
    | Some wanted =>
        if JsString.truthy wanted then filter (has_orderId wanted) list else list
    | None => list
    end in
  ret (Res 200 (JsonShipments (map toShipmentView filtered))).

(** [app.post('/shipments/:shipmentId/cancel', ...)]. *)
Definition post_cancel (param : string) : M Response :=
  shipmentId <- decode_param param ;;
  stored <- shipments_get shipmentId ;;
  let existing :=
    match stored with
    | Some s => s
    | None => buildDefaultShipment shipmentId
    end in
  now <- now_toISOString ;;
  let cancelled := cancelled_copy existing now in
  shipments_set shipmentId cancelled ;;
  notify (fun notificationId =>
            {| notificationId := notificationId;
               n_requestId := shipmentId;
               title := "ShipmentCancelled";
               body := "Shipment " ++ shipmentId ++ " cancelled";
               priority := NORMAL |}) ;;
  ret (Res 200 (JsonShipment (toShipmentView cancelled))).

(** The fallback middleware. *)
Definition not_found : M Response :=
  ret (Res 404 (JsonError "Not found")).

(** Delivery of an event to the [i]-th MQTT client. *)
Fixpoint update_client (i : nat) (ev : MqttEvent) (cs : list MqttClient)
  : list MqttClient * list string :=
  match cs, i with
  | [], _ => ([], [])
  | c :: rest, O =>
      let (c', lines) := Mqtt.step (analyticsMqttUrl cfg) c ev in (c' :: rest, lines)
  | c :: rest, S j =>
      let (rest', lines) := update_client j ev rest in (c :: rest', lines)
  end.

Definition mqtt_delivery (i : nat) (ev : MqttEvent) : M unit :=
  fun w =>
    let (cs, lines) := update_client i ev (clients w) in
    (Returned tt, with_console (console w ++ lines) (with_clients cs w)).

(** One turn of the event loop.  The result is the response of an HTTP
    request, [None] for a message or a client event, or the error that
    escaped the handler. *)
Definition handle (r : Request) : M (option Response) :=
  match r with
  | POST_shipments req_body => res <- post_shipments req_body ;; ret (Some res)
  | POST_shipments_raw raw => res <- post_shipments_raw raw ;; ret (Some res)
  | GET_shipment param => res <- get_shipment param ;; ret (Some res)
  | GET_shipments q => res <- get_shipments q ;; ret (Some res)
  | POST_cancel param => res <- post_cancel param ;; ret (Some res)
  | Unmatched => res <- not_found ;; ret (Some res)
  | DispatchMessage value => eachMessage value ;; ret None
  | MqttDelivery i ev => mqtt_delivery i ev ;; ret None
  end.

(* =================================================================== *)
(** ** Properties *)
(* =================================================================== *)

(** *** The registry *)

Lemma JsMap_get_set_same (k : string) (v : Shipment) (m : JsMap.t) :
  JsMap.get k (JsMap.set k v m) = Some v.
Proof.
  induction m as [|[k' v'] m IH]; simpl.
  - now rewrite String.eqb_refl.
  - destruct (String.eqb k k') eqn:E; simpl; rewrite E; auto.
Qed.

Lemma JsMap_get_set_other (k k' : string) (v : Shipment) (m : JsMap.t) :
  k <> k' -> JsMap.get k' (JsMap.set k v m) = JsMap.get k' m.
Proof.
  intros Hne. induction m as [|[k0 v0] m IH]; simpl.
  - destruct (String.eqb_spec k' k); [congruence | reflexivity].
  - destruct (String.eqb_spec k k0) as [->|Hk]; simpl.
    + destruct (String.eqb_spec k' k0); [congruence | reflexivity].
    + now rewrite IH.
Qed.

(** [set] on an absent key appends: insertion order. *)
Lemma JsMap_set_absent (k : string) (v : Shipment) (m : JsMap.t) :
  JsMap.get k m = None -> JsMap.set k v m = (m ++ [(k, v)])%list.
Proof.
  induction m as [|[k' v'] m IH]; simpl; intros H; [reflexivity|].
  destruct (String.eqb k k'); [discriminate | now rewrite IH].
Qed.

(** [set] on a present key keeps every key in its place. *)
Lemma JsMap_set_present_keys (k : string) (v : Shipment) (m : JsMap.t) :
  JsMap.get k m <> None -> JsMap.keys (JsMap.set k v m) = JsMap.keys m.
Proof.
  unfold JsMap.keys.
  induction m as [|[k' v'] m IH]; simpl; intros H; [congruence|].
  destruct (String.eqb k k'); simpl; [reflexivity | now rewrite IH].
Qed.

(** *** Running the monad *)

Lemma bind_returned {A B} (m : M A) (k : A -> M B) (w w' : World) (a : A) :
  m w = (Returned a, w') -> bind m k w = k a w'.
Proof. intros H. unfold bind. now rewrite H. Qed.

(** The publisher returns normally, whatever the broker does, and leaves
    the registry, the clock and the reply log position alone. *)
Lemma publish_returns (event : AnalyticsNotificationEvent) (w : World) :
  exists w',
    publishAnalyticsNotification event w = (Returned tt, w') /\
    shipments w' = shipments w /\
    clock_reads w' = clock_reads w /\
    uuids_drawn w' = uuids_drawn w.
Proof.
  unfold publishAnalyticsNotification, publish_kafka, publish_mqtt.
  destruct (notifier cfg).
  - eexists; repeat split; reflexivity.
  - unfold bind, producer_send.
    destruct (send_error_at (List.length (produced w)));
      eexists; repeat split; reflexivity.
  - eexists; repeat split; reflexivity.
Qed.

Lemma notify_returns (event_with : string -> AnalyticsNotificationEvent) (w : World) :
  exists w',
    notify event_with w = (Returned tt, w') /\
    shipments w' = shipments w /\
    clock_reads w' = clock_reads w /\
    uuids_drawn w <= uuids_drawn w'.
Proof.
  unfold notify.
  destruct (notifier cfg) eqn:N.
  - eexists; repeat split; auto.
  - unfold bind at 1, randomUUID.
    destruct (publish_returns (event_with (randomUUID_at (uuids_drawn w)))
                (with_uuids_drawn (S (uuids_drawn w)) w)) as (w' & E & Hs & Hc & Hu).
    exists w'. rewrite E, Hs, Hc, Hu. simpl. repeat split; auto.
  - unfold bind at 1, randomUUID.
    destruct (publish_returns (event_with (randomUUID_at (uuids_drawn w)))
                (with_uuids_drawn (S (uuids_drawn w)) w)) as (w' & E & Hs & Hc & Hu).
    exists w'. rewrite E, Hs, Hc, Hu. simpl. repeat split; auto.
Qed.

(** The record [post_cancel] stores for [shipmentId]. *)
Definition cancelled_record (shipmentId : string) (w : World) : Shipment :=
  cancelled_copy
    match JsMap.get shipmentId (shipments w) with
    | Some s => s
    | None => buildDefaultShipment shipmentId
    end
    (toISOString_at (clock_reads w)).

Lemma post_cancel_run (param shipmentId : string) (w : World) :
  decodeURIComponent param = Some shipmentId ->
  exists w',
    post_cancel param w =
      (Returned (Res 200 (JsonShipment (toShipmentView (cancelled_record shipmentId w)))),
       w') /\
    shipments w' =
      JsMap.set shipmentId (cancelled_record shipmentId w) (shipments w) /\
    clock_reads w' = S (clock_reads w) /\
    uuids_drawn w <= uuids_drawn w'.
Proof.
  intros D. unfold post_cancel, decode_param. rewrite D.
  unfold bind at 1, ret at 1.
  unfold bind at 1, shipments_get.
  unfold bind at 1, now_toISOString.
  unfold bind at 1, shipments_set.
  match goal with
  | |- context [notify ?f] =>
      destruct (notify_returns f
                 (with_shipments
                    (JsMap.set shipmentId (cancelled_record shipmentId w)
                       (shipments (with_clock_reads (S (clock_reads w)) w)))
                    (with_clock_reads (S (clock_reads w)) w)))
        as (w' & E & Hs & Hc & Hu)
  end.
  exists w'. unfold cancelled_record in *. simpl in *.
  rewrite (bind_returned _ _ _ _ _ E). unfold ret.
  repeat split; auto.
Qed.

(** *** GET /shipments/:shipmentId *)

(** C6.  For every shipmentId (the decoded route parameter),
    [GET /shipments/:shipmentId] answers 200: with the view of the stored
    record when the id is present, otherwise with the synthesized default
    view (that shipmentId, orderId ["order-" + shipmentId], carrier
    ["ACME_SHIP"], status [IN_TRANSIT], trackingNumber derived from the
    shipmentId).  The registry is not changed, and no response of this
    route has a status other than 200: there is no not-found answer. *)
Theorem get_shipment_always_200 (param shipmentId : string) (w : World) :
  decodeURIComponent param = Some shipmentId ->
  get_shipment param w =
    (Returned
       (Res 200
          (JsonShipment
             match JsMap.get shipmentId (shipments w) with
             | Some stored => toShipmentView stored
             | None =>
                 {| shipmentId := shipmentId;
                    orderId := "order-" ++ shipmentId;
                    carrier := "ACME_SHIP";
                    trackingNumber := makeTrackingNumber shipmentId;
                    status := IN_TRANSIT;
                    cancelledAt := None |}
             end)),
     w)
  /\ (forall p w0 res w1,
        get_shipment p w0 = (Returned res, w1) -> status_code res = 200).
Proof.
  intros D. split.
  - unfold get_shipment, decode_param. rewrite D.
    unfold bind, ret, shipments_get.
    destruct (JsMap.get shipmentId (shipments w)); reflexivity.
  - intros p w0 res w1. unfold get_shipment, decode_param.
    destruct (decodeURIComponent p) as [id|].
    + unfold bind, ret, shipments_get. intros E. inversion E. reflexivity.
    + unfold bind, throw. discriminate.
Qed.

(** *** POST /shipments/:shipmentId/cancel *)

(** C7.  Cancelling the same shipmentId twice in a row: both responses are
    200 with status [CANCELLED]; the record stored after each call has
    status [CANCELLED]; the first call stamps [cancelledAt] with its clock
    reading and the second call re-stamps it with its own, later, reading;
    shipmentId, orderId, carrier and trackingNumber of the record are the
    same after the second call as after the first. *)
Theorem cancel_twice (param id : string) (w : World) :
  decodeURIComponent param = Some id ->
  exists (w1 w2 : World) (c1 c2 : Shipment),
    post_cancel param w = (Returned (Res 200 (JsonShipment (toShipmentView c1))), w1) /\
    post_cancel param w1 = (Returned (Res 200 (JsonShipment (toShipmentView c2))), w2) /\
    JsMap.get id (shipments w1) = Some c1 /\
    JsMap.get id (shipments w2) = Some c2 /\
    status c1 = CANCELLED /\ status c2 = CANCELLED /\
    cancelledAt c1 = Some (toISOString_at (clock_reads w)) /\
    cancelledAt c2 = Some (toISOString_at (S (clock_reads w))) /\
    shipmentId c2 = shipmentId c1 /\
    orderId c2 = orderId c1 /\
    carrier c2 = carrier c1 /\
    trackingNumber c2 = trackingNumber c1.
Proof.
  intros D.
  destruct (post_cancel_run param id w D) as (w1 & E1 & S1 & C1 & _).
  destruct (post_cancel_run param id w1 D) as (w2 & E2 & S2 & C2 & _).
  exists w1, w2, (cancelled_record id w), (cancelled_record id w1).
  assert (G1 : JsMap.get id (shipments w1)
               = Some (cancelled_record id w))
    by (rewrite S1; apply JsMap_get_set_same).
  repeat split; auto.
  - rewrite S2. apply JsMap_get_set_same.
  - unfold cancelled_record at 1. simpl. now rewrite C1.
  - unfold cancelled_record at 1. rewrite G1. reflexivity.
  - unfold cancelled_record at 1. rewrite G1. reflexivity.
  - unfold cancelled_record at 1. rewrite G1. reflexivity.
  - unfold cancelled_record at 1. rewrite G1. reflexivity.
Qed.

(** C10.  Cancelling a shipmentId that is not in the registry answers 200
    and appends a new record under that id: status [CANCELLED],
    [cancelledAt] stamped with the clock reading, orderId
    ["order-" + shipmentId], carrier ["ACME_SHIP"], trackingNumber derived
    from the shipmentId.  The registry grows by one entry. *)
Theorem cancel_unknown_creates (param shipmentId : string) (w : World) :
  decodeURIComponent param = Some shipmentId ->
  JsMap.get shipmentId (shipments w) = None ->
  let created :=
    {| shipmentId := shipmentId;
       orderId := "order-" ++ shipmentId;
       carrier := "ACME_SHIP";
       trackingNumber := makeTrackingNumber shipmentId;
       status := CANCELLED;
       cancelledAt := Some (toISOString_at (clock_reads w)) |} in
  exists w',
    post_cancel param w =
      (Returned (Res 200 (JsonShipment (toShipmentView created))), w') /\
    shipments w' = (shipments w ++ [(shipmentId, created)])%list /\
    List.length (shipments w') = S (List.length (shipments w)) /\
    JsMap.get shipmentId (shipments w') = Some created.
Proof.
  intros D Absent created.
  destruct (post_cancel_run param shipmentId w D) as (w' & E & S' & _).
  assert (R : cancelled_record shipmentId w = created)
    by (unfold cancelled_record; rewrite Absent; reflexivity).
  rewrite R in *.
  exists w'. rewrite S', (JsMap_set_absent _ _ _ Absent).
  repeat split; auto.
  - rewrite length_app. simpl. lia.
  - rewrite <- (JsMap_set_absent _ _ _ Absent). apply JsMap_get_set_same.
Qed.

(** *** The dispatch-command consumer *)

(** A structurally valid DispatchCommandEvent: an object (not an array)
    whose five fields are present and are strings; [command] holds their
    values. *)
Definition structurally_valid (payload : JsValue) (command : DispatchCommandEvent)
  : Prop :=
  exists props,
    payload = JObj props /\
    Js.lookup "messageId" props = JStr (c_messageId command) /\
    Js.lookup "requestId" props = JStr (c_requestId command) /\
    Js.lookup "orderId" props = JStr (c_orderId command) /\
    Js.lookup "carrier" props = JStr (c_carrier command) /\
    Js.lookup "requestedAt" props = JStr (requestedAt command).

Lemma structurally_valid_accepted (payload : JsValue) (command : DispatchCommandEvent) :
  structurally_valid payload command ->
  isDispatchCommandEvent payload = true /\ as_command payload = command.
Proof.
  intros (props & -> & Hm & Hr & Ho & Hc & Ht).
  unfold isDispatchCommandEvent, as_command. simpl.
  rewrite Hm, Hr, Ho, Hc, Ht. simpl. split; [reflexivity|].
  destruct command; reflexivity.
Qed.

Lemma typeof_string_inv (v : JsValue) :
  Js.typeof_string v = true -> v = JStr (Js.as_string v).
Proof. destruct v; simpl; intros H; try discriminate; reflexivity. Qed.

Lemma accepted_structurally_valid (payload : JsValue) :
  isDispatchCommandEvent payload = true ->
  structurally_valid payload (as_command payload).
Proof.
  unfold isDispatchCommandEvent.
  destruct payload as [ | |b|n|s|items|props]; simpl; try discriminate;
    try (destruct b; discriminate);
    try (destruct (negb (Z.eqb n 0)); discriminate);
    try (destruct (JsString.truthy s); discriminate).
  intros H.
  repeat (apply andb_prop in H; destruct H as [H ?]).
  exists props. simpl.
  repeat split; auto using typeof_string_inv.
Qed.

(** The record the consumer stores and the reply it sends for an accepted
    command, from the three identifiers and the clock reading it draws. *)
Definition accepted_reply (command : DispatchCommandEvent) (w : World)
  : FulfillmentReplyEvent :=
  {| r_messageId := randomUUID_at (uuids_drawn w);
     r_requestId := c_requestId command;
     r_orderId := c_orderId command;
     r_status := ACCEPTED;
     repliedAt := toISOString_at (clock_reads w);
     trackingId := Some (makeTrackingNumber (randomUUID_at (1 + uuids_drawn w)));
     rejectionReason := None |}.

Definition accepted_shipment (command : DispatchCommandEvent) (w : World)
  : Shipment :=
  {| shipmentId := randomUUID_at (2 + uuids_drawn w);
     orderId := c_orderId command;
     carrier := JsString.or_else (c_carrier command) "ACME_SHIP";
     trackingNumber := makeTrackingNumber (randomUUID_at (1 + uuids_drawn w));
     status := CREATED;
     cancelledAt := None |}.

Definition rejected_reply (command : DispatchCommandEvent) (w : World)
  : FulfillmentReplyEvent :=
  {| r_messageId := randomUUID_at (uuids_drawn w);
     r_requestId := c_requestId command;
     r_orderId := c_orderId command;
     r_status := REJECTED;
     repliedAt := toISOString_at (clock_reads w);
     trackingId := None;
     rejectionReason := Some "Invalid requestedAt" |}.

(** The outcome of [await fulfillmentProducer.send(...)] for the next
    record. *)
Definition send_outcome (w : World) : outcome unit :=
  match send_error_at (List.length (produced w)) with
  | Some e => Thrown e
  | None => Returned tt
  end.

Lemma eachMessage_accepted (text : string) (payload : JsValue) (w : World) :
  JSON_parse text = Some payload ->
  isDispatchCommandEvent payload = true ->
  Date_parse_isNaN (requestedAt (as_command payload)) = false ->
  exists w',
    eachMessage (Some text) w = (send_outcome w, w') /\
    shipments w' =
      JsMap.set (randomUUID_at (2 + uuids_drawn w))
        (accepted_shipment (as_command payload) w) (shipments w) /\
    produced w' =
      (produced w ++
         [ {| topic := fulfillmentReplyTopic cfg;
              key := c_orderId (as_command payload);
              value := ReplyJson (accepted_reply (as_command payload) w) |} ])%list.
Proof.
  intros P V D. unfold eachMessage. rewrite P, V. simpl negb. cbv iota.
  unfold buildFulfillmentReply. rewrite D.
  unfold send_outcome, await_send, bind, randomUUID, now_toISOString, ret,
    shipments_set, producer_send, throw. simpl.
  destruct (send_error_at (List.length (produced w)));
    eexists; repeat split; reflexivity.
Qed.

Lemma eachMessage_rejected (text : string) (payload : JsValue) (w : World) :
  JSON_parse text = Some payload ->
  isDispatchCommandEvent payload = true ->
  Date_parse_isNaN (requestedAt (as_command payload)) = true ->
  exists w',
    eachMessage (Some text) w = (send_outcome w, w') /\
    shipments w' = shipments w /\
    produced w' =
      (produced w ++
         [ {| topic := fulfillmentReplyTopic cfg;
              key := c_orderId (as_command payload);
              value := ReplyJson (rejected_reply (as_command payload) w) |} ])%list.
Proof.
  intros P V D. unfold eachMessage. rewrite P, V. simpl negb. cbv iota.
  unfold buildFulfillmentReply. rewrite D.
  unfold send_outcome, await_send, bind, randomUUID, now_toISOString, ret,
    shipments_set, producer_send, throw. simpl.
  destruct (send_error_at (List.length (produced w)));
    eexists; repeat split; reflexivity.
Qed.

Lemma eachMessage_dropped (value : option string) (w : World) :
  match value with
  | None => True
  | Some text =>
      match JSON_parse text with
      | None => True
      | Some payload => isDispatchCommandEvent payload = false
      end
  end ->
  eachMessage value w = (Returned tt, w).
Proof.
  unfold eachMessage. destruct value as [text|]; [|reflexivity].
  destruct (JSON_parse text) as [payload|]; [|reflexivity].
  intros ->. reflexivity.
Qed.

(** C2.  A structurally valid command whose [requestedAt] is a valid
    timestamp: the consumer stores exactly one record, under the
    shipmentId it draws, with status [CREATED], the command's orderId, and
    the command's carrier, or ["ACME_SHIP"] when that is empty; the
    shipmentId not being in use, the record is new and the registry grows
    by one.  The consumer hands exactly one record to the producer, on the
    reply topic, keyed by the command's orderId, whose reply has status
    [ACCEPTED], the command's requestId and a trackingId equal to the
    created shipment's trackingNumber. *)
Theorem dispatch_accepted
  (text : string) (payload : JsValue) (command : DispatchCommandEvent) (w : World) :
  JSON_parse text = Some payload ->
  structurally_valid payload command ->
  Date_parse_isNaN (requestedAt command) = false ->
  exists (w' : World) (created : Shipment) (reply : FulfillmentReplyEvent),
    eachMessage (Some text) w = (send_outcome w, w') /\
    shipments w' =
      JsMap.set (randomUUID_at (2 + uuids_drawn w)) created (shipments w) /\
    (JsMap.get (randomUUID_at (2 + uuids_drawn w)) (shipments w) = None ->
     shipments w' =
       (shipments w ++ [(randomUUID_at (2 + uuids_drawn w), created)])%list /\
     List.length (shipments w') = S (List.length (shipments w))) /\
    shipmentId created = randomUUID_at (2 + uuids_drawn w) /\
    status created = CREATED /\
    orderId created = c_orderId command /\
    carrier created =
      (if String.eqb (c_carrier command) "" then "ACME_SHIP" else c_carrier command) /\
    produced w' =
      (produced w ++
         [ {| topic := fulfillmentReplyTopic cfg;
              key := c_orderId command;
              value := ReplyJson reply |} ])%list /\
    r_status reply = ACCEPTED /\
    trackingId reply = Some (trackingNumber created) /\
    r_requestId reply = c_requestId command.
Proof.
  intros P V D.
  destruct (structurally_valid_accepted _ _ V) as [Hv Hc].
  rewrite <- Hc in D.
  destruct (eachMessage_accepted text payload w P Hv D) as (w' & E & Hs & Hp).
  rewrite Hc in *.
  exists w', (accepted_shipment command w), (accepted_reply command w).
  repeat split; auto.
  - rewrite Hs. now apply JsMap_set_absent.
  - rewrite Hs, (JsMap_set_absent _ _ _ H), length_app. simpl. lia.
  - simpl. unfold JsString.or_else. now destruct (c_carrier command).
Qed.

(** C3.  A structurally valid command whose [requestedAt] is not a valid
    timestamp: the consumer hands exactly one record to the producer, on
    the reply topic, whose reply has status [REJECTED], rejectionReason
    ["Invalid requestedAt"], the command's requestId and orderId and no
    trackingId; the registry is left as it was. *)
Theorem dispatch_rejected
  (text : string) (payload : JsValue) (command : DispatchCommandEvent) (w : World) :
  JSON_parse text = Some payload ->
  structurally_valid payload command ->
  Date_parse_isNaN (requestedAt command) = true ->
  exists (w' : World) (reply : FulfillmentReplyEvent),
    eachMessage (Some text) w = (send_outcome w, w') /\
    shipments w' = shipments w /\
    produced w' =
      (produced w ++
         [ {| topic := fulfillmentReplyTopic cfg;
              key := c_orderId command;
              value := ReplyJson reply |} ])%list /\
    r_status reply = REJECTED /\
    rejectionReason reply = Some "Invalid requestedAt" /\
    r_requestId reply = c_requestId command /\
    r_orderId reply = c_orderId command /\
    trackingId reply = None.
Proof.
  intros P V D.
  destruct (structurally_valid_accepted _ _ V) as [Hv Hc].
  rewrite <- Hc in D.
  destruct (eachMessage_rejected text payload w P Hv D) as (w' & E & Hs & Hp).
  rewrite Hc in *.
  exists w', (rejected_reply command w).
  repeat split; auto.
Qed.

(** C4.  A message with no value, with a body [JSON.parse] rejects (the
    empty body is one), or with a parsed body that is not a structurally
    valid DispatchCommandEvent is dropped: [eachMessage] returns normally
    and the whole process state (registry, producer log, console) is
    unchanged, so no shipment is created and no reply is sent. *)
Theorem malformed_message_dropped (value : option string) (w : World) :
  value = None \/
  (exists text, value = Some text /\ JSON_parse text = None) \/
  (exists text payload,
      value = Some text /\ JSON_parse text = Some payload /\
      ~ (exists command, structurally_valid payload command)) ->
  eachMessage value w = (Returned tt, w).
Proof.
  intros [-> | [(text & -> & P) | (text & payload & -> & P & N)]];
    apply eachMessage_dropped; simpl; auto.
  - now rewrite P.
  - rewrite P.
    destruct (isDispatchCommandEvent payload) eqn:V; [|reflexivity].
    exfalso. apply N. exists (as_command payload).
    now apply accepted_structurally_valid.
Qed.

(** *** The tracking number of a UUID *)





(** *** POST /shipments *)

(** The body carries an [orderId] and a [destinationPostalCode] that are
    strings and are not empty once trimmed; [o] and [d] are the trimmed
    values. *)
Definition valid_create_body (payload : JsValue) (o d : string) : Prop :=
  exists o' d',
    Js.prop payload "orderId" = JStr o' /\
    Js.prop payload "destinationPostalCode" = JStr d' /\
    o = trim o' /\ d = trim d' /\
    o <> "" /\ d <> "".

(** The record [POST /shipments] creates for the trimmed [orderId]. *)
Definition created_shipment (o : string) (w : World) : Shipment :=
  {| shipmentId := randomUUID_at (uuids_drawn w);
     orderId := o;
     carrier := "ACME_SHIP";
     trackingNumber := makeTrackingNumber (randomUUID_at (uuids_drawn w));
     status := CREATED;
     cancelledAt := None |}.

Lemma truthy_nonempty (s : string) : JsString.truthy s = true <-> s <> "".
Proof. destruct s; simpl; split; congruence. Qed.

Lemma valid_create_body_object (payload : JsValue) (o d : string) :
  valid_create_body payload o d -> exists props, payload = JObj props.
Proof.
  intros (o' & d' & Ho & _). destruct payload; simpl in Ho; try discriminate.
  eauto.
Qed.

Lemma create_shipment_created (payload : JsValue) (o d : string) (w : World) :
  valid_create_body payload o d ->
  exists w',
    create_shipment payload w =
      (Returned (Res 201 (JsonShipment (toShipmentView (created_shipment o w)))), w') /\
    shipments w' =
      JsMap.set (randomUUID_at (uuids_drawn w)) (created_shipment o w) (shipments w).
Proof.
  intros V. destruct (valid_create_body_object _ _ _ V) as (props & ->).
  destruct V as (o' & d' & Ho & Hd & -> & -> & No & Nd).
  apply truthy_nonempty in No, Nd.
  unfold create_shipment, get_prop.
  unfold bind at 1, ret at 1. rewrite Ho. cbv zeta.
  unfold bind at 1, ret at 1. rewrite Hd. cbv zeta.
  cbn [Js.typeof_string Js.as_string].
  rewrite No, Nd. cbn [negb].
  unfold bind at 1, randomUUID.
  unfold bind at 1, shipments_set.
  match goal with
  | |- context [bind (notify ?f) _ ?w0] =>
      destruct (notify_returns f w0) as (w' & E & Hs & _)
  end.
  exists w'. rewrite (bind_returned _ _ _ _ _ E). unfold ret.
  split; [reflexivity | exact Hs].
Qed.

Lemma create_shipment_refused (payload : JsValue) (w : World) :
  ~ (exists o d, valid_create_body payload o d) ->
  (exists message,
      create_shipment payload w = (Returned (Res 400 (JsonError message)), w)) \/
  (exists e, create_shipment payload w = (Thrown e, w)).
Proof.
  intros N. unfold create_shipment, get_prop.
  destruct payload as [ | |b|n|s|items|props];
    try (right; eexists; reflexivity);
    try (left; eexists; reflexivity).
  unfold bind at 1, ret at 1.
  destruct (Js.prop (JObj props) "orderId") as [ | |b|n|o'|items|ps] eqn:Ho;
    try (left; eexists; reflexivity).
  cbv zeta. cbn [Js.typeof_string Js.as_string].
  unfold bind at 1, ret at 1. cbv zeta.
  destruct (JsString.truthy (trim o')) eqn:To;
    [|left; eexists; reflexivity].
  cbn [negb].
  destruct (Js.prop (JObj props) "destinationPostalCode")
    as [ | |b|n|d'|items|ps] eqn:Hd;
    try (left; eexists; reflexivity).
  cbn [Js.typeof_string Js.as_string].
  destruct (JsString.truthy (trim d')) eqn:Td;
    [|left; eexists; reflexivity].
  exfalso. apply N. exists (trim o'), (trim d'), o', d'.
  repeat split; auto; now apply truthy_nonempty.
Qed.


(** *** GET /shipments *)

(** The filter in effect: a query string that is not empty. *)
Definition effective_filter (q : QueryParam) : option string :=
  match q with
  | QString s => if JsString.truthy s then Some s else None
  | _ => None
  end.

(** The placeholder synthesized when the registry is empty. *)
Definition placeholder (q : QueryParam) (w : World) : Shipment :=
  {| shipmentId := randomUUID_at (uuids_drawn w);
     orderId :=
       match effective_filter q with
       | Some wanted => wanted
       | None => "order-default"
       end;
     carrier := "ACME_SHIP";
     trackingNumber := makeTrackingNumber (randomUUID_at (1 + uuids_drawn w));
     status := IN_TRANSIT;
     cancelledAt := None |}.

(** C5, as amended.  [GET /shipments] answers 200.  When the registry is
    not empty the body is the views of the stored records in insertion
    order, restricted to the records of the wanted orderId when a
    non-empty [orderId] filter is supplied.  When the registry is empty
    the body is a single synthesized placeholder, whether or not a filter
    is supplied: its orderId is the filter, or ["order-default"] without
    one.  The registry itself is never changed, and [set] keeps the
    registry in insertion order. *)
Theorem list_shipments_spec (q : QueryParam) (w : World) :
  (shipments w <> [] ->
   get_shipments q w =
     (Returned
        (Res 200
           (JsonShipments
              (map toShipmentView
                 match effective_filter q with
                 | Some wanted =>
                     filter (has_orderId wanted) (JsMap.values (shipments w))
                 | None => JsMap.values (shipments w)
                 end))),
      w)) /\
  (shipments w = [] ->
   get_shipments q w =
     (Returned (Res 200 (JsonShipments [placeholder q w])),
      with_uuids_drawn (2 + uuids_drawn w) w)) /\
  shipments (snd (get_shipments q w)) = shipments w /\
  (forall k v m,
      JsMap.keys (JsMap.set k v m) =
        match JsMap.get k m with
        | Some _ => JsMap.keys m
        | None => (JsMap.keys m ++ [k])%list
        end).
Proof.
  assert (NE : shipments w <> [] ->
               get_shipments q w =
                 (Returned
                    (Res 200
                       (JsonShipments
                          (map toShipmentView
                             match effective_filter q with
                             | Some wanted =>
                                 filter (has_orderId wanted)
                                   (JsMap.values (shipments w))
                             | None => JsMap.values (shipments w)
                             end))),
                  w)).
  { intros N. unfold get_shipments, shipments_values, effective_filter.
    unfold bind at 1.
    destruct (shipments w) as [|[k0 v0] m] eqn:S0; [congruence|].
    cbn [JsMap.values map List.length Nat.eqb].
    unfold bind, ret.
    destruct q as [|s|]; try reflexivity.
    destruct (JsString.truthy s); reflexivity. }
  assert (EM : shipments w = [] ->
               get_shipments q w =
                 (Returned (Res 200 (JsonShipments [placeholder q w])),
                  with_uuids_drawn (2 + uuids_drawn w) w)).
  { intros E. unfold get_shipments, shipments_values, placeholder, effective_filter.
    unfold bind at 1. rewrite E.
    cbn [JsMap.values map List.length Nat.eqb].
    unfold bind, ret, randomUUID. cbn [uuids_drawn with_uuids_drawn].
    destruct q as [|s|]; try reflexivity.
    destruct s as [|c s]; [reflexivity|].
    cbn [opt_or_else JsString.or_else JsString.truthy filter].
    unfold has_orderId. cbn [orderId].
    rewrite String.eqb_refl. reflexivity. }
  split; [exact NE|]. split; [exact EM|]. split.
  - destruct (shipments w) as [|p m] eqn:S0.
    + rewrite (EM eq_refl). simpl. now rewrite S0.
    + rewrite NE by congruence. simpl. now rewrite S0.
  - intros k v m. destruct (JsMap.get k m) eqn:G.
    + apply JsMap_set_present_keys. congruence.
    + rewrite (JsMap_set_absent _ _ _ G). unfold JsMap.keys.
      now rewrite map_app.
Qed.

(** *** The notification publisher *)











(** *** What a request can do to the registry *)

Lemma valid_create_body_dec (payload : JsValue) :
  (exists o d, valid_create_body payload o d) \/
  ~ (exists o d, valid_create_body payload o d).
Proof.
  unfold valid_create_body.
  destruct (Js.prop payload "orderId") as [ | |b|n|o'|items|ps] eqn:Ho;
    try (right; intros (o & d & o1 & d1 & H1 & _); discriminate H1).
  destruct (Js.prop payload "destinationPostalCode")
    as [ | |b|n|d'|items|ps] eqn:Hd;
    try (right; intros (o & d & o1 & d1 & _ & H2 & _); discriminate H2).
  destruct (string_dec (trim o') "") as [Eo|No].
  { right. intros (o & d & o1 & d1 & H1 & H2 & -> & -> & N1 & N2).
    inversion H1; subst. contradiction. }
  destruct (string_dec (trim d') "") as [Ed|Nd].
  { right. intros (o & d & o1 & d1 & H1 & H2 & -> & -> & N1 & N2).
    inversion H2; subst. contradiction. }
  left. exists (trim o'), (trim d'), o', d'. auto 10.
Qed.

(** The three ways a request leaves the registry: as it was, with one
    record set under an identifier drawn during the request, or with the
    cancelled copy set under the cancelled id. *)
Definition registry_step (w w' : World) : Prop :=
  shipments w' = shipments w \/
  (exists n rec,
      uuids_drawn w <= n /\
      shipments w' = JsMap.set (randomUUID_at n) rec (shipments w)) \/
  (exists id,
      shipments w' = JsMap.set id (cancelled_record id w) (shipments w)).

Lemma create_shipment_registry (payload : JsValue) (w : World) :
  registry_step w (snd (create_shipment payload w)).
Proof.
  destruct (valid_create_body_dec payload) as [(o & d & V) | N].
  - destruct (create_shipment_created payload o d w V) as (w' & E & Hs).
    rewrite E. right. left. exists (uuids_drawn w), (created_shipment o w). auto.
  - destruct (create_shipment_refused payload w N) as [(m & E) | (e & E)];
      rewrite E; left; reflexivity.
Qed.

Lemma snd_try_catch_ret {A} (m : M A) (h : JsError -> A) (w : World) :
  snd (try_catch m (fun e => ret (h e)) w) = snd (m w).
Proof. unfold try_catch, ret. destruct (m w) as [[a|e] w']; reflexivity. Qed.

Lemma snd_bind_ret {A B} (m : M A) (f : A -> B) (w : World) :
  snd (bind m (fun a => ret (f a)) w) = snd (m w).
Proof. unfold bind, ret. destruct (m w) as [[a|e] w']; reflexivity. Qed.

Lemma get_shipments_registry (q : QueryParam) (w : World) :
  shipments (snd (get_shipments q w)) = shipments w.
Proof.
  unfold get_shipments, shipments_values. unfold bind at 1.
  destruct (JsMap.values (shipments w)); simpl;
    unfold bind, ret, randomUUID; reflexivity.
Qed.

Lemma handle_registry (r : Request) (w : World) :
  registry_step w (snd (handle r w)).
Proof.
  destruct r as [req_body|raw|param|q|param| |value|i ev]; unfold handle.
  - rewrite snd_bind_ret. unfold post_shipments. rewrite snd_try_catch_ret.
    apply create_shipment_registry.
  - rewrite snd_bind_ret. unfold post_shipments_raw. rewrite snd_try_catch_ret.
    unfold parseBody.
    destruct (1024 * 1024 <? Z.of_nat (String.length raw))%Z;
      [left; reflexivity|].
    destruct (negb (JsString.truthy raw)).
    + unfold bind at 1, ret at 1. apply create_shipment_registry.
    + destruct (JSON_parse raw) as [v|]; [|left; reflexivity].
      unfold bind at 1, ret at 1. apply create_shipment_registry.
  - rewrite snd_bind_ret. left. unfold get_shipment, decode_param.
    destruct (decodeURIComponent param); reflexivity.
  - rewrite snd_bind_ret. left. apply get_shipments_registry.
  - rewrite snd_bind_ret.
    destruct (decodeURIComponent param) as [id|] eqn:D.
    + destruct (post_cancel_run param id w D) as (w' & E & Hs & _).
      rewrite E. right. right. exists id. exact Hs.
    + left. unfold post_cancel, decode_param. rewrite D. reflexivity.
  - left. reflexivity.
  - rewrite snd_bind_ret.
    destruct value as [text|]; [|left; reflexivity].
    destruct (JSON_parse text) as [payload|] eqn:P;
      [|left; unfold eachMessage; rewrite P; reflexivity].
    destruct (isDispatchCommandEvent payload) eqn:V;
      [|left; unfold eachMessage; rewrite P, V; reflexivity].
    destruct (Date_parse_isNaN (requestedAt (as_command payload))) eqn:D.
    + destruct (eachMessage_rejected text payload w P V D) as (w' & E & Hs & _).
      rewrite E. left. exact Hs.
    + destruct (eachMessage_accepted text payload w P V D) as (w' & E & Hs & _).
      rewrite E. right. left.
      exists (2 + uuids_drawn w), (accepted_shipment (as_command payload) w).
      split; [lia | exact Hs].
  - rewrite snd_bind_ret. left. unfold mqtt_delivery.
    destruct (update_client i ev (clients w)); reflexivity.
Qed.

(** The claim C1 as the specification words it, for one request: whatever
    record the request stores under an identifier it had not stored
    before, that record's trackingNumber is derived from its
    shipmentId. *)
Definition tracking_derived_from_id (r : Request) (w : World) : Prop :=
  forall k rec,
    JsMap.get k (shipments w) = None ->
    JsMap.get k (shipments (snd (handle r w))) = Some rec ->
    trackingNumber rec = makeTrackingNumber (shipmentId rec).

(** C1, as amended.  A record created by [POST /shipments] has
    trackingNumber [makeTrackingNumber shipmentId].  A record created by
    an accepted dispatch command has the trackingNumber sent as the
    reply's trackingId, which is derived from a UUID drawn for the reply
    and not from the record's shipmentId (drawn afterwards).  No request
    changes the trackingNumber or the shipmentId of a stored record, as
    long as [randomUUID] does not return that record's key again. *)
Theorem tracking_number_provenance :
  (forall req_body o d w,
      valid_create_body req_body o d ->
      exists rec,
        JsMap.get (randomUUID_at (uuids_drawn w))
          (shipments (snd (post_shipments req_body w))) = Some rec /\
        shipmentId rec = randomUUID_at (uuids_drawn w) /\
        trackingNumber rec = makeTrackingNumber (shipmentId rec)) /\
  (forall text payload command w,
      JSON_parse text = Some payload ->
      structurally_valid payload command ->
      Date_parse_isNaN (requestedAt command) = false ->
      exists rec w',
        w' = snd (eachMessage (Some text) w) /\
        JsMap.get (randomUUID_at (2 + uuids_drawn w)) (shipments w') = Some rec /\
        shipmentId rec = randomUUID_at (2 + uuids_drawn w) /\
        trackingNumber rec = makeTrackingNumber (randomUUID_at (1 + uuids_drawn w)) /\
        produced w' =
          (produced w ++
             [ {| topic := fulfillmentReplyTopic cfg;
                  key := c_orderId command;
                  value := ReplyJson (accepted_reply command w) |} ])%list /\
        trackingId (accepted_reply command w) = Some (trackingNumber rec)) /\
  (forall r w k rec,
      JsMap.get k (shipments w) = Some rec ->
      (forall n, uuids_drawn w <= n -> randomUUID_at n <> k) ->
      exists rec',
        JsMap.get k (shipments (snd (handle r w))) = Some rec' /\
        trackingNumber rec' = trackingNumber rec /\
        shipmentId rec' = shipmentId rec).
Proof.
  split; [|split].
  - intros req_body o d w V.
    destruct (valid_create_body_object _ _ _ V) as (props & ->).
    destruct (create_shipment_created _ o d w V) as (w' & E & Hs).
    exists (created_shipment o w).
    unfold post_shipments. rewrite snd_try_catch_ret. simpl Js.truthy. cbv iota.
    rewrite E. simpl snd. rewrite Hs.
    split; [apply JsMap_get_set_same | split; reflexivity].
  - intros text payload command w P V D.
    destruct (structurally_valid_accepted _ _ V) as [Hv Hc].
    rewrite <- Hc in D.
    destruct (eachMessage_accepted text payload w P Hv D) as (w' & E & Hs & Hp).
    rewrite Hc in *.
    exists (accepted_shipment command w), w'.
    rewrite E, Hs. simpl snd.
    repeat split; auto. apply JsMap_get_set_same.
  - intros r w k rec G Fresh.
    destruct (handle_registry r w) as [H | [(n & rec0 & Hn & H) | (id & H)]];
      rewrite H.
    + eauto.
    + rewrite JsMap_get_set_other by (apply Fresh; exact Hn). eauto.
    + destruct (string_dec id k) as [->|Ne].
      * rewrite JsMap_get_set_same. eexists; split; [reflexivity|].
        unfold cancelled_record. rewrite G. split; reflexivity.
      * rewrite JsMap_get_set_other by exact Ne. eauto.
Qed.

(* ===================================================================== *)
(** ** Further properties of the service *)
(* ===================================================================== *)

(** *** What no request undoes *)

(** [w'] extends [w]: the oracles have only advanced, the producer log and
    the console have only been appended to, no MQTT client has been dropped,
    and the registry has its old keys in their old order, followed by the
    new ones. *)
Definition extends (w w' : World) : Prop :=
  uuids_drawn w <= uuids_drawn w' /\
  clock_reads w <= clock_reads w' /\
  (exists more, produced w' = (produced w ++ more)%list) /\
  (exists more, console w' = (console w ++ more)%list) /\
  List.length (clients w) <= List.length (clients w') /\
  (exists more,
      JsMap.keys (shipments w') = (JsMap.keys (shipments w) ++ more)%list).

Lemma extends_refl (w : World) : extends w w.
Proof.
  unfold extends. repeat split; auto; exists []; now rewrite app_nil_r.
Qed.

Lemma extends_trans (a b c : World) : extends a b -> extends b c -> extends a c.
Proof.
  intros (U1 & C1 & (p1 & P1) & (l1 & L1) & N1 & (k1 & K1))
         (U2 & C2 & (p2 & P2) & (l2 & L2) & N2 & (k2 & K2)).
  unfold extends. repeat split; try lia.
  - exists (p1 ++ p2)%list. now rewrite P2, P1, app_assoc.
  - exists (l1 ++ l2)%list. now rewrite L2, L1, app_assoc.
  - exists (k1 ++ k2)%list. now rewrite K2, K1, app_assoc.
Qed.

(** A computation that only extends the state, however it ends. *)
Definition extending {A} (m : M A) : Prop := forall w, extends w (snd (m w)).

Lemma extending_ret {A} (a : A) : extending (ret a).
Proof. intros w. apply extends_refl. Qed.

Lemma extending_throw {A} (e : JsError) : extending (@throw A e).
Proof. intros w. apply extends_refl. Qed.

Lemma extending_bind {A B} (m : M A) (k : A -> M B) :
  extending m -> (forall a, extending (k a)) -> extending (bind m k).
Proof.
  intros Hm Hk w. unfold bind. specialize (Hm w).
  destruct (m w) as [[a|e] w1]; simpl in *; [|exact Hm].
  eapply extends_trans; [exact Hm | apply Hk].
Qed.

Lemma extending_try_catch {A} (m : M A) (h : JsError -> M A) :
  extending m -> (forall e, extending (h e)) -> extending (try_catch m h).
Proof.
  intros Hm Hh w. unfold try_catch. specialize (Hm w).
  destruct (m w) as [[a|e] w1]; simpl in *; [exact Hm|].
  eapply extends_trans; [exact Hm | apply Hh].
Qed.

Lemma extending_randomUUID : extending randomUUID.
Proof.
  intros w. unfold extends, randomUUID. simpl.
  repeat split; auto; exists []; now rewrite app_nil_r.
Qed.

Lemma extending_now : extending now_toISOString.
Proof.
  intros w. unfold extends, now_toISOString. simpl.
  repeat split; auto; exists []; now rewrite app_nil_r.
Qed.

Lemma extending_producer_send (record : ProducerRecord) :
  extending (producer_send record).
Proof.
  intros w. unfold extends, producer_send. simpl.
  repeat split; auto; try (exists []; now rewrite app_nil_r).
  now exists [record].
Qed.

Lemma extending_console_error (line : string) : extending (console_error line).
Proof.
  intros w. unfold extends, console_error. simpl.
  repeat split; auto; try (exists []; now rewrite app_nil_r).
  now exists [line].
Qed.

Lemma extending_shipments_set (k : string) (v : Shipment) :
  extending (shipments_set k v).
Proof.
  intros w. unfold extends, shipments_set. simpl.
  repeat split; auto; try (exists []; now rewrite app_nil_r).
  destruct (JsMap.get k (shipments w)) eqn:G.
  - exists []. rewrite app_nil_r. apply JsMap_set_present_keys. congruence.
  - exists [k]. rewrite (JsMap_set_absent _ _ _ G). unfold JsMap.keys.
    now rewrite map_app.
Qed.

Lemma extending_shipments_get (k : string) : extending (shipments_get k).
Proof. intros w. apply extends_refl. Qed.

Lemma extending_shipments_values : extending shipments_values.
Proof. intros w. apply extends_refl. Qed.

Lemma extending_get_prop (v : JsValue) (k : string) : extending (get_prop v k).
Proof. intros w. unfold get_prop. destruct v; apply extends_refl. Qed.

Lemma extending_decode_param (param : string) : extending (decode_param param).
Proof.
  intros w. unfold decode_param.
  destruct (decodeURIComponent param); apply extends_refl.
Qed.

Lemma extending_publish_mqtt (event : AnalyticsNotificationEvent) :
  extending (publish_mqtt event).
Proof.
  intros w. unfold extends, publish_mqtt. simpl.
  repeat split; auto; try (exists []; now rewrite app_nil_r).
  rewrite length_app. simpl. lia.
Qed.

Lemma update_client_length (i : nat) (ev : MqttEvent) (cs : list MqttClient) :
  List.length (fst (update_client i ev cs)) = List.length cs.
Proof.
  revert cs. induction i as [|j IH]; intros [|c cs]; simpl; try reflexivity.
  - destruct (Mqtt.step (analyticsMqttUrl cfg) c ev). reflexivity.
  - specialize (IH cs). destruct (update_client j ev cs). simpl in *. now rewrite IH.
Qed.

Lemma extending_mqtt_delivery (i : nat) (ev : MqttEvent) :
  extending (mqtt_delivery i ev).
Proof.
  intros w. unfold extends, mqtt_delivery.
  pose proof (update_client_length i ev (clients w)) as L.
  destruct (update_client i ev (clients w)) as [cs lines]. simpl in *.
  repeat split; auto; try (exists []; now rewrite app_nil_r).
  - now exists lines.
  - lia.
Qed.

Create HintDb extending.

#[local] Hint Resolve extending_ret extending_throw extending_randomUUID
  extending_now extending_producer_send extending_console_error
  extending_shipments_set extending_shipments_get extending_shipments_values
  extending_get_prop extending_decode_param extending_publish_mqtt
  extending_mqtt_delivery : extending.

(** Goes through a handler statement by statement. *)
Ltac extending_steps :=
  repeat first
    [ progress auto with extending
    | apply extending_bind; [|intros ?]
    | apply extending_try_catch; [|intros ?]
    | match goal with
      | |- extending (if ?b then _ else _) => destruct b
      | |- extending (match ?x with _ => _ end) => destruct x
      | |- extending (let _ := _ in _) => cbv zeta
      end ].

Lemma extending_publish (event : AnalyticsNotificationEvent) :
  extending (publishAnalyticsNotification event).
Proof. unfold publishAnalyticsNotification, publish_kafka. extending_steps. Qed.

Lemma extending_notify (event_with : string -> AnalyticsNotificationEvent) :
  extending (notify event_with).
Proof.
  unfold notify.
  destruct (notifier cfg); extending_steps; apply extending_publish.
Qed.

Lemma extending_create_shipment (payload : JsValue) :
  extending (create_shipment payload).
Proof. unfold create_shipment. extending_steps; apply extending_notify. Qed.

Lemma extending_eachMessage (value : option string) : extending (eachMessage value).
Proof.
  unfold eachMessage, buildFulfillmentReply, await_send. extending_steps.
Qed.

#[local] Hint Resolve extending_publish extending_notify
  extending_create_shipment extending_eachMessage : extending.

Lemma extending_handle (r : Request) : extending (handle r).
Proof.
  destruct r; unfold handle, post_shipments, post_shipments_raw, parseBody,
    get_shipment, get_shipments, post_cancel, not_found; extending_steps.
Qed.

(** The state after a sequence of requests, each run to its end (a
    response, or an error handed to the framework). *)
Fixpoint serve_all (rs : list Request) (w : World) : World :=
  match rs with
  | [] => w
  | r :: rest => serve_all rest (snd (handle r w))
  end.

(** X1.  Nothing is undone: over any sequence of requests the producer log
    and the console are only appended to, the registry keeps its keys in
    insertion order with new keys at the end (no record is ever deleted or
    moved), no MQTT client is dropped, and the [randomUUID] and clock
    oracles only advance. *)
Theorem requests_only_extend (rs : list Request) (w : World) :
  extends w (serve_all rs w).
Proof.
  revert w. induction rs as [|r rs IH]; intros w; simpl.
  - apply extends_refl.
  - eapply extends_trans; [apply extending_handle | apply IH].
Qed.

(** *** The client of one publish *)

(** A computation that leaves the MQTT clients it finds as they are and can
    only open new ones after them. *)
Definition opening {A} (m : M A) : Prop :=
  forall w, exists more, clients (snd (m w)) = (clients w ++ more)%list.

Lemma opening_same {A} (m : M A) :
  (forall w, clients (snd (m w)) = clients w) -> opening m.
Proof. intros H w. exists []. now rewrite app_nil_r. Qed.

Lemma opening_ret {A} (a : A) : opening (ret a).
Proof. now apply opening_same. Qed.

Lemma opening_throw {A} (e : JsError) : opening (@throw A e).
Proof. now apply opening_same. Qed.

Lemma opening_bind {A B} (m : M A) (k : A -> M B) :
  opening m -> (forall a, opening (k a)) -> opening (bind m k).
Proof.
  intros Hm Hk w. unfold bind. specialize (Hm w).
  destruct (m w) as [[a|e] w1]; simpl in *; [|exact Hm].
  destruct Hm as (more1 & E1). destruct (Hk a w1) as (more2 & E2).
  exists (more1 ++ more2)%list. now rewrite E2, E1, app_assoc.
Qed.

Lemma opening_try_catch {A} (m : M A) (h : JsError -> M A) :
  opening m -> (forall e, opening (h e)) -> opening (try_catch m h).
Proof.
  intros Hm Hh w. unfold try_catch. specialize (Hm w).
  destruct (m w) as [[a|e] w1]; simpl in *; [exact Hm|].
  destruct Hm as (more1 & E1). destruct (Hh e w1) as (more2 & E2).
  exists (more1 ++ more2)%list. now rewrite E2, E1, app_assoc.
Qed.

Lemma opening_randomUUID : opening randomUUID.
Proof. now apply opening_same. Qed.

Lemma opening_now : opening now_toISOString.
Proof. now apply opening_same. Qed.

Lemma opening_producer_send (record : ProducerRecord) : opening (producer_send record).
Proof. now apply opening_same. Qed.

Lemma opening_console_error (line : string) : opening (console_error line).
Proof. now apply opening_same. Qed.

Lemma opening_shipments_set (k : string) (v : Shipment) : opening (shipments_set k v).
Proof. now apply opening_same. Qed.

Lemma opening_shipments_get (k : string) : opening (shipments_get k).
Proof. now apply opening_same. Qed.

Lemma opening_shipments_values : opening shipments_values.
Proof. now apply opening_same. Qed.

Lemma opening_get_prop (v : JsValue) (k : string) : opening (get_prop v k).
Proof. apply opening_same. intros w. unfold get_prop. now destruct v. Qed.

Lemma opening_decode_param (param : string) : opening (decode_param param).
Proof.
  apply opening_same. intros w. unfold decode_param.
  now destruct (decodeURIComponent param).
Qed.

Lemma opening_publish_mqtt (event : AnalyticsNotificationEvent) :
  opening (publish_mqtt event).
Proof.
  intros w. exists [Mqtt.opened (analyticsNotificationTopic cfg) event]. reflexivity.
Qed.

Create HintDb opening.

#[local] Hint Resolve opening_ret opening_throw opening_randomUUID
  opening_now opening_producer_send opening_console_error
  opening_shipments_set opening_shipments_get opening_shipments_values
  opening_get_prop opening_decode_param opening_publish_mqtt : opening.

Ltac opening_steps :=
  repeat first
    [ progress auto with opening
    | apply opening_bind; [|intros ?]
    | apply opening_try_catch; [|intros ?]
    | match goal with
      | |- opening (if ?b then _ else _) => destruct b
      | |- opening (match ?x with _ => _ end) => destruct x
      | |- opening (let _ := _ in _) => cbv zeta
      end ].

Lemma opening_publish (event : AnalyticsNotificationEvent) :
  opening (publishAnalyticsNotification event).
Proof. unfold publishAnalyticsNotification, publish_kafka. opening_steps. Qed.

Lemma opening_notify (event_with : string -> AnalyticsNotificationEvent) :
  opening (notify event_with).
Proof.
  unfold notify.
  destruct (notifier cfg); opening_steps; apply opening_publish.
Qed.

Lemma opening_create_shipment (payload : JsValue) :
  opening (create_shipment payload).
Proof. unfold create_shipment. opening_steps; apply opening_notify. Qed.

Lemma opening_eachMessage (value : option string) : opening (eachMessage value).
Proof.
  unfold eachMessage, buildFulfillmentReply, await_send. opening_steps.
Qed.

#[local] Hint Resolve opening_publish opening_notify
  opening_create_shipment opening_eachMessage : opening.





Lemma serve_all_app (a b : list Request) (w : World) :
  serve_all (a ++ b) w = serve_all b (serve_all a w).
Proof. revert w. induction a as [|r a IH]; intros w; simpl; auto. Qed.



(** *** What a request writes to the registry *)

(** The registry after a request: as before, or with exactly one of the
    three records the code builds set under its key. *)
Inductive registry_change (w : World) : JsMap.t -> Prop :=
| unchanged_registry :
    registry_change w (shipments w)
| created_by_post (o : string) :
    o <> "" ->
    registry_change w
      (JsMap.set (randomUUID_at (uuids_drawn w)) (created_shipment o w) (shipments w))
| created_by_dispatch (command : DispatchCommandEvent) :
    registry_change w
      (JsMap.set (randomUUID_at (2 + uuids_drawn w))
         (accepted_shipment command w) (shipments w))
| cancelled_by_post (id : string) :
    registry_change w (JsMap.set id (cancelled_record id w) (shipments w)).

Lemma create_shipment_change (payload : JsValue) (w : World) :
  registry_change w (shipments (snd (create_shipment payload w))).
Proof.
  destruct (valid_create_body_dec payload) as [(o & d & V) | N].
  - destruct (create_shipment_created payload o d w V) as (w' & E & Hs).
    rewrite E. simpl. rewrite Hs. apply created_by_post.
    destruct V as (o' & d' & _ & _ & _ & _ & No & _). exact No.
  - destruct (create_shipment_refused payload w N) as [(m & E) | (e & E)];
      rewrite E; apply unchanged_registry.
Qed.

Lemma handle_change (r : Request) (w : World) :
  registry_change w (shipments (snd (handle r w))).
Proof.
  destruct r as [req_body|raw|param|q|param| |value|i ev]; unfold handle.
  - rewrite snd_bind_ret. unfold post_shipments. rewrite snd_try_catch_ret.
    apply create_shipment_change.
  - rewrite snd_bind_ret. unfold post_shipments_raw. rewrite snd_try_catch_ret.
    unfold parseBody.
    destruct (1024 * 1024 <? Z.of_nat (String.length raw))%Z;
      [apply unchanged_registry|].
    destruct (negb (JsString.truthy raw)).
    + unfold bind at 1, ret at 1. apply create_shipment_change.
    + destruct (JSON_parse raw) as [v|]; [|apply unchanged_registry].
      unfold bind at 1, ret at 1. apply create_shipment_change.
  - rewrite snd_bind_ret. unfold get_shipment, decode_param.
    destruct (decodeURIComponent param); apply unchanged_registry.
  - rewrite snd_bind_ret, get_shipments_registry. apply unchanged_registry.
  - rewrite snd_bind_ret.
    destruct (decodeURIComponent param) as [id|] eqn:D.
    + destruct (post_cancel_run param id w D) as (w' & E & Hs & _).
      rewrite E. simpl. rewrite Hs. apply cancelled_by_post.
    + unfold post_cancel, decode_param. rewrite D. apply unchanged_registry.
  - apply unchanged_registry.
  - rewrite snd_bind_ret.
    destruct value as [text|]; [|apply unchanged_registry].
    destruct (JSON_parse text) as [payload|] eqn:P;
      [|unfold eachMessage; rewrite P; apply unchanged_registry].
    destruct (isDispatchCommandEvent payload) eqn:V;
      [|unfold eachMessage; rewrite P, V; apply unchanged_registry].
    destruct (Date_parse_isNaN (requestedAt (as_command payload))) eqn:D.
    + destruct (eachMessage_rejected text payload w P V D) as (w' & E & Hs & _).
      rewrite E. simpl. rewrite Hs. apply unchanged_registry.
    + destruct (eachMessage_accepted text payload w P V D) as (w' & E & Hs & _).
      rewrite E. simpl. rewrite Hs. apply created_by_dispatch.
  - rewrite snd_bind_ret. unfold mqtt_delivery.
    destruct (update_client i ev (clients w)); simpl; apply unchanged_registry.
Qed.

(** *** The shape of the stored records *)

(** A well-formed entry: the record is stored under its own shipmentId; it
    is [CREATED] and never cancelled, or [CANCELLED] with its stamp; its
    carrier is not empty; its trackingNumber starts with [TRK-]. *)
Definition entry_ok (entry : string * Shipment) : Prop :=
  shipmentId (snd entry) = fst entry /\
  (status (snd entry) = CREATED /\ cancelledAt (snd entry) = None \/
   status (snd entry) = CANCELLED /\ exists stamp, cancelledAt (snd entry) = Some stamp) /\
  carrier (snd entry) <> "" /\
  exists rest, trackingNumber (snd entry) = "TRK-" ++ rest.

Definition registry_ok (m : JsMap.t) : Prop :=
  NoDup (JsMap.keys m) /\ Forall entry_ok m.

Lemma JsMap_get_In (k : string) (v : Shipment) (m : JsMap.t) :
  JsMap.get k m = Some v -> In (k, v) m.
Proof.
  induction m as [|[k' v'] m IH]; simpl; [discriminate|].
  destruct (String.eqb_spec k k') as [->|Ne]; intros H.
  - inversion H. now left.
  - right. auto.
Qed.

Lemma JsMap_get_None_keys (k : string) (m : JsMap.t) :
  JsMap.get k m = None -> ~ In k (JsMap.keys m).
Proof.
  unfold JsMap.keys. induction m as [|[k' v'] m IH]; simpl; [tauto|].
  destruct (String.eqb_spec k k') as [->|Ne]; [discriminate|].
  intros H [E|I]; [congruence | now apply IH].
Qed.

Lemma JsMap_set_Forall (P : string * Shipment -> Prop)
      (k : string) (v : Shipment) (m : JsMap.t) :
  Forall P m -> P (k, v) -> Forall P (JsMap.set k v m).
Proof.
  intros F Pk. induction m as [|[k' v'] m IH]; simpl.
  - constructor; auto.
  - inversion F; subst.
    destruct (String.eqb_spec k k') as [->|Ne]; constructor; auto.
Qed.

Lemma JsMap_set_NoDup (k : string) (v : Shipment) (m : JsMap.t) :
  NoDup (JsMap.keys m) -> NoDup (JsMap.keys (JsMap.set k v m)).
Proof.
  intros N. destruct (JsMap.get k m) eqn:G.
  - rewrite JsMap_set_present_keys by congruence. exact N.
  - rewrite (JsMap_set_absent _ _ _ G). unfold JsMap.keys. rewrite map_app.
    simpl. apply NoDup_app; [exact N | repeat constructor; simpl; tauto |].
    intros x Hx [<-|[]]. now apply (JsMap_get_None_keys _ _ G).
Qed.

Lemma registry_change_ok (w : World) (m : JsMap.t) :
  registry_ok (shipments w) -> registry_change w m -> registry_ok m.
Proof.
  intros [N F] C. destruct C as [ |o No|command|id]; [split; assumption| | | ];
    (split; [now apply JsMap_set_NoDup | apply JsMap_set_Forall; [exact F|]]).
  - unfold entry_ok, created_shipment; simpl.
    repeat split; auto; try discriminate. eexists; reflexivity.
  - unfold entry_ok, accepted_shipment; simpl.
    repeat split; auto.
    + unfold JsString.or_else. destruct (c_carrier command); discriminate.
    + eexists; reflexivity.
  - unfold entry_ok, cancelled_record. simpl.
    destruct (JsMap.get id (shipments w)) as [s|] eqn:G.
    + apply JsMap_get_In in G.
      rewrite Forall_forall in F. destruct (F _ G) as (I & _ & Cr & T).
      simpl in *. repeat split; auto. right. split; eauto.
    + simpl. repeat split; auto; try discriminate.
      * right. split; eauto.
      * eexists; reflexivity.
Qed.

(** X2.  The registry stays well formed over any sequence of requests: no
    key occurs twice, every record is stored under its own shipmentId, a
    stored record is either [CREATED] without [cancelledAt] or [CANCELLED]
    with it (the statuses [IN_TRANSIT], [DELIVERED] and [DELAYED] are never
    stored), its carrier is not empty and its trackingNumber starts with
    [TRK-]. *)
Theorem registry_stays_well_formed (rs : list Request) (w : World) :
  registry_ok (shipments w) -> registry_ok (shipments (serve_all rs w)).
Proof.
  revert w. induction rs as [|r rs IH]; intros w Ok; simpl; [exact Ok|].
  apply IH. eapply registry_change_ok; [exact Ok | apply handle_change].
Qed.

(** X3.  A stored record is never rewritten except by its cancellation:
    over any sequence of requests, and as long as [randomUUID] does not
    return the record's key again, the record stays in the registry with
    the same shipmentId, orderId, carrier and trackingNumber, and either is
    untouched or has status [CANCELLED]; a [CANCELLED] record stays
    [CANCELLED]. *)
Theorem stored_record_only_cancelled
  (rs : list Request) (w : World) (k : string) (rec : Shipment) :
  JsMap.get k (shipments w) = Some rec ->
  (forall n, uuids_drawn w <= n -> randomUUID_at n <> k) ->
  exists rec',
    JsMap.get k (shipments (serve_all rs w)) = Some rec' /\
    shipmentId rec' = shipmentId rec /\
    orderId rec' = orderId rec /\
    carrier rec' = carrier rec /\
    trackingNumber rec' = trackingNumber rec /\
    (rec' = rec \/ status rec' = CANCELLED) /\
    (status rec = CANCELLED -> status rec' = CANCELLED).
Proof.
  revert w rec. induction rs as [|r rs IH]; intros w rec G Fresh; simpl.
  - exists rec. repeat split; auto.
  - assert (Step : exists rec1,
               JsMap.get k (shipments (snd (handle r w))) = Some rec1 /\
               (rec1 = rec \/
                rec1 = cancelled_copy rec (toISOString_at (clock_reads w)))).
    { destruct (handle_change r w) as [ |o No|command|id].
      - eauto.
      - rewrite JsMap_get_set_other by (apply Fresh; lia). eauto.
      - rewrite JsMap_get_set_other by (apply Fresh; lia). eauto.
      - destruct (string_dec id k) as [->|Ne].
        + rewrite JsMap_get_set_same. eexists; split; [reflexivity|].
          right. unfold cancelled_record. now rewrite G.
        + rewrite JsMap_get_set_other by exact Ne. eauto. }
    destruct Step as (rec1 & G1 & Rel).
    assert (Fresh1 : forall n,
               uuids_drawn (snd (handle r w)) <= n -> randomUUID_at n <> k).
    { intros n Hn. apply Fresh.
      pose proof (extending_handle r w) as (U & _). lia. }
    destruct (IH _ rec1 G1 Fresh1) as (rec' & G' & I & O & C & T & S1 & S2).
    exists rec'. split; [exact G'|].
    destruct Rel as [-> | ->]; simpl in *.
    + repeat split; auto.
    + pose proof (S2 eq_refl) as S3. repeat split; auto.
Qed.

(** *** The read routes, and how they compose with the write routes *)

Lemma toShipmentView_idempotent (s : Shipment) :
  toShipmentView (toShipmentView s) = toShipmentView s.
Proof. reflexivity. Qed.

Lemma get_shipment_run (param id : string) (w : World) :
  decodeURIComponent param = Some id ->
  get_shipment param w =
    (Returned
       (Res 200
          (JsonShipment
             (toShipmentView
                match JsMap.get id (shipments w) with
                | Some s => s
                | None => buildDefaultShipment id
                end))),
     w).
Proof.
  intros D. unfold get_shipment, decode_param. rewrite D. reflexivity.
Qed.

(** The records [GET /shipments] keeps for a query. *)
Definition wanted_records (q : QueryParam) (l : list Shipment) : list Shipment :=
  match effective_filter q with
  | Some wanted => filter (has_orderId wanted) l
  | None => l
  end.

Lemma get_shipments_stored (q : QueryParam) (w : World) :
  shipments w <> [] ->
  get_shipments q w =
    (Returned
       (Res 200
          (JsonShipments
             (map toShipmentView (wanted_records q (JsMap.values (shipments w)))))),
     w).
Proof.
  intros N. unfold get_shipments, shipments_values, wanted_records, effective_filter.
  unfold bind at 1.
  destruct (shipments w) as [|[k0 v0] m] eqn:S0; [congruence|].
  cbn [JsMap.values map List.length Nat.eqb].
  unfold bind, ret.
  destruct q as [|s|]; try reflexivity.
  destruct (JsString.truthy s); reflexivity.
Qed.

Lemma get_shipments_empty (q : QueryParam) (w : World) :
  shipments w = [] ->
  get_shipments q w =
    (Returned (Res 200 (JsonShipments [placeholder q w])),
     with_uuids_drawn (2 + uuids_drawn w) w).
Proof.
  intros E. unfold get_shipments, shipments_values, placeholder, effective_filter.
  unfold bind at 1. rewrite E.
  cbn [JsMap.values map List.length Nat.eqb].
  unfold bind, ret, randomUUID. cbn [uuids_drawn with_uuids_drawn].
  destruct q as [|s|]; try reflexivity.
  destruct s as [|c s]; [reflexivity|].
  cbn [opt_or_else JsString.or_else JsString.truthy filter].
  unfold has_orderId. cbn [orderId].
  rewrite String.eqb_refl. reflexivity.
Qed.

(** X4.  What [POST /shipments] answers can be read back: after a 201, a
    [GET /shipments/:shipmentId] with the returned shipmentId (which decodes
    to itself) answers 200 with the same view; and when the shipmentId was
    not in use before, [GET /shipments] without a filter lists the views of
    the earlier records followed by the new view. *)
Theorem create_then_read (req_body : JsValue) (o d : string) (w : World) :
  valid_create_body req_body o d ->
  decodeURIComponent (randomUUID_at (uuids_drawn w))
    = Some (randomUUID_at (uuids_drawn w)) ->
  exists view w',
    post_shipments req_body w = (Returned (Res 201 (JsonShipment view)), w') /\
    shipmentId view = randomUUID_at (uuids_drawn w) /\
    get_shipment (shipmentId view) w' = (Returned (Res 200 (JsonShipment view)), w') /\
    (JsMap.get (shipmentId view) (shipments w) = None ->
     get_shipments QAbsent w' =
       (Returned
          (Res 200
             (JsonShipments
                (map toShipmentView (JsMap.values (shipments w)) ++ [view])%list)),
        w')).
Proof.
  intros V D.
  destruct (valid_create_body_object _ _ _ V) as (props & ->).
  destruct (create_shipment_created _ o d w V) as (w' & E & Hs).
  exists (toShipmentView (created_shipment o w)), w'.
  unfold post_shipments, try_catch. simpl Js.truthy. cbv iota. rewrite E.
  split; [reflexivity|]. split; [reflexivity|]. split.
  - simpl shipmentId. rewrite (get_shipment_run _ _ w' D), Hs, JsMap_get_set_same.
    reflexivity.
  - simpl shipmentId. intros Fresh.
    rewrite (JsMap_set_absent _ _ _ Fresh) in Hs.
    rewrite get_shipments_stored by (rewrite Hs; now destruct (shipments w)).
    rewrite Hs. unfold wanted_records, JsMap.values. simpl effective_filter.
    cbv iota. rewrite !map_app. reflexivity.
Qed.

(** X5.  What [POST /shipments/:shipmentId/cancel] answers can be read
    back: a [GET] of the same id answers 200 with the very view the
    cancellation returned, whose status is [CANCELLED].  Cancelling a
    shipment that is stored keeps every key of the registry in place;
    cancelling an unknown one appends its key. *)
Theorem cancel_then_read (param id : string) (w : World) :
  decodeURIComponent param = Some id ->
  exists view w',
    post_cancel param w = (Returned (Res 200 (JsonShipment view)), w') /\
    status view = CANCELLED /\
    shipmentId view =
      match JsMap.get id (shipments w) with
      | Some stored => shipmentId stored
      | None => id
      end /\
    get_shipment param w' = (Returned (Res 200 (JsonShipment view)), w') /\
    JsMap.keys (shipments w') =
      match JsMap.get id (shipments w) with
      | Some _ => JsMap.keys (shipments w)
      | None => (JsMap.keys (shipments w) ++ [id])%list
      end.
Proof.
  intros D.
  destruct (post_cancel_run param id w D) as (w' & E & Hs & _).
  exists (toShipmentView (cancelled_record id w)), w'.
  split; [exact E|]. split; [reflexivity|]. split; [|split].
  - unfold cancelled_record. destruct (JsMap.get id (shipments w)); reflexivity.
  - rewrite (get_shipment_run _ _ w' D), Hs, JsMap_get_set_same. reflexivity.
  - rewrite Hs. destruct (JsMap.get id (shipments w)) eqn:G.
    + apply JsMap_set_present_keys. congruence.
    + rewrite (JsMap_set_absent _ _ _ G). unfold JsMap.keys. now rewrite map_app.
Qed.

(** The requests that only read. *)
Definition is_read (r : Request) : bool :=
  match r with
  | GET_shipment _ | GET_shipments _ | Unmatched => true
  | _ => false
  end.

(** X6.  The read routes store nothing: over any sequence of
    [GET /shipments/:shipmentId], [GET /shipments] and unmatched requests,
    whatever their parameters, the registry, the producer log, the console,
    the MQTT clients and the clock are left exactly as they were (the
    synthesized default and the placeholder are answered, never kept). *)
Theorem reads_store_nothing (rs : list Request) (w : World) :
  forallb is_read rs = true ->
  shipments (serve_all rs w) = shipments w /\
  produced (serve_all rs w) = produced w /\
  console (serve_all rs w) = console w /\
  clients (serve_all rs w) = clients w /\
  clock_reads (serve_all rs w) = clock_reads w.
Proof.
  revert w. induction rs as [|r rs IH]; intros w R; simpl; [auto 10|].
  simpl in R. apply andb_prop in R. destruct R as [Rr Rrs].
  destruct (IH (snd (handle r w)) Rrs) as (A & B & C & D & E).
  rewrite A, B, C, D, E. clear IH A B C D E.
  destruct r as [?|?|param|q|?| |?|? ?]; try discriminate Rr; unfold handle;
    rewrite snd_bind_ret.
  - unfold get_shipment, decode_param.
    destruct (decodeURIComponent param); simpl; auto 10.
  - destruct (shipments w) as [|p m] eqn:S0.
    + rewrite (get_shipments_empty q w S0). simpl. rewrite S0. auto 10.
    + rewrite get_shipments_stored by congruence. simpl. rewrite S0. auto 10.
  - simpl. auto 10.
Qed.

(** X7.  The filter of [GET /shipments] is exact: with a non-empty
    [orderId] filter every listed view has that orderId, whether it comes
    from the registry or is the placeholder; the views listed from a
    non-empty registry are exactly the views, in order, of the stored
    records with that orderId, so at most as many as are stored. *)
Theorem list_filter_exact (wanted : string) (w : World) :
  wanted <> "" ->
  exists views w',
    get_shipments (QString wanted) w = (Returned (Res 200 (JsonShipments views)), w') /\
    Forall (fun view => orderId view = wanted) views /\
    (shipments w <> [] ->
     views = map toShipmentView
               (filter (fun s => String.eqb (orderId s) wanted)
                       (JsMap.values (shipments w))) /\
     List.length views <= List.length (shipments w)).
Proof.
  intros N. apply truthy_nonempty in N.
  destruct (shipments w) as [|p m] eqn:S0.
  - rewrite (get_shipments_empty _ w S0).
    eexists; eexists; split; [reflexivity|]. split; [|congruence].
    constructor; [|constructor].
    unfold placeholder, effective_filter. rewrite N. reflexivity.
  - rewrite get_shipments_stored by congruence.
    eexists; eexists; split; [reflexivity|].
    unfold wanted_records, effective_filter. rewrite N. rewrite S0.
    split; [|intros _; split; [reflexivity|]].
    + rewrite Forall_forall. intros view Hin.
      apply in_map_iff in Hin. destruct Hin as (s & <- & Hs).
      apply filter_In in Hs. destruct Hs as [_ Hs].
      unfold has_orderId in Hs. apply String.eqb_eq in Hs. exact Hs.
    + rewrite length_map. unfold JsMap.values.
      etransitivity; [apply filter_length_le|]. now rewrite length_map.
Qed.

(** *** Errors: which ones escape, and what they leave behind *)

Lemma post_shipments_answers (req_body : JsValue) (w : World) :
  exists res w',
    post_shipments req_body w = (Returned res, w') /\
    (status_code res = 201 \/ status_code res = 400).
Proof.
  unfold post_shipments, try_catch.
  set (payload := if Js.truthy req_body then req_body else JObj []).
  destruct (valid_create_body_dec payload) as [(o & d & V) | N].
  - destruct (create_shipment_created payload o d w V) as (w' & E & _).
    rewrite E. eexists; eexists; split; [reflexivity | left; reflexivity].
  - destruct (create_shipment_refused payload w N) as [(m & E) | (e & E)];
      rewrite E; eexists; eexists; (split; [reflexivity | right; reflexivity]).
Qed.

Lemma post_shipments_raw_answers (raw : string) (w : World) :
  exists res w',
    post_shipments_raw raw w = (Returned res, w') /\
    (status_code res = 201 \/ status_code res = 400).
Proof.
  unfold post_shipments_raw, try_catch.
  assert (C : forall payload,
             exists res w',
               match create_shipment payload w with
               | (Returned a, w') => (Returned a, w')
               | (Thrown e, w') =>
                   ret (Res 400 (JsonError
                          (JsString.or_else (error_message e) "Invalid request body")))
                       w'
               end = (Returned res, w') /\
               (status_code res = 201 \/ status_code res = 400)).
  { intros payload.
    destruct (valid_create_body_dec payload) as [(o & d & V) | N].
    - destruct (create_shipment_created payload o d w V) as (w' & E & _).
      rewrite E. eexists; eexists; split; [reflexivity | left; reflexivity].
    - destruct (create_shipment_refused payload w N) as [(m & E) | (e & E)];
        rewrite E; eexists; eexists; (split; [reflexivity | right; reflexivity]). }
  unfold parseBody.
  destruct (1024 * 1024 <? Z.of_nat (String.length raw))%Z.
  { unfold bind, throw. eexists; eexists; split; [reflexivity | right; reflexivity]. }
  destruct (negb (JsString.truthy raw)).
  { unfold bind at 1, ret at 1. apply C. }
  destruct (JSON_parse raw) as [v|].
  - unfold bind at 1, ret at 1. apply C.
  - unfold bind, throw. eexists; eexists; split; [reflexivity | right; reflexivity].
Qed.

(** The state after an accepted command, field by field. *)
Lemma eachMessage_accepted_state (text : string) (payload : JsValue) (w : World) :
  JSON_parse text = Some payload ->
  isDispatchCommandEvent payload = true ->
  Date_parse_isNaN (requestedAt (as_command payload)) = false ->
  let w' := snd (eachMessage (Some text) w) in
  fst (eachMessage (Some text) w) = send_outcome w /\
  uuids_drawn w' = 3 + uuids_drawn w /\
  clock_reads w' = 1 + clock_reads w /\
  shipments w' =
    JsMap.set (randomUUID_at (2 + uuids_drawn w))
      (accepted_shipment (as_command payload) w) (shipments w) /\
  produced w' =
    (produced w ++
       [ {| topic := fulfillmentReplyTopic cfg;
            key := c_orderId (as_command payload);
            value := ReplyJson (accepted_reply (as_command payload) w) |} ])%list.
Proof.
  intros P V D. unfold eachMessage. rewrite P, V. simpl negb. cbv iota.
  unfold buildFulfillmentReply. rewrite D.
  unfold send_outcome, await_send, bind, randomUUID, now_toISOString, ret,
    shipments_set, producer_send, throw. simpl.
  destruct (send_error_at (List.length (produced w))); simpl; auto.
Qed.

(** X8.  The only errors that escape a handler: a route parameter that
    [decodeURIComponent] rejects, on [GET /shipments/:shipmentId] and on
    the cancel route, in which case nothing at all has changed; and the
    rejection of the reply send, for a structurally valid command.
    [POST /shipments], [GET /shipments], the fallback and the MQTT callbacks
    never throw, and neither does a malformed message. *)
Theorem escaping_errors (r : Request) (w w' : World) (e : JsError) :
  handle r w = (Thrown e, w') ->
  (exists param,
      (r = GET_shipment param \/ r = POST_cancel param) /\
      decodeURIComponent param = None /\
      e = URIError "URI malformed" /\ w' = w) \/
  (exists text payload,
      r = DispatchMessage (Some text) /\
      JSON_parse text = Some payload /\
      isDispatchCommandEvent payload = true /\
      send_error_at (List.length (produced w)) = Some e).
Proof.
  destruct r as [req_body|raw|param|q|param| |value|i ev]; unfold handle; intros H.
  - destruct (post_shipments_answers req_body w) as (res & w1 & E & _).
    rewrite (bind_returned _ _ _ _ _ E) in H. discriminate H.
  - destruct (post_shipments_raw_answers raw w) as (res & w1 & E & _).
    rewrite (bind_returned _ _ _ _ _ E) in H. discriminate H.
  - left. exists param. destruct (decodeURIComponent param) as [id|] eqn:D.
    + rewrite (bind_returned _ _ _ _ _ (get_shipment_run param id w D)) in H.
      discriminate H.
    + unfold get_shipment, decode_param in H. rewrite D in H.
      unfold bind, throw in H. inversion H. auto.
  - destruct (shipments w) as [|p m] eqn:S0.
    + rewrite (bind_returned _ _ _ _ _ (get_shipments_empty q w S0)) in H.
      discriminate H.
    + assert (N : shipments w <> []) by congruence.
      rewrite (bind_returned _ _ _ _ _ (get_shipments_stored q w N)) in H.
      discriminate H.
  - left. exists param. destruct (decodeURIComponent param) as [id|] eqn:D.
    + destruct (post_cancel_run param id w D) as (w1 & E & _).
      rewrite (bind_returned _ _ _ _ _ E) in H. discriminate H.
    + unfold post_cancel, decode_param in H. rewrite D in H.
      unfold bind, throw in H. inversion H. auto.
  - discriminate H.
  - right. destruct value as [text|]; [|discriminate H].
    destruct (JSON_parse text) as [payload|] eqn:P;
      [|unfold eachMessage in H; rewrite P in H; discriminate H].
    destruct (isDispatchCommandEvent payload) eqn:V;
      [|unfold eachMessage in H; rewrite P, V in H; discriminate H].
    exists text, payload. repeat split; auto.
    assert (O : fst (eachMessage (Some text) w) = send_outcome w).
    { destruct (Date_parse_isNaN (requestedAt (as_command payload))) eqn:D.
      - destruct (eachMessage_rejected text payload w P V D) as (w1 & E & _).
        now rewrite E.
      - destruct (eachMessage_accepted text payload w P V D) as (w1 & E & _).
        now rewrite E. }
    unfold bind in H. unfold send_outcome in O.
    destruct (eachMessage (Some text) w) as [[u|e1] w1]; [discriminate H|].
    simpl in O. inversion H; subst.
    destruct (send_error_at (List.length (produced w))); [|discriminate O].
    inversion O. reflexivity.
  - unfold bind, mqtt_delivery in H.
    destruct (update_client i ev (clients w)). discriminate H.
Qed.

(** X9.  A rejected reply send is not rolled back: for an accepted command
    whose reply the producer rejects, [eachMessage] throws that rejection,
    and the shipment it created beforehand stays in the registry (a
    redelivery after such a failure creates a second shipment). *)
Theorem failed_reply_keeps_shipment
  (text : string) (payload : JsValue) (w : World) (e : JsError) :
  JSON_parse text = Some payload ->
  isDispatchCommandEvent payload = true ->
  Date_parse_isNaN (requestedAt (as_command payload)) = false ->
  send_error_at (List.length (produced w)) = Some e ->
  exists w',
    eachMessage (Some text) w = (Thrown e, w') /\
    JsMap.get (randomUUID_at (2 + uuids_drawn w)) (shipments w')
      = Some (accepted_shipment (as_command payload) w) /\
    List.length (produced w') = S (List.length (produced w)).
Proof.
  intros P V D F.
  destruct (eachMessage_accepted text payload w P V D) as (w' & E & Hs & Hp).
  exists w'. unfold send_outcome in E. rewrite F in E.
  split; [exact E|]. split.
  - rewrite Hs. apply JsMap_get_set_same.
  - rewrite Hp, length_app. simpl. lia.
Qed.

(** X10.  The consumer does not deduplicate: the [messageId] is never
    compared with earlier ones, so the same accepted message delivered twice
    is answered twice (two [ACCEPTED] replies with the same requestId and
    key, and different tracking ids whenever the drawn UUIDs differ in their
    tracking numbers) and, the two drawn shipmentIds being new and distinct,
    stores two shipments for the one order. *)
Theorem redelivery_duplicates (text : string) (payload : JsValue) (w : World) :
  JSON_parse text = Some payload ->
  isDispatchCommandEvent payload = true ->
  Date_parse_isNaN (requestedAt (as_command payload)) = false ->
  let command := as_command payload in
  let w1 := snd (eachMessage (Some text) w) in
  let w2 := snd (eachMessage (Some text) w1) in
  let id1 := randomUUID_at (2 + uuids_drawn w) in
  let id2 := randomUUID_at (5 + uuids_drawn w) in
  (exists reply1 reply2,
      produced w2 =
        (produced w ++
           [ {| topic := fulfillmentReplyTopic cfg; key := c_orderId command;
                value := ReplyJson reply1 |};
             {| topic := fulfillmentReplyTopic cfg; key := c_orderId command;
                value := ReplyJson reply2 |} ])%list /\
      r_status reply1 = ACCEPTED /\ r_status reply2 = ACCEPTED /\
      r_requestId reply1 = c_requestId command /\
      r_requestId reply2 = c_requestId command /\
      trackingId reply1 = Some (makeTrackingNumber (randomUUID_at (1 + uuids_drawn w))) /\
      trackingId reply2 = Some (makeTrackingNumber (randomUUID_at (4 + uuids_drawn w)))) /\
  (JsMap.get id1 (shipments w) = None ->
   JsMap.get id2 (shipments w) = None ->
   id1 <> id2 ->
   exists s1 s2,
     shipments w2 = (shipments w ++ [(id1, s1); (id2, s2)])%list /\
     orderId s1 = c_orderId command /\ orderId s2 = c_orderId command).
Proof.
  intros P V D command w1 w2 id1 id2.
  destruct (eachMessage_accepted_state text payload w P V D)
    as (_ & U1 & C1 & S1 & P1).
  destruct (eachMessage_accepted_state text payload w1 P V D)
    as (_ & U2 & C2 & S2 & P2).
  fold w1 in U1, C1, S1, P1. fold w2 in U2, C2, S2, P2. fold command in S1, P1, S2, P2.
  split.
  - exists (accepted_reply command w), (accepted_reply command w1).
    rewrite P2, P1, <- app_assoc. simpl.
    unfold accepted_reply. simpl. rewrite U1. repeat split; reflexivity.
  - intros F1 F2 Ne.
    exists (accepted_shipment command w), (accepted_shipment command w1).
    rewrite S2, S1, U1. fold id1.
    change (randomUUID_at (2 + (3 + uuids_drawn w))) with id2.
    rewrite (JsMap_set_absent _ _ _ F1).
    rewrite JsMap_set_absent.
    + rewrite <- app_assoc. repeat split; reflexivity.
    + rewrite <- (JsMap_set_absent _ _ _ F1).
      rewrite JsMap_get_set_other by exact Ne. exact F2.
Qed.

(** X11.  [isDispatchCommandEvent] accepts exactly the objects (not arrays,
    not [null], not primitives) whose [messageId], [requestId], [orderId],
    [carrier] and [requestedAt] are all strings; other properties and the
    order of the properties do not matter, empty strings are accepted, and
    the command read off an accepted payload is the one with those five
    values. *)
Theorem isDispatchCommandEvent_exact (payload : JsValue) :
  (isDispatchCommandEvent payload = true <->
   exists command, structurally_valid payload command) /\
  (forall command,
      structurally_valid payload command -> as_command payload = command).
Proof.
  split; [split|].
  - intros V. exists (as_command payload). now apply accepted_structurally_valid.
  - intros (command & V). now apply structurally_valid_accepted in V.
  - intros command V. now apply structurally_valid_accepted in V.
Qed.

(** *** What each write route publishes *)

(** The trace one notification leaves, per build: nothing without a
    publisher; with the Kafka publisher one record on the notification
    topic, keyed by the event's requestId, and one console line if the send
    is rejected; with the MQTT publisher one freshly opened client. *)
Definition published_once (event : AnalyticsNotificationEvent) (w w' : World) : Prop :=
  match notifier cfg with
  | NoNotifier =>
      produced w' = produced w /\ console w' = console w /\ clients w' = clients w
  | KafkaNotifier =>
      produced w' =
        (produced w ++
           [ {| topic := analyticsNotificationTopic cfg;
                key := n_requestId event;
                value := NotificationJson event |} ])%list /\
      console w' =
        (console w ++
           match send_error_at (List.length (produced w)) with
           | Some e =>
               [ ("Failed to publish analytics notification on "
                    ++ analyticsNotificationTopic cfg ++ ": "
                    ++ error_message e)%string ]
           | None => []
           end)%list /\
      clients w' = clients w
  | MqttNotifier =>
      produced w' = produced w /\ console w' = console w /\
      clients w' =
        (clients w ++ [Mqtt.opened (analyticsNotificationTopic cfg) event])%list
  end.

(** X12.  Each successful write publishes exactly one notification, and a
    refused one none.  A cancellation publishes [ShipmentCancelled] and a
    creation [ShipmentCreated], with priority [NORMAL], the shipmentId as
    requestId (and so as Kafka key), a freshly drawn notificationId and the
    body text built from the shipmentId (and the trimmed orderId); in the
    Kafka build a rejected send adds one console line and nothing else. *)
Theorem writes_publish_once (param id : string) (req_body : JsValue) (o d : string)
        (w : World) :
  (decodeURIComponent param = Some id ->
   published_once
     {| notificationId := randomUUID_at (uuids_drawn w);
        n_requestId := id;
        title := "ShipmentCancelled";
        body := "Shipment " ++ id ++ " cancelled";
        priority := NORMAL |}
     w (snd (post_cancel param w))) /\
  (valid_create_body req_body o d ->
   published_once
     {| notificationId := randomUUID_at (1 + uuids_drawn w);
        n_requestId := randomUUID_at (uuids_drawn w);
        title := "ShipmentCreated";
        body := "Shipment " ++ randomUUID_at (uuids_drawn w)
                  ++ " created for order " ++ o;
        priority := NORMAL |}
     w (snd (post_shipments req_body w))) /\
  (~ (exists o' d', valid_create_body req_body o' d') ->
   snd (post_shipments req_body w) = w).
Proof.
  split; [|split].
  - intros D. unfold post_cancel, decode_param. rewrite D.
    unfold published_once, notify, publishAnalyticsNotification, publish_kafka,
      publish_mqtt.
    destruct (notifier cfg);
      unfold bind, ret, shipments_get, now_toISOString, shipments_set, randomUUID,
        producer_send, console_error; simpl;
      try destruct (send_error_at (List.length (produced w))); simpl; auto.
    now rewrite app_nil_r.
  - intros V. destruct (valid_create_body_object _ _ _ V) as (props & ->).
    destruct V as (o' & d' & Ho & Hd & -> & -> & No & Nd).
    apply truthy_nonempty in No, Nd.
    unfold post_shipments. rewrite snd_try_catch_ret. simpl Js.truthy. cbv iota.
    unfold create_shipment, get_prop.
    unfold bind at 1, ret at 1. rewrite Ho. cbv zeta.
    unfold bind at 1, ret at 1. rewrite Hd. cbv zeta.
    cbn [Js.typeof_string Js.as_string].
    rewrite No, Nd. cbn [negb].
    unfold published_once, notify, publishAnalyticsNotification, publish_kafka,
      publish_mqtt.
    destruct (notifier cfg);
      unfold bind, ret, shipments_set, randomUUID, producer_send, console_error;
      simpl;
      try destruct (send_error_at (List.length (produced w))); simpl; auto.
    now rewrite app_nil_r.
  - intros N. unfold post_shipments. rewrite snd_try_catch_ret.
    assert (N' : ~ (exists o' d',
                       valid_create_body
                         (if Js.truthy req_body then req_body else JObj []) o' d')).
    { destruct (Js.truthy req_body); [exact N|].
      intros (o1 & d1 & o2 & d2 & Ho & _). discriminate Ho. }
    destruct (create_shipment_refused _ w N') as [(m & E) | (e & E)];
      now rewrite E.
Qed.

(** *** The responses never show [cancelledAt] *)

Definition hides_cancelledAt (b : ResponseBody) : Prop :=
  match b with
  | JsonShipment view => cancelledAt view = None
  | JsonShipments views => Forall (fun view => cancelledAt view = None) views
  | JsonError _ => True
  end.

Lemma create_shipment_hides (payload : JsValue) (w w' : World) (res : Response) :
  create_shipment payload w = (Returned res, w') -> hides_cancelledAt (json res).
Proof.
  destruct (valid_create_body_dec payload) as [(o & d & V) | N].
  - destruct (create_shipment_created payload o d w V) as (w1 & E & _).
    rewrite E. intros H. inversion H. reflexivity.
  - destruct (create_shipment_refused payload w N) as [(m & E) | (e & E)];
      rewrite E; intros H; inversion H. exact I.
Qed.

(** X13.  No response discloses [cancelledAt]: whatever the request and the
    state, a shipment view in a response body (single or in a list, also
    right after a cancellation, which stores the stamp) has no
    [cancelledAt]; the stamp is written by the cancel route and read by no
    route. *)
Theorem responses_hide_cancelledAt (r : Request) (w w' : World) (res : Response) :
  handle r w = (Returned (Some res), w') -> hides_cancelledAt (json res).
Proof.
  destruct r as [req_body|raw|param|q|param| |value|i ev]; unfold handle; intros H.
  - unfold bind, post_shipments, try_catch in H.
    destruct (create_shipment _ w) as [[res1|e] w1] eqn:E.
    + inversion H; subst. eapply create_shipment_hides; eauto.
    + inversion H; subst. exact I.
  - unfold bind at 1, post_shipments_raw, try_catch in H.
    destruct (bind (parseBody raw) _ w) as [[res1|e] w1] eqn:E.
    + inversion H; subst. unfold bind, parseBody in E.
      destruct (1024 * 1024 <? Z.of_nat (String.length raw))%Z; [discriminate E|].
      destruct (negb (JsString.truthy raw)).
      * unfold ret in E. eapply create_shipment_hides; exact E.
      * destruct (JSON_parse raw); [|discriminate E].
        unfold ret in E. eapply create_shipment_hides; exact E.
    + inversion H; subst. exact I.
  - destruct (decodeURIComponent param) as [id|] eqn:D.
    + rewrite (bind_returned _ _ _ _ _ (get_shipment_run param id w D)) in H.
      inversion H. reflexivity.
    + unfold get_shipment, decode_param in H. rewrite D in H. discriminate H.
  - destruct (shipments w) as [|p m] eqn:S0.
    + rewrite (bind_returned _ _ _ _ _ (get_shipments_empty q w S0)) in H.
      inversion H. simpl. repeat constructor.
    + assert (N : shipments w <> []) by congruence.
      rewrite (bind_returned _ _ _ _ _ (get_shipments_stored q w N)) in H.
      inversion H. simpl. rewrite Forall_forall. intros view Hin.
      apply in_map_iff in Hin. destruct Hin as (s & <- & _). reflexivity.
  - destruct (decodeURIComponent param) as [id|] eqn:D.
    + destruct (post_cancel_run param id w D) as (w1 & E & _).
      rewrite (bind_returned _ _ _ _ _ E) in H. inversion H. reflexivity.
    + unfold post_cancel, decode_param in H. rewrite D in H. discriminate H.
  - inversion H. exact I.
  - unfold bind in H. destruct (eachMessage value w) as [[u|e] w1]; discriminate H.
  - unfold bind, mqtt_delivery in H.
    destruct (update_client i ev (clients w)). discriminate H.
Qed.

(** *** The callbacks of one MQTT publish *)

(** The callbacks that actually run when the event loop offers [evs] to a
    client, in order. *)
Fixpoint Mqtt_delivered (url : string) (c : MqttClient) (evs : list MqttEvent)
  : list MqttEvent :=
  match evs with
  | [] => []
  | ev :: rest =>
      if Mqtt.enabled c ev
      then ev :: Mqtt_delivered url (fst (Mqtt.step url c ev)) rest
      else Mqtt_delivered url c rest
  end.

Definition is_timeout (ev : MqttEvent) : bool :=
  match ev with EvTimeout => true | _ => false end.

Definition is_connect (ev : MqttEvent) : bool :=
  match ev with EvConnect => true | _ => false end.

Definition is_error (ev : MqttEvent) : bool :=
  match ev with EvError _ => true | _ => false end.

Definition is_published (ev : MqttEvent) : bool :=
  match ev with EvPublished _ => true | _ => false end.

Definition count (p : MqttEvent -> bool) (evs : list MqttEvent) : nat :=
  List.length (filter p evs).

Lemma Mqtt_step_enabled (url : string) (c : MqttClient) (ev : MqttEvent) :
  Mqtt.enabled c ev = true ->
  let c' := fst (Mqtt.step url c ev) in
  match ev with
  | EvTimeout =>
      timeout c' = Fired /\ connect_listener c' = connect_listener c /\
      error_listener c' = error_listener c /\
      publish_callbacks c' = publish_callbacks c
  | EvConnect =>
      connect_listener c' = false /\ timeout c' = timeout c /\
      error_listener c' = error_listener c /\
      publish_callbacks c' = S (publish_callbacks c)
  | EvError _ =>
      error_listener c' = false /\ timeout c' <> Armed /\
      connect_listener c' = connect_listener c /\
      publish_callbacks c' = publish_callbacks c
  | EvPublished _ =>
      S (publish_callbacks c') = publish_callbacks c /\ timeout c' <> Armed /\
      connect_listener c' = connect_listener c /\
      error_listener c' = error_listener c
  end.
Proof.
  intros En. unfold Mqtt.step. rewrite En. simpl negb. cbv iota.
  destruct c as [tp pl comp ends dones tm cl el cbs].
  destruct ev as [ | |m|e]; simpl in En |- *.
  - destruct tm; try discriminate. destruct comp; simpl; auto.
  - subst cl. simpl. auto.
  - subst el. destruct comp, tm; simpl; repeat split; auto; discriminate.
  - destruct cbs as [|k]; [discriminate|].
    destruct comp, tm; simpl; repeat split; auto; discriminate.
Qed.

Lemma Mqtt_delivered_bounds (url : string) (evs : list MqttEvent) (c : MqttClient) :
  let d := Mqtt_delivered url c evs in
  count is_connect d <= (if connect_listener c then 1 else 0) /\
  count is_error d <= (if error_listener c then 1 else 0) /\
  count is_timeout d <= (match timeout c with Armed => 1 | _ => 0 end) /\
  count is_published d <= publish_callbacks c + count is_connect d.
Proof.
  revert c. induction evs as [|ev evs IH]; intros c; simpl.
  - unfold count; simpl.
    destruct (connect_listener c), (error_listener c), (timeout c);
      repeat split; lia.
  - destruct (Mqtt.enabled c ev) eqn:En; [|apply IH].
    pose proof (Mqtt_step_enabled url c ev En) as St.
    destruct (IH (fst (Mqtt.step url c ev))) as (I1 & I2 & I3 & I4).
    unfold count in *.
    destruct ev as [ | |m|e]; simpl in St, En |- *.
    + destruct St as (T & Cl & El & Cb). rewrite T, Cl, El, Cb in *.
      destruct (timeout c); try discriminate. repeat split; try lia; auto.
    + destruct St as (Cl & T & El & Cb). rewrite T, Cl, El, Cb in *.
      rewrite En. repeat split; try lia; auto.
    + destruct St as (El & T & Cl & Cb). rewrite Cl, El, Cb in *.
      rewrite En. repeat split; try lia; auto.
      destruct (timeout (fst (Mqtt.step url c (EvError m)))); try congruence;
        destruct (timeout c); lia.
    + destruct St as (Cb & T & Cl & El). rewrite Cl, El in *.
      repeat split; try lia; auto.
      destruct (timeout (fst (Mqtt.step url c (EvPublished e)))); try congruence;
        destruct (timeout c); lia.
Qed.

Lemma Mqtt_no_timeout_once_cleared (url : string) (evs : list MqttEvent)
      (c : MqttClient) :
  timeout c <> Armed -> ~ In EvTimeout (Mqtt_delivered url c evs).
Proof.
  intros T Hin.
  destruct (Mqtt_delivered_bounds url evs c) as (_ & _ & B & _).
  unfold count in B.
  assert (Z : filter is_timeout (Mqtt_delivered url c evs) = []).
  { destruct (filter is_timeout (Mqtt_delivered url c evs)); [reflexivity|].
    simpl in B. destruct (timeout c); try congruence; lia. }
  assert (I : In EvTimeout (filter is_timeout (Mqtt_delivered url c evs)))
    by (apply filter_In; split; [exact Hin | reflexivity]).
  rewrite Z in I. exact I.
Qed.

Lemma Mqtt_timeout_first (url : string) (evs : list MqttEvent) (c : MqttClient)
      (before after : list MqttEvent) :
  Mqtt_delivered url c evs = (before ++ EvTimeout :: after)%list ->
  count is_error before = 0 /\ count is_published before = 0.
Proof.
  revert c before. induction evs as [|ev evs IH]; intros c before; simpl.
  - destruct before; discriminate.
  - destruct (Mqtt.enabled c ev) eqn:En; [|apply IH].
    destruct before as [|x before]; [intros _; split; reflexivity|].
    simpl. intros H. inversion H; subst x.
    pose proof (Mqtt_step_enabled url c ev En) as St.
    assert (Later : In EvTimeout (Mqtt_delivered url (fst (Mqtt.step url c ev)) evs)).
    { rewrite H2. apply in_or_app. right. now left. }
    destruct (IH _ _ H2) as (E1 & E2). unfold count in *.
    destruct ev as [ | |m|e]; simpl in St |- *; auto.
    + exfalso. destruct St as (_ & T & _).
      exact (Mqtt_no_timeout_once_cleared url evs _ T Later).
    + exfalso. destruct St as (_ & T & _).
      exact (Mqtt_no_timeout_once_cleared url evs _ T Later).
Qed.

(** X14.  One publish runs each of its callbacks at most once, whatever the
    event loop offers and in whatever order: the [connect] listener once
    (so at most one [client.publish]), the [error] listener once, the timer
    once, and a publish callback only for a publish that was issued.  The
    timer callback never runs after an [error] or publish callback
    ([clearTimeout] is effective). *)
Theorem mqtt_callbacks_run_once
  (url topic : string) (event : AnalyticsNotificationEvent) (evs : list MqttEvent) :
  let d := Mqtt_delivered url (Mqtt.opened topic event) evs in
  count is_connect d <= 1 /\
  count is_error d <= 1 /\
  count is_timeout d <= 1 /\
  count is_published d <= count is_connect d /\
  (forall before after,
      d = (before ++ EvTimeout :: after)%list ->
      count is_error before = 0 /\ count is_published before = 0).
Proof.
  intros d.
  destruct (Mqtt_delivered_bounds url evs (Mqtt.opened topic event))
    as (B1 & B2 & B3 & B4).
  fold d in B1, B2, B3, B4. simpl in B1, B2, B3, B4.
  repeat split; auto;
    destruct (Mqtt_timeout_first url evs _ before after H); assumption.
Qed.

(** *** [trim] *)

Lemma trimStart_split (s : string) :
  exists lead,
    s = lead ++ JsString.trimStart s /\
    JsString.all_chars JsString.is_space lead = true.
Proof.
  induction s as [|c r IH]; simpl.
  - exists "". auto.
  - destruct (JsString.is_space c) eqn:Sp.
    + destruct IH as (lead & E & A). exists (String c lead). simpl.
      rewrite Sp, A, <- E. auto.
    + exists "". auto.
Qed.

Lemma trimStart_head (s : string) :
  match JsString.trimStart s with
  | EmptyString => True
  | String c _ => JsString.is_space c = false
  end.
Proof.
  induction s as [|c r IH]; simpl; [exact I|].
  destruct (JsString.is_space c) eqn:Sp; [exact IH | exact Sp].
Qed.

Lemma trimEnd_split (s : string) :
  exists trail,
    s = JsString.trimEnd s ++ trail /\
    JsString.all_chars JsString.is_space trail = true.
Proof.
  induction s as [|c r IH]; simpl.
  - exists "". auto.
  - destruct IH as (trail & E & A).
    destruct (JsString.trimEnd r) as [|c' r'] eqn:T.
    + simpl in E. subst trail.
      destruct (JsString.is_space c) eqn:Sp.
      * exists (String c r). simpl. rewrite Sp, A. auto.
      * exists r. simpl. auto.
    + exists trail. simpl. rewrite E at 1. auto.
Qed.

Lemma trimEnd_idempotent (s : string) :
  JsString.trimEnd (JsString.trimEnd s) = JsString.trimEnd s.
Proof.
  induction s as [|c r IH]; simpl; [reflexivity|].
  destruct (JsString.trimEnd r) as [|c' r'] eqn:T.
  - destruct (JsString.is_space c) eqn:Sp; simpl; [reflexivity | now rewrite Sp].
  - simpl. simpl in IH. rewrite IH. reflexivity.
Qed.

Lemma trimEnd_head (c : ascii) (r : string) :
  JsString.is_space c = false ->
  JsString.trimEnd (String c r) = String c (JsString.trimEnd r).
Proof.
  intros Sp. simpl. destruct (JsString.trimEnd r); [now rewrite Sp | reflexivity].
Qed.

Lemma trimStart_trim (s : string) :
  JsString.trimStart (JsString.trim s) = JsString.trim s.
Proof.
  unfold JsString.trim. pose proof (trimStart_head s) as H.
  destruct (JsString.trimStart s) as [|c r]; [reflexivity|].
  rewrite (trimEnd_head c r H). simpl. now rewrite H.
Qed.

(** [trim] removes exactly the white space at the two ends: the input is
    the trimmed string with white space before and after it; the trimmed
    string has no white space left to remove at either end, so trimming is
    idempotent; and it is empty exactly when the input is white space
    only. *)
Lemma trim_exact (s : string) :
  (exists lead trail,
      s = lead ++ JsString.trim s ++ trail /\
      JsString.all_chars JsString.is_space lead = true /\
      JsString.all_chars JsString.is_space trail = true) /\
  JsString.trimStart (JsString.trim s) = JsString.trim s /\
  JsString.trimEnd (JsString.trim s) = JsString.trim s /\
  JsString.trim (JsString.trim s) = JsString.trim s /\
  (JsString.trim s = "" <-> JsString.all_chars JsString.is_space s = true).
Proof.
  assert (Dec : exists lead trail,
             s = lead ++ JsString.trim s ++ trail /\
             JsString.all_chars JsString.is_space lead = true /\
             JsString.all_chars JsString.is_space trail = true).
  { destruct (trimStart_split s) as (lead & E1 & A1).
    destruct (trimEnd_split (JsString.trimStart s)) as (trail & E2 & A2).
    exists lead, trail. unfold JsString.trim. rewrite <- E2. auto. }
  assert (All : forall a b,
             JsString.all_chars JsString.is_space (a ++ b) =
             JsString.all_chars JsString.is_space a &&
             JsString.all_chars JsString.is_space b).
  { induction a as [|c a IH]; intros b; simpl; [reflexivity|].
    now rewrite IH, andb_assoc. }
  split; [exact Dec|]. split; [apply trimStart_trim|].
  split; [apply trimEnd_idempotent|]. split.
  - unfold JsString.trim at 1. rewrite trimStart_trim. apply trimEnd_idempotent.
  - split.
    + intros E. destruct Dec as (lead & trail & D & A1 & A2).
      rewrite D, E, !All, A1, A2. reflexivity.
    + intros A. pose proof (trimStart_head s) as H.
      destruct (trimStart_split s) as (lead & E1 & A1).
      unfold JsString.trim.
      destruct (JsString.trimStart s) as [|c r]; [reflexivity|].
      rewrite E1, All in A. simpl in A. rewrite H in A.
      rewrite andb_false_r in A. discriminate A.
Qed.

(** *** [makeTrackingNumber] on any identifier *)

Lemma remove_hyphens_no_hyphen (s : string) :
  JsString.all_chars (fun c => negb (Ascii.eqb c "-")) (JsString.remove_hyphens s)
  = true.
Proof.
  induction s as [|c r IH]; simpl; [reflexivity|].
  destruct (Ascii.eqb c "-") eqn:E; simpl; [exact IH | now rewrite E].
Qed.

Lemma remove_hyphens_idempotent (s : string) :
  JsString.remove_hyphens (JsString.remove_hyphens s) = JsString.remove_hyphens s.
Proof.
  induction s as [|c r IH]; simpl; [reflexivity|].
  destruct (Ascii.eqb c "-") eqn:E; simpl; [exact IH | now rewrite E, IH].
Qed.

Lemma remove_hyphens_app (a b : string) :
  JsString.remove_hyphens (a ++ b)
  = JsString.remove_hyphens a ++ JsString.remove_hyphens b.
Proof.
  induction a as [|c a IH]; simpl; [reflexivity|].
  destruct (Ascii.eqb c "-"); simpl; now rewrite IH.
Qed.

Lemma slice0_length (n : nat) (s : string) :
  String.length (JsString.slice0 n s) = Nat.min n (String.length s).
Proof.
  revert s. induction n as [|n IH]; intros [|c r]; simpl; auto.
Qed.

Lemma slice0_app (n : nat) (a b : string) :
  n <= String.length a -> JsString.slice0 n (a ++ b) = JsString.slice0 n a.
Proof.
  revert a. induction n as [|n IH]; intros [|c a] L; simpl in *; auto; try lia.
  rewrite IH by lia. reflexivity.
Qed.

Lemma toUpperCase_length (s : string) :
  String.length (JsString.toUpperCase s) = String.length s.
Proof. induction s as [|c r IH]; simpl; auto. Qed.

Lemma upper_char_keeps_non_hyphen (c : ascii) :
  Ascii.eqb c "-" = false -> Ascii.eqb (JsString.upper_char c) "-" = false.
Proof.
  destruct c as [[] [] [] [] [] [] [] []]; vm_compute; congruence.
Qed.

Lemma upper_char_not_lower (c : ascii) :
  let n := nat_of_ascii (JsString.upper_char c) in
  ((97 <=? n) && (n <=? 122))%nat = false.
Proof.
  destruct c as [[] [] [] [] [] [] [] []]; vm_compute; reflexivity.
Qed.

Lemma upper_char_idempotent (c : ascii) :
  JsString.upper_char (JsString.upper_char c) = JsString.upper_char c.
Proof.
  destruct c as [[] [] [] [] [] [] [] []]; vm_compute; reflexivity.
Qed.

(** The code after the prefix: [makeTrackingNumber s = "TRK-" ++ tracking_code s]. *)
Definition tracking_code (s : string) : string :=
  toUpperCase (JsString.slice0 12 (JsString.remove_hyphens s)).

(** [a-z]. *)
Definition is_lower_letter (c : ascii) : bool :=
  let n := nat_of_ascii c in ((97 <=? n) && (n <=? 122))%nat.

Lemma all_chars_remove_hyphens (p : ascii -> bool) (s : string) :
  JsString.all_chars p s = true ->
  JsString.all_chars p (JsString.remove_hyphens s) = true.
Proof.
  induction s as [|c r IH]; simpl; [auto|]. intros H.
  apply andb_prop in H. destruct H as [Hc Hr].
  destruct (Ascii.eqb c "-"); simpl; [auto | now rewrite Hc, IH].
Qed.

Lemma all_chars_slice0 (p : ascii -> bool) (n : nat) (s : string) :
  JsString.all_chars p s = true -> JsString.all_chars p (JsString.slice0 n s) = true.
Proof.
  revert s. induction n as [|n IH]; intros [|c r] H; simpl in *; auto.
  apply andb_prop in H. destruct H as [Hc Hr]. now rewrite Hc, IH.
Qed.

Lemma upper_char_ascii (c : ascii) :
  (nat_of_ascii c <? 128)%nat = true ->
  (nat_of_ascii (JsString.upper_char c) <? 128)%nat = true.
Proof.
  destruct c as [[] [] [] [] [] [] [] []]; vm_compute; congruence.
Qed.

Lemma ascii_only_toUpperCase (s : string) :
  ascii_only s = true -> ascii_only (JsString.toUpperCase s) = true.
Proof.
  unfold ascii_only. induction s as [|c r IH]; simpl; [auto|]. intros H.
  apply andb_prop in H. destruct H as [Hc Hr].
  now rewrite (upper_char_ascii c Hc), IH.
Qed.

Lemma ascii_only_code (s : string) :
  ascii_only s = true ->
  ascii_only (JsString.slice0 12 (JsString.remove_hyphens s)) = true.
Proof.
  intros A. unfold ascii_only. now apply all_chars_slice0, all_chars_remove_hyphens.
Qed.

(** X16.  The tracking number of any identifier, UUID or not, is [TRK-]
    followed by the upper-cased first 12 characters that are not hyphens:
    hyphens, and what follows those 12 characters, do not change it, so
    distinct shipmentIds can share a tracking number.  For an identifier
    of ASCII characters, which [toUpperCase] maps letter by letter, the
    code after [TRK-] has at most 12 characters, as many as the identifier
    has characters other than hyphens, none of them a hyphen or a
    lower-case letter, and the case of the identifier's letters does not
    change it. *)
Theorem makeTrackingNumber_shape (s : string) :
  makeTrackingNumber s = "TRK-" ++ tracking_code s /\
  makeTrackingNumber (JsString.remove_hyphens s) = makeTrackingNumber s /\
  (forall more,
      12 <= String.length (JsString.remove_hyphens s) ->
      makeTrackingNumber (s ++ more) = makeTrackingNumber s) /\
  (toUpperCase_on_ascii -> ascii_only s = true ->
   String.length (tracking_code s)
     = Nat.min 12 (String.length (JsString.remove_hyphens s)) /\
   JsString.all_chars (fun c => negb (Ascii.eqb c "-") && negb (is_lower_letter c))
     (tracking_code s) = true /\
   makeTrackingNumber (toUpperCase s) = makeTrackingNumber s).
Proof.
  split; [reflexivity|]. split.
  { unfold makeTrackingNumber. now rewrite remove_hyphens_idempotent. }
  split.
  { intros more L. unfold makeTrackingNumber.
    rewrite remove_hyphens_app, slice0_app by exact L. reflexivity. }
  intros U A.
  assert (C : tracking_code s
              = JsString.toUpperCase (JsString.slice0 12 (JsString.remove_hyphens s))).
  { unfold tracking_code. apply U. now apply ascii_only_code. }
  split.
  { rewrite C. now rewrite toUpperCase_length, slice0_length. }
  split.
  { rewrite C.
    pose proof (remove_hyphens_no_hyphen s) as N.
    generalize dependent (JsString.remove_hyphens s). intros t _.
    generalize 12. intros n. revert t.
    induction n as [|n IH]; intros [|c t] N; simpl in *; auto.
    apply andb_prop in N. destruct N as [Nc Nt].
    rewrite (IH t Nt). apply negb_true_iff in Nc.
    rewrite (upper_char_keeps_non_hyphen c Nc).
    unfold is_lower_letter. rewrite (upper_char_not_lower c). reflexivity. }
  { unfold makeTrackingNumber. f_equal.
    rewrite (U s A).
    rewrite (U _ (ascii_only_code _ (ascii_only_toUpperCase s A))).
    rewrite (U _ (ascii_only_code s A)).
    clear A C. generalize 12. intros n. revert n.
    induction s as [|c r IH]; intros n; simpl; [reflexivity|].
    destruct (Ascii.eqb c "-") eqn:E.
    - assert (E' : Ascii.eqb (JsString.upper_char c) "-" = true).
      { apply Ascii.eqb_eq in E. subst c. reflexivity. }
      rewrite E'. apply IH.
    - rewrite (upper_char_keeps_non_hyphen c E).
      destruct n as [|n]; simpl; [reflexivity|].
      rewrite upper_char_idempotent. f_equal. apply IH. }
Qed.

(** *** The broker list of the configuration *)

(** [s.split(sep)] for a one-character separator. *)
Fixpoint split_on (sep : ascii) (s : string) : list string :=
  match s with
  | EmptyString => [EmptyString]
  | String c r =>
      if Ascii.eqb c sep then EmptyString :: split_on sep r
      else
        match split_on sep r with
        | piece :: pieces => String c piece :: pieces
        | [] => [String c EmptyString]
        end
  end.

(** [l.join(sep)]. *)
Fixpoint join (sep : string) (l : list string) : string :=
  match l with
  | [] => EmptyString
  | [x] => x
  | x :: rest => x ++ sep ++ join sep rest
  end.

(** [(process.env.SHIPPING_KAFKA_BROKERS || 'localhost:9092').split(',')
    .map((value) => value.trim()).filter(Boolean)], on the value of the
    environment variable ([None] when it is not set). *)
Definition shippingKafkaBrokers (env : option string) : list string :=
  filter JsString.truthy
    (map trim (split_on "," (opt_or_else env "localhost:9092"))).

Definition no_comma (s : string) : bool :=
  JsString.all_chars (fun c => negb (Ascii.eqb c ",")) s.

(** A broker entry as the list holds it. *)
Definition broker_ok (b : string) : Prop :=
  b <> "" /\ trim b = b /\ no_comma b = true.

Lemma split_on_nonempty (sep : ascii) (s : string) : split_on sep s <> [].
Proof.
  destruct s as [|c r]; simpl; [discriminate|].
  destruct (Ascii.eqb c sep); [discriminate|].
  destruct (split_on sep r); discriminate.
Qed.

Lemma split_on_no_sep (s : string) : Forall (fun p => no_comma p = true) (split_on "," s).
Proof.
  induction s as [|c r IH]; simpl.
  - repeat constructor.
  - destruct (Ascii.eqb c ",") eqn:E.
    + constructor; [reflexivity | exact IH].
    + destruct (split_on "," r) as [|p ps] eqn:S;
        [exfalso; exact (split_on_nonempty _ _ S)|].
      inversion IH; subst. constructor; auto.
      unfold no_comma in *. simpl. now rewrite E.
Qed.

Lemma split_on_single (s : string) : no_comma s = true -> split_on "," s = [s].
Proof.
  unfold no_comma. induction s as [|c r IH]; simpl; [reflexivity|].
  intros H. apply andb_prop in H. destruct H as [Hc Hr].
  apply negb_true_iff in Hc. rewrite Hc, (IH Hr). reflexivity.
Qed.

Lemma split_on_app (a b : string) :
  no_comma a = true -> split_on "," (a ++ String "," b) = a :: split_on "," b.
Proof.
  unfold no_comma. induction a as [|c r IH]; simpl; [reflexivity|].
  intros H. apply andb_prop in H. destruct H as [Hc Hr].
  apply negb_true_iff in Hc. rewrite Hc, (IH Hr). reflexivity.
Qed.

Lemma split_on_join (bs : list string) :
  bs <> [] -> Forall (fun b => no_comma b = true) bs ->
  split_on "," (join "," bs) = bs.
Proof.
  induction bs as [|b bs IH]; [congruence|]. intros _ F.
  inversion F; subst. destruct bs as [|b' bs'].
  - simpl. now apply split_on_single.
  - change (join "," (b :: b' :: bs'))
      with (b ++ String "," (join "," (b' :: bs'))).
    rewrite split_on_app by assumption. f_equal. apply IH; [discriminate | assumption].
Qed.

Lemma all_chars_trimStart (p : ascii -> bool) (s : string) :
  JsString.all_chars p s = true -> JsString.all_chars p (JsString.trimStart s) = true.
Proof.
  induction s as [|c r IH]; simpl; [auto|]. intros H.
  destruct (JsString.is_space c); [|exact H].
  apply andb_prop in H. apply IH, H.
Qed.

Lemma all_chars_trimEnd (p : ascii -> bool) (s : string) :
  JsString.all_chars p s = true -> JsString.all_chars p (JsString.trimEnd s) = true.
Proof.
  induction s as [|c r IH]; simpl; [auto|]. intros H.
  apply andb_prop in H. destruct H as [Hc Hr]. specialize (IH Hr).
  destruct (JsString.trimEnd r).
  - destruct (JsString.is_space c); simpl; [reflexivity | now rewrite Hc].
  - simpl in *. now rewrite Hc, IH.
Qed.

Lemma trim_all_space (s : string) :
  JsString.all_chars JsString.is_space s = true -> JsString.trim s = "".
Proof.
  unfold JsString.trim. intros H.
  assert (E : JsString.trimStart s = "").
  { induction s as [|c r IH]; simpl in *; [reflexivity|].
    apply andb_prop in H. destruct H as [Hc Hr]. rewrite Hc. auto. }
  now rewrite E.
Qed.

Lemma split_on_blank (s : string) :
  JsString.all_chars (fun c => JsString.is_space c || Ascii.eqb c ",") s = true ->
  Forall (fun p => JsString.all_chars JsString.is_space p = true) (split_on "," s).
Proof.
  induction s as [|c r IH]; simpl.
  - repeat constructor.
  - intros H. apply andb_prop in H. destruct H as [Hc Hr]. specialize (IH Hr).
    destruct (Ascii.eqb c ",") eqn:E.
    + constructor; [reflexivity | exact IH].
    + rewrite orb_false_r in Hc.
      destruct (split_on "," r) as [|p ps] eqn:S;
        [exfalso; exact (split_on_nonempty _ _ S)|].
      inversion IH; subst. constructor; auto. simpl. now rewrite Hc.
Qed.

Lemma join_truthy (bs : list string) :
  bs <> [] -> Forall broker_ok bs -> JsString.truthy (join "," bs) = true.
Proof.
  destruct bs as [|b bs]; [congruence|]. intros _ F. inversion F; subst.
  destruct H1 as (N & _). destruct b as [|c b]; [congruence|].
  destruct bs; reflexivity.
Qed.

Lemma split_on_all_chars (p : ascii -> bool) (s : string) :
  JsString.all_chars p s = true ->
  Forall (fun piece => JsString.all_chars p piece = true) (split_on "," s).
Proof.
  induction s as [|c r IH]; simpl.
  - repeat constructor.
  - intros H. apply andb_prop in H. destruct H as [Hc Hr]. specialize (IH Hr).
    destruct (Ascii.eqb c ",").
    + constructor; [reflexivity | exact IH].
    + destruct (split_on "," r) as [|piece pieces] eqn:S;
        [exfalso; exact (split_on_nonempty _ _ S)|].
      inversion IH; subst. constructor; auto. simpl. now rewrite Hc.
Qed.

Lemma ascii_only_trim (s : string) :
  ascii_only s = true -> ascii_only (JsString.trim s) = true.
Proof.
  unfold ascii_only, JsString.trim. intros A.
  now apply all_chars_trimEnd, all_chars_trimStart.
Qed.

Lemma space_or_comma_ascii (s : string) :
  JsString.all_chars (fun c => JsString.is_space c || Ascii.eqb c ",") s = true ->
  ascii_only s = true.
Proof.
  unfold ascii_only. induction s as [|c r IH]; simpl; [auto|]. intros H.
  apply andb_prop in H. destruct H as [Hc Hr]. rewrite (IH Hr), andb_true_r.
  revert Hc. clear. destruct c as [[] [] [] [] [] [] [] []]; vm_compute; congruence.
Qed.

(** X17.  The broker list read from the environment, where [trim] removes
    from ASCII text the white space TAB, LF, VT, FF, CR and SPACE at its
    two ends.  An unset or empty variable gives the default
    [localhost:9092].  A variable of ASCII text gives only usable entries:
    none is empty, none has white space around it, none contains a comma.
    A variable made of commas and that white space only gives an empty list
    (the service then starts without brokers).  Writing a list of usable
    ASCII entries with [join(',')], as the start-up log does, and reading it
    back gives the same list. *)
Theorem broker_list_parsed (env : option string) :
  trim_on_ascii ->
  ((forall s, env = Some s -> ascii_only s = true) ->
   Forall broker_ok (shippingKafkaBrokers env)) /\
  shippingKafkaBrokers None = ["localhost:9092"] /\
  shippingKafkaBrokers (Some "") = ["localhost:9092"] /\
  (forall s,
      s <> "" ->
      JsString.all_chars (fun c => JsString.is_space c || Ascii.eqb c ",") s = true ->
      shippingKafkaBrokers (Some s) = []) /\
  (forall bs,
      bs <> [] -> Forall broker_ok bs ->
      Forall (fun b => ascii_only b = true) bs ->
      shippingKafkaBrokers (Some (join "," bs)) = bs).
Proof.
  intros T.
  assert (Default : filter JsString.truthy (map trim (split_on "," "localhost:9092"))
                    = ["localhost:9092"]).
  { cbn [split_on Ascii.eqb Bool.eqb map]. simpl split_on. cbn [map].
    rewrite (T "localhost:9092" eq_refl). reflexivity. }
  split; [|split; [exact Default|split; [exact Default|split]]].
  - intros A. unfold shippingKafkaBrokers. rewrite Forall_forall. intros b Hin.
    apply filter_In in Hin. destruct Hin as [Hin Tb].
    apply in_map_iff in Hin. destruct Hin as (p & <- & Hp).
    assert (Atext : ascii_only (opt_or_else env "localhost:9092") = true).
    { destruct env as [s|]; [|reflexivity].
      simpl. unfold JsString.or_else.
      destruct (JsString.truthy s); [now apply A | reflexivity]. }
    pose proof (split_on_no_sep (opt_or_else env "localhost:9092")) as NS.
    rewrite Forall_forall in NS. specialize (NS p Hp).
    pose proof (split_on_all_chars _ _ Atext) as AS.
    rewrite Forall_forall in AS. specialize (AS p Hp). fold (ascii_only p) in AS.
    rewrite (T p AS) in Tb |- *.
    repeat split.
    + now apply truthy_nonempty.
    + rewrite (T _ (ascii_only_trim p AS)).
      unfold JsString.trim at 1. rewrite trimStart_trim. apply trimEnd_idempotent.
    + unfold no_comma, JsString.trim in *.
      now apply all_chars_trimEnd, all_chars_trimStart.
  - intros s N B. unfold shippingKafkaBrokers.
    apply truthy_nonempty in N. simpl opt_or_else. unfold JsString.or_else. rewrite N.
    pose proof (split_on_blank s B) as F.
    pose proof (split_on_all_chars _ _ (space_or_comma_ascii s B)) as AS.
    induction F as [|p ps Hp _ IH]; simpl; [reflexivity|].
    inversion AS; subst.
    rewrite (T p) by assumption.
    rewrite (trim_all_space p Hp). simpl. now apply IH.
  - intros bs N F A. unfold shippingKafkaBrokers.
    simpl opt_or_else. unfold JsString.or_else. rewrite (join_truthy bs N F).
    rewrite split_on_join.
    + clear N A. induction F as [|b bs (Nb & Tb & _) _ IH]; simpl; [reflexivity|].
      rewrite Tb. apply truthy_nonempty in Nb. now rewrite Nb, IH.
    + exact N.
    + eapply Forall_impl; [|exact F]. intros b (_ & _ & C). exact C.
Qed.

(** *** The plain [http] build: its body parser and its router *)

(** X18.  [POST /shipments] of the plain build, error by error, each a 400
    that leaves the process state unchanged: a body of more than 1 MiB is
    answered [Payload too large] (even if it is valid JSON); an empty body
    counts as [{}] and is answered as a missing [orderId]; a body
    [JSON.parse] rejects is answered [Invalid JSON body]; the body [null],
    which has no properties to read, is answered with the [TypeError]'s
    message; a body that parses to valid fields is answered 201. *)
Theorem plain_post_answers (raw : string) (w : World) :
  ((1024 * 1024 < Z.of_nat (String.length raw))%Z ->
   post_shipments_raw raw w =
     (Returned (Res 400 (JsonError "Payload too large")), w)) /\
  (raw = "" ->
   post_shipments_raw raw w =
     (Returned (Res 400 (JsonError "orderId must be a non-empty string")), w)) /\
  ((Z.of_nat (String.length raw) <= 1024 * 1024)%Z ->
   raw <> "" ->
   (JSON_parse raw = None ->
    post_shipments_raw raw w =
      (Returned (Res 400 (JsonError "Invalid JSON body")), w)) /\
   (JSON_parse raw = Some JNull ->
    post_shipments_raw raw w =
      (Returned
         (Res 400 (JsonError "Cannot read properties of null (reading 'orderId')")),
       w)) /\
   (forall payload o d,
       JSON_parse raw = Some payload ->
       valid_create_body payload o d ->
       exists w',
         post_shipments_raw raw w =
           (Returned (Res 201 (JsonShipment (toShipmentView (created_shipment o w)))),
            w'))).
Proof.
  split; [|split].
  - intros L. apply Z.ltb_lt in L.
    unfold post_shipments_raw, try_catch, parseBody. rewrite L. reflexivity.
  - intros ->. reflexivity.
  - intros L N. apply Z.ltb_ge in L. apply truthy_nonempty in N.
    unfold post_shipments_raw, try_catch, parseBody. rewrite L, N.
    simpl negb. cbv iota.
    split; [|split].
    + intros ->. reflexivity.
    + intros ->. reflexivity.
    + intros payload o d -> V.
      destruct (create_shipment_created payload o d w V) as (w' & E & _).
      exists w'. unfold bind at 1, ret at 1. now rewrite E.
Qed.









(** *** Start-up and shutdown of the Kafka links *)

(** What the start-up reads besides [Config]: the bind address (the port
    as [console.log] prints it), the broker list and the command topic. *)
Record Boot : Type := mkBoot {
  host : string;
  port_text : string;
  brokers : list string;
  dispatchCommandTopic : string
}.

(** How the broker answers each awaited call: [None] when the promise
    resolves, the rejection otherwise. *)
Record KafkaAnswers : Type := mkAnswers {
  consumer_connect : option JsError;
  producer_connect : option JsError;
  consumer_subscribe : option JsError;
  consumer_run : option JsError;
  consumer_disconnect : option JsError;
  producer_disconnect : option JsError
}.

(** The links of the process: the two connections, the [kafkaConnected]
    flag, the subscription and the running consumer, the two console
    streams and the exit code once [process.exit] has been called. *)
Record Links : Type := mkLinks {
  consumer_connected : bool;
  producer_connected : bool;
  kafkaConnected : bool;
  subscribed : bool;
  consuming : bool;
  stdout : list string;
  stderr : list string;
  exited : option Z
}.

Definition no_links : Links :=
  {| consumer_connected := false; producer_connected := false;
     kafkaConnected := false; subscribed := false; consuming := false;
     stdout := []; stderr := []; exited := None |}.

(** [async function startDispatchCommandConsumer()]: four awaits in a row,
    the flag set after the second; a rejection ends the function there. *)
Definition startDispatchCommandConsumer (a : KafkaAnswers) (l : Links)
  : outcome unit * Links :=
  match consumer_connect a with
  | Some e => (Thrown e, l)
  | None =>
      let l1 :=
        {| consumer_connected := true; producer_connected := producer_connected l;
           kafkaConnected := kafkaConnected l; subscribed := subscribed l;
           consuming := consuming l; stdout := stdout l; stderr := stderr l;
           exited := exited l |} in
      match producer_connect a with
      | Some e => (Thrown e, l1)
      | None =>
          let l2 :=
            {| consumer_connected := true; producer_connected := true;
               kafkaConnected := true; subscribed := subscribed l;
               consuming := consuming l; stdout := stdout l; stderr := stderr l;
               exited := exited l |} in
          match consumer_subscribe a with
          | Some e => (Thrown e, l2)
          | None =>
              let l3 :=
                {| consumer_connected := true; producer_connected := true;
                   kafkaConnected := true; subscribed := true;
                   consuming := consuming l; stdout := stdout l; stderr := stderr l;
                   exited := exited l |} in
              match consumer_run a with
              | Some e => (Thrown e, l3)
              | None =>
                  (Returned tt,
                   {| consumer_connected := true; producer_connected := true;
                      kafkaConnected := true; subscribed := true;
                      consuming := true; stdout := stdout l; stderr := stderr l;
                      exited := exited l |})
              end
          end
      end
  end.

Definition console_log (line : string) (l : Links) : Links :=
  {| consumer_connected := consumer_connected l;
     producer_connected := producer_connected l;
     kafkaConnected := kafkaConnected l; subscribed := subscribed l;
     consuming := consuming l; stdout := (stdout l ++ [line])%list;
     stderr := stderr l; exited := exited l |}.

Definition console_error_line (line : string) (l : Links) : Links :=
  {| consumer_connected := consumer_connected l;
     producer_connected := producer_connected l;
     kafkaConnected := kafkaConnected l; subscribed := subscribed l;
     consuming := consuming l; stdout := stdout l;
     stderr := (stderr l ++ [line])%list; exited := exited l |}.

(** The callback of [app.listen]: the listening line, then the start of the
    consumer with its [then] and [catch]. *)
Definition on_listening (b : Boot) (a : KafkaAnswers) (l : Links) : Links :=
  let l1 :=
    console_log ("shipping-service listening on http://" ++ host b ++ ":"
                   ++ port_text b) l in
  match startDispatchCommandConsumer a l1 with
  | (Returned _, l2) =>
      console_log
        ("shipping-service kafka listener started on brokers="
           ++ join "," (brokers b) ++ " topic=" ++ dispatchCommandTopic b) l2
  | (Thrown e, l2) =>
      console_error_line
        ("shipping-service kafka listener failed to start: " ++ error_message e) l2
  end.

(** [async function shutdown()]: both disconnects are settled, whatever
    their outcome, only when the flag is set; then [process.exit(0)]. *)
Definition shutdown (a : KafkaAnswers) (l : Links) : Links :=
  let l1 :=
    if kafkaConnected l then
      {| consumer_connected :=
           match consumer_disconnect a with
           | None => false
           | Some _ => consumer_connected l
           end;
         producer_connected :=
           match producer_disconnect a with
           | None => false
           | Some _ => producer_connected l
           end;
         kafkaConnected := kafkaConnected l; subscribed := subscribed l;
         consuming := consuming l; stdout := stdout l; stderr := stderr l;
         exited := exited l |}
    else l in
  {| consumer_connected := consumer_connected l1;
     producer_connected := producer_connected l1;
     kafkaConnected := kafkaConnected l1; subscribed := subscribed l1;
     consuming := consuming l1; stdout := stdout l1; stderr := stderr l1;
     exited := Some 0%Z |}.

(** X20.  Start-up and shutdown of the Kafka links.  After the listen
    callback, [kafkaConnected] is set exactly when both connects succeeded
    (a later failure to subscribe or to run leaves it set), the consumer is
    consuming exactly when all four calls succeeded, and exactly one line
    follows the listening line: the started line on success, otherwise one
    error line with the message of the first rejection.  [shutdown] always
    exits with code 0; it closes both links when the flag is set and both
    disconnects succeed; when the consumer connected and the producer did
    not, the flag is not set and the consumer's connection is left open. *)
Theorem kafka_links_lifecycle (b : Boot) (a : KafkaAnswers) :
  let l := on_listening b a no_links in
  (kafkaConnected l = true <->
   consumer_connect a = None /\ producer_connect a = None) /\
  (consuming l = true <->
   consumer_connect a = None /\ producer_connect a = None /\
   consumer_subscribe a = None /\ consumer_run a = None) /\
  (consuming l = true -> List.length (stdout l) = 2 /\ stderr l = []) /\
  (consuming l = false ->
   List.length (stdout l) = 1 /\
   exists e,
     stderr l = ["shipping-service kafka listener failed to start: "
                   ++ error_message e] /\
     (consumer_connect a = Some e \/
      consumer_connect a = None /\ producer_connect a = Some e \/
      consumer_connect a = None /\ producer_connect a = None /\
      consumer_subscribe a = Some e \/
      consumer_connect a = None /\ producer_connect a = None /\
      consumer_subscribe a = None /\ consumer_run a = Some e)) /\
  exited (shutdown a l) = Some 0%Z /\
  (kafkaConnected l = true ->
   consumer_disconnect a = None -> producer_disconnect a = None ->
   consumer_connected (shutdown a l) = false /\
   producer_connected (shutdown a l) = false) /\
  (forall e,
      consumer_connect a = None -> producer_connect a = Some e ->
      consumer_connected (shutdown a l) = true).
Proof.
  unfold on_listening, startDispatchCommandConsumer, shutdown.
  destruct a as [cc pc cs cr cd pd]. simpl.
  destruct cc as [e1|], pc as [e2|], cs as [e3|], cr as [e4|]; simpl;
    (repeat split; intros; try discriminate; try congruence; auto;
     try (match goal with H : _ /\ _ |- _ => decompose [and] H; discriminate end);
     try (eexists; split; [reflexivity|]; auto 10);
     try (destruct cd, pd; simpl; congruence)).
Qed.

(** *** What [POST /shipments] keeps of its body *)

(** The statements of the [try] block after the two checks. *)
Definition store_created (orderId : string) : M Response :=
  shipmentId <- randomUUID ;;
  shipments_set shipmentId
    {| shipmentId := shipmentId; orderId := orderId; carrier := "ACME_SHIP";
       trackingNumber := makeTrackingNumber shipmentId; status := CREATED;
       cancelledAt := None |} ;;
  notify (fun notificationId =>
            {| notificationId := notificationId;
               n_requestId := shipmentId;
               title := "ShipmentCreated";
               body := "Shipment " ++ shipmentId ++ " created for order " ++ orderId;
               priority := NORMAL |}) ;;
  ret (Res 201
         (JsonShipment
            (toShipmentView
               {| shipmentId := shipmentId; orderId := orderId;
                  carrier := "ACME_SHIP";
                  trackingNumber := makeTrackingNumber shipmentId;
                  status := CREATED; cancelledAt := None |}))).

Lemma post_shipments_valid (req_body : JsValue) (o d : string) (w : World) :
  valid_create_body req_body o d ->
  post_shipments req_body w = store_created o w.
Proof.
  intros V. destruct (valid_create_body_object _ _ _ V) as (props & ->).
  pose proof V as (o' & d' & Ho & Hd & -> & -> & No & Nd).
  apply truthy_nonempty in No, Nd.
  destruct (create_shipment_created _ _ _ w V) as (w' & E & _).
  assert (C : create_shipment (JObj props) w = store_created (trim o') w).
  { unfold create_shipment, get_prop.
    unfold bind at 1, ret at 1. rewrite Ho. cbv zeta.
    unfold bind at 1, ret at 1. rewrite Hd. cbv zeta.
    cbn [Js.typeof_string Js.as_string].
    rewrite No, Nd. cbn [negb]. reflexivity. }
  unfold post_shipments, try_catch. simpl Js.truthy. cbv iota.
  rewrite <- C, E. reflexivity.
Qed.

(** X15.  [POST /shipments] keeps the [orderId] with the white space
    around it removed and nothing of the [destinationPostalCode].  For a
    body with two string fields of ASCII text, from which [trim] removes the
    white space TAB, LF, VT, FF, CR and SPACE at the two ends: if either
    field is white space only the answer is 400 and the state is unchanged;
    otherwise the answer is 201 and the orderId answered and stored is the
    submitted one without the white space before and after it (it is not
    empty, has none left at either end, and submitting it again stores the
    same orderId). *)
Theorem create_trims_orderId (req_body : JsValue) (o' d' : string) (w : World) :
  trim_on_ascii ->
  ascii_only o' = true ->
  ascii_only d' = true ->
  Js.prop req_body "orderId" = JStr o' ->
  Js.prop req_body "destinationPostalCode" = JStr d' ->
  (JsString.all_chars JsString.is_space o' = true \/
   JsString.all_chars JsString.is_space d' = true ->
   exists message,
     post_shipments req_body w = (Returned (Res 400 (JsonError message)), w)) /\
  (JsString.all_chars JsString.is_space o' = false ->
   JsString.all_chars JsString.is_space d' = false ->
   exists view w',
     post_shipments req_body w = (Returned (Res 201 (JsonShipment view)), w') /\
     JsMap.get (shipmentId view) (shipments w') <> None /\
     (exists lead trail,
         o' = lead ++ orderId view ++ trail /\
         JsString.all_chars JsString.is_space lead = true /\
         JsString.all_chars JsString.is_space trail = true) /\
     orderId view <> "" /\
     JsString.trimStart (orderId view) = orderId view /\
     JsString.trimEnd (orderId view) = orderId view /\
     trim (orderId view) = orderId view).
Proof.
  intros T Ao Ad Ho Hd.
  destruct (trim_exact o') as (Dec & TS & TE & TT & Emp).
  destruct (trim_exact d') as (_ & _ & _ & _ & Emp').
  pose proof (T o' Ao) as To. pose proof (T d' Ad) as Td.
  split.
  - intros Blank.
    assert (N : ~ (exists o d, valid_create_body req_body o d)).
    { intros (o & d & o1 & d1 & Ho1 & Hd1 & -> & -> & No & Nd).
      rewrite Ho in Ho1. rewrite Hd in Hd1. inversion Ho1; inversion Hd1; subst.
      rewrite To in No. rewrite Td in Nd.
      destruct Blank as [B | B]; [apply No, Emp, B | apply Nd, Emp', B]. }
    assert (Tr : Js.truthy req_body = true)
      by (destruct req_body; simpl in Ho; try discriminate Ho; reflexivity).
    unfold post_shipments, try_catch. rewrite Tr.
    destruct (create_shipment_refused req_body w N) as [(m & E) | (e & E)];
      rewrite E; eexists; reflexivity.
  - intros No Nd.
    assert (V : valid_create_body req_body (trim o') (trim d')).
    { exists o', d'. repeat split; auto.
      - rewrite To. intros E. apply Emp in E. congruence.
      - rewrite Td. intros E. apply Emp' in E. congruence. }
    destruct (valid_create_body_object _ _ _ V) as (props & ->).
    destruct (create_shipment_created _ _ _ w V) as (w' & E & Hs).
    exists (toShipmentView (created_shipment (trim o') w)), w'.
    unfold post_shipments, try_catch. simpl Js.truthy. cbv iota. rewrite E.
    split; [reflexivity|]. simpl shipmentId. simpl orderId. rewrite To.
    repeat split; auto.
    + rewrite Hs, JsMap_get_set_same. discriminate.
    + intros B. apply Emp in B. congruence.
    + now rewrite (T _ (ascii_only_trim o' Ao)).
Qed.

(** X21.  The postal code is checked and then dropped: two bodies the
    handler accepts, whose orderIds are the same once trimmed, get the same
    response and leave the same state, whatever their postal codes and other
    fields; no record, view or notification carries the postal code. *)
Theorem postal_code_only_checked (body1 body2 : JsValue) (o d1 d2 : string) (w : World) :
  valid_create_body body1 o d1 ->
  valid_create_body body2 o d2 ->
  post_shipments body1 w = post_shipments body2 w.
Proof.
  intros V1 V2.
  now rewrite (post_shipments_valid _ _ _ w V1), (post_shipments_valid _ _ _ w V2).
Qed.

End Service.

(* ===================================================================== *)
(** ** The service on concrete inputs *)
(* ===================================================================== *)

Module Scenario.

(** The build of [src/index.ts] with the reference builtins, a healthy
    broker and the reference runs of [randomUUID] and of the clock. *)
Definition serve : Request -> M (option Response) :=
  handle Sample.kafka_build Sample.randomUUID_at Sample.toISOString_at
    Sample.send_ok Sample.JSON_parse Sample.Date_parse_isNaN
    Sample.decodeURIComponent Sample.trim Sample.toUpperCase.

Definition consume : option string -> M unit :=
  eachMessage Sample.kafka_build Sample.randomUUID_at Sample.toISOString_at
    Sample.send_ok Sample.JSON_parse Sample.Date_parse_isNaN Sample.toUpperCase.

Definition cancel : string -> M Response :=
  post_cancel Sample.kafka_build Sample.randomUUID_at Sample.toISOString_at
    Sample.send_ok Sample.decodeURIComponent Sample.toUpperCase.

Definition create : JsValue -> M Response :=
  post_shipments Sample.kafka_build Sample.randomUUID_at Sample.send_ok
    Sample.trim Sample.toUpperCase.

(** A broker that rejects every send. *)
Definition create_broker_down : JsValue -> M Response :=
  post_shipments Sample.kafka_build Sample.randomUUID_at Sample.send_down
    Sample.trim Sample.toUpperCase.

Definition create_plain : string -> M Response :=
  post_shipments_raw Sample.plain_build Sample.randomUUID_at Sample.send_ok
    Sample.JSON_parse Sample.trim Sample.toUpperCase.

Definition valid_text : string :=
  Sample.json_text
    "{'messageId':'m0','requestId':'r0','orderId':'o-1','carrier':'','requestedAt':'2024-05-01T10:00:00Z'}".

Definition valid_payload : JsValue :=
  JObj [("messageId", JStr "m0"); ("requestId", JStr "r0");
        ("orderId", JStr "o-1"); ("carrier", JStr "");
        ("requestedAt", JStr "2024-05-01T10:00:00Z")].

Definition valid_command : DispatchCommandEvent :=
  {| c_messageId := "m0"; c_requestId := "r0"; c_orderId := "o-1";
     c_carrier := ""; requestedAt := "2024-05-01T10:00:00Z" |}.

(** The scenario of the specification: [requestedAt] is not a date. *)
Definition undated_text : string :=
  Sample.json_text
    "{'messageId':'m1','requestId':'r1','orderId':'o-2','carrier':'','requestedAt':'not-a-date'}".

Definition undated_payload : JsValue :=
  JObj [("messageId", JStr "m1"); ("requestId", JStr "r1");
        ("orderId", JStr "o-2"); ("carrier", JStr "");
        ("requestedAt", JStr "not-a-date")].

Definition undated_command : DispatchCommandEvent :=
  {| c_messageId := "m1"; c_requestId := "r1"; c_orderId := "o-2";
     c_carrier := ""; requestedAt := "not-a-date" |}.

(** A command without its [carrier]. *)
Definition partial_text : string :=
  Sample.json_text
    "{'messageId':'m2','requestId':'r2','orderId':'o-3','requestedAt':'2024-05-01T10:00:00Z'}".

Definition partial_payload : JsValue :=
  JObj [("messageId", JStr "m2"); ("requestId", JStr "r2");
        ("orderId", JStr "o-3");
        ("requestedAt", JStr "2024-05-01T10:00:00Z")].

(** The scenario of the specification for [POST /shipments]. *)
Definition create_body : JsValue :=
  JObj [("orderId", JStr "o-1"); ("destinationPostalCode", JStr "10001")].







(** The registry after [POST /shipments/abc/cancel] on a fresh process. *)
Definition after_cancel_abc : World := snd (cancel "abc" empty_world).

End Scenario.

Example valid_text_parses :
  Sample.JSON_parse Scenario.valid_text = Some Scenario.valid_payload.
Proof. vm_compute. reflexivity. Qed.

Example undated_text_parses :
  Sample.JSON_parse Scenario.undated_text = Some Scenario.undated_payload.
Proof. vm_compute. reflexivity. Qed.

Example partial_text_parses :
  Sample.JSON_parse Scenario.partial_text = Some Scenario.partial_payload.
Proof. vm_compute. reflexivity. Qed.

Example empty_text_rejected : Sample.JSON_parse "" = None.
Proof. reflexivity. Qed.

Example makeTrackingNumber_sample :
  makeTrackingNumber
    Sample.toUpperCase "3f2a9c1e-7b4d-4e8a-9c0f-5d6e7f8a9b0c" = "TRK-3F2A9C1E7B4D".
Proof. reflexivity. Qed.

Lemma valid_payload_structure :
  structurally_valid Scenario.valid_payload Scenario.valid_command.
Proof. eexists; repeat split; reflexivity. Qed.

Lemma undated_payload_structure :
  structurally_valid Scenario.undated_payload Scenario.undated_command.
Proof. eexists; repeat split; reflexivity. Qed.

Lemma partial_payload_structure :
  ~ (exists command, structurally_valid Scenario.partial_payload command).
Proof.
  intros (command & props & E & _ & _ & _ & Hc & _).
  inversion E; subst props. discriminate Hc.
Qed.

Lemma create_body_valid : valid_create_body
  Sample.trim Scenario.create_body "o-1" "10001".
Proof.
  exists "o-1", "10001". repeat split; try reflexivity; discriminate.
Qed.

Lemma sample_uuid_never_abc (n : nat) : Sample.randomUUID_at n <> "abc".
Proof. do 5 (destruct n as [|n]; [discriminate|]). discriminate. Qed.

(** C1, counterexample.  On the accepted command of the scenario the
    consumer stores, under a shipmentId that was not in the registry, a
    record whose trackingNumber is not the one derived from its
    shipmentId. *)
Lemma tracking_number_not_from_shipmentId :
  ~ tracking_derived_from_id
      Sample.kafka_build Sample.randomUUID_at Sample.toISOString_at
      Sample.send_ok Sample.JSON_parse Sample.Date_parse_isNaN
      Sample.decodeURIComponent Sample.trim Sample.toUpperCase
      (DispatchMessage (Some Scenario.valid_text)) empty_world.
Proof.
  intros H.
  specialize (H "0f9e8d7c-6b5a-4f3e-9d2c-1b0a9f8e7d6c"
                {| shipmentId := "0f9e8d7c-6b5a-4f3e-9d2c-1b0a9f8e7d6c";
                   orderId := "o-1";
                   carrier := "ACME_SHIP";
                   trackingNumber := "TRK-A1B2C3D4E5F6";
                   status := CREATED;
                   cancelledAt := None |}
                eq_refl).
  assert (G : trackingNumber
                {| shipmentId := "0f9e8d7c-6b5a-4f3e-9d2c-1b0a9f8e7d6c";
                   orderId := "o-1";
                   carrier := "ACME_SHIP";
                   trackingNumber := "TRK-A1B2C3D4E5F6";
                   status := CREATED;
                   cancelledAt := None |}
              = makeTrackingNumber
                Sample.toUpperCase "0f9e8d7c-6b5a-4f3e-9d2c-1b0a9f8e7d6c")
    by (apply H; vm_compute; reflexivity).
  vm_compute in G. discriminate G.
Qed.

Lemma tracking_number_provenance_witness :
  (exists rec,
      JsMap.get (Sample.randomUUID_at 0)
        (shipments (snd (Scenario.create Scenario.create_body empty_world))) = Some rec /\
      shipmentId rec = Sample.randomUUID_at 0 /\
      trackingNumber rec = makeTrackingNumber Sample.toUpperCase (shipmentId rec)) /\
  (exists rec,
      JsMap.get (Sample.randomUUID_at 2)
        (shipments (snd (Scenario.consume (Some Scenario.valid_text) empty_world)))
        = Some rec /\
      trackingNumber rec = makeTrackingNumber
        Sample.toUpperCase (Sample.randomUUID_at 1)) /\
  (exists rec,
      JsMap.get "abc"
        (shipments (snd (Scenario.serve (POST_cancel "abc") Scenario.after_cancel_abc)))
        = Some rec /\
      trackingNumber rec = "TRK-ABC").
Proof.
  destruct (tracking_number_provenance
              Sample.kafka_build Sample.randomUUID_at Sample.toISOString_at
              Sample.send_ok Sample.JSON_parse Sample.Date_parse_isNaN
              Sample.decodeURIComponent Sample.trim Sample.toUpperCase) as (A & B & C).
  split; [|split].
  - exact (A Scenario.create_body "o-1" "10001" empty_world create_body_valid).
  - destruct (B Scenario.valid_text Scenario.valid_payload Scenario.valid_command
                empty_world valid_text_parses valid_payload_structure eq_refl)
      as (rec & w' & -> & G & _ & T & _).
    exists rec. split; [exact G | exact T].
  - destruct (C (POST_cancel "abc") Scenario.after_cancel_abc "abc"
                (cancelled_record Sample.toISOString_at
                  Sample.toUpperCase "abc" empty_world)
                eq_refl (fun n _ => sample_uuid_never_abc n))
      as (rec & G & T & _).
    exists rec. split; [exact G | exact T].
Defined.

Lemma dispatch_accepted_witness :
  exists (w' : World) (created : Shipment) (reply : FulfillmentReplyEvent),
    Scenario.consume (Some Scenario.valid_text) empty_world = (Returned tt, w') /\
    shipments w' = [(Sample.randomUUID_at 2, created)] /\
    status created = CREATED /\
    orderId created = "o-1" /\
    carrier created = "ACME_SHIP" /\
    produced w' =
      [ {| topic := "queue.order.fulfillment.reply"; key := "o-1";
           value := ReplyJson reply |} ] /\
    r_status reply = ACCEPTED /\
    trackingId reply = Some (trackingNumber created) /\
    r_requestId reply = "r0".
Proof.
  destruct (dispatch_accepted
              Sample.kafka_build Sample.randomUUID_at Sample.toISOString_at
              Sample.send_ok Sample.JSON_parse Sample.Date_parse_isNaN Sample.toUpperCase
              Scenario.valid_text Scenario.valid_payload Scenario.valid_command
              empty_world valid_text_parses valid_payload_structure eq_refl)
    as (w' & created & reply & E & _ & Fresh & _ & Hst & Ho & Hc & Hp & Hr & Ht & Hq).
  destruct (Fresh eq_refl) as (Hs & _).
  exists w', created, reply. repeat split; assumption.
Defined.

Lemma dispatch_rejected_witness :
  exists (w' : World) (reply : FulfillmentReplyEvent),
    Scenario.consume (Some Scenario.undated_text) empty_world = (Returned tt, w') /\
    shipments w' = [] /\
    produced w' =
      [ {| topic := "queue.order.fulfillment.reply"; key := "o-2";
           value := ReplyJson reply |} ] /\
    r_status reply = REJECTED /\
    rejectionReason reply = Some "Invalid requestedAt" /\
    r_requestId reply = "r1" /\
    r_orderId reply = "o-2" /\
    trackingId reply = None.
Proof.
  exact (dispatch_rejected
           Sample.kafka_build Sample.randomUUID_at Sample.toISOString_at
           Sample.send_ok Sample.JSON_parse Sample.Date_parse_isNaN Sample.toUpperCase
           Scenario.undated_text Scenario.undated_payload Scenario.undated_command
           empty_world undated_text_parses undated_payload_structure eq_refl).
Defined.

Lemma malformed_message_dropped_witness :
  Scenario.consume None Scenario.after_cancel_abc = (Returned tt, Scenario.after_cancel_abc) /\
  Scenario.consume (Some "") Scenario.after_cancel_abc
    = (Returned tt, Scenario.after_cancel_abc) /\
  Scenario.consume (Some "{not json") Scenario.after_cancel_abc
    = (Returned tt, Scenario.after_cancel_abc) /\
  Scenario.consume (Some Scenario.partial_text) Scenario.after_cancel_abc
    = (Returned tt, Scenario.after_cancel_abc).
Proof.
  pose proof (malformed_message_dropped
                Sample.kafka_build Sample.randomUUID_at Sample.toISOString_at
                Sample.send_ok Sample.JSON_parse Sample.Date_parse_isNaN
                  Sample.toUpperCase) as D.
  split; [|split; [|split]].
  - apply D. left. reflexivity.
  - apply D. right. left. exists "". split; reflexivity.
  - apply D. right. left. exists "{not json". split; reflexivity.
  - apply D. right. right.
    exists Scenario.partial_text, Scenario.partial_payload.
    split; [reflexivity|].
    split; [exact partial_text_parses | exact partial_payload_structure].
Defined.

(** C5, counterexample.  With an empty registry and no filter the route
    answers with one synthesized record, not with the (empty) list of the
    stored records. *)
Lemma list_placeholder_without_filter :
  fst (get_shipments Sample.randomUUID_at Sample.toUpperCase QAbsent empty_world) =
    Returned
      (Res 200
         (JsonShipments
            [ {| shipmentId := "3f2a9c1e-7b4d-4e8a-9c0f-5d6e7f8a9b0c";
                 orderId := "order-default";
                 carrier := "ACME_SHIP";
                 trackingNumber := "TRK-A1B2C3D4E5F6";
                 status := IN_TRANSIT;
                 cancelledAt := None |} ])) /\
  fst (get_shipments Sample.randomUUID_at Sample.toUpperCase QAbsent empty_world) <>
    Returned
      (Res 200
         (JsonShipments (map toShipmentView (JsMap.values (shipments empty_world))))).
Proof.
  split; [vm_compute; reflexivity | vm_compute; discriminate].
Qed.

Lemma list_shipments_spec_witness :
  fst (get_shipments Sample.randomUUID_at
    Sample.toUpperCase (QString "order-abc") Scenario.after_cancel_abc)
    = Returned
        (Res 200
           (JsonShipments
              [ {| shipmentId := "abc"; orderId := "order-abc";
                   carrier := "ACME_SHIP"; trackingNumber := "TRK-ABC";
                   status := CANCELLED; cancelledAt := None |} ])) /\
  fst (get_shipments Sample.randomUUID_at
    Sample.toUpperCase (QString "o-9") Scenario.after_cancel_abc)
    = Returned (Res 200 (JsonShipments [])) /\
  fst (get_shipments Sample.randomUUID_at Sample.toUpperCase (QString "o-9") empty_world)
    = Returned
        (Res 200
           (JsonShipments
              [ {| shipmentId := "3f2a9c1e-7b4d-4e8a-9c0f-5d6e7f8a9b0c";
                   orderId := "o-9";
                   carrier := "ACME_SHIP"; trackingNumber := "TRK-A1B2C3D4E5F6";
                   status := IN_TRANSIT; cancelledAt := None |} ])).
Proof.
  split; [|split].
  - destruct (list_shipments_spec Sample.randomUUID_at
    Sample.toUpperCase (QString "order-abc")
                Scenario.after_cancel_abc) as (NE & _).
    rewrite NE; [reflexivity | discriminate].
  - destruct (list_shipments_spec Sample.randomUUID_at Sample.toUpperCase (QString "o-9")
                Scenario.after_cancel_abc) as (NE & _).
    rewrite NE; [reflexivity | discriminate].
  - destruct (list_shipments_spec Sample.randomUUID_at
    Sample.toUpperCase (QString "o-9") empty_world)
      as (_ & EM & _).
    rewrite EM; reflexivity.
Defined.

Lemma get_shipment_always_200_witness :
  get_shipment Sample.decodeURIComponent
    Sample.toUpperCase "no%2Dsuch" Scenario.after_cancel_abc =
    (Returned
       (Res 200
          (JsonShipment
             {| shipmentId := "no-such"; orderId := "order-no-such";
                carrier := "ACME_SHIP"; trackingNumber := "TRK-NOSUCH";
                status := IN_TRANSIT; cancelledAt := None |})),
     Scenario.after_cancel_abc) /\
  get_shipment Sample.decodeURIComponent
    Sample.toUpperCase "abc" Scenario.after_cancel_abc =
    (Returned
       (Res 200
          (JsonShipment
             {| shipmentId := "abc"; orderId := "order-abc";
                carrier := "ACME_SHIP"; trackingNumber := "TRK-ABC";
                status := CANCELLED; cancelledAt := None |})),
     Scenario.after_cancel_abc).
Proof.
  split.
  - exact (proj1 (get_shipment_always_200 Sample.decodeURIComponent Sample.toUpperCase
                    "no%2Dsuch" "no-such" Scenario.after_cancel_abc eq_refl)).
  - exact (proj1 (get_shipment_always_200 Sample.decodeURIComponent Sample.toUpperCase
                    "abc" "abc" Scenario.after_cancel_abc eq_refl)).
Defined.

Lemma cancel_twice_witness :
  exists (w1 w2 : World) (c1 c2 : Shipment),
    Scenario.cancel "abc" empty_world
      = (Returned (Res 200 (JsonShipment (toShipmentView c1))), w1) /\
    Scenario.cancel "abc" w1
      = (Returned (Res 200 (JsonShipment (toShipmentView c2))), w2) /\
    status c1 = CANCELLED /\ status c2 = CANCELLED /\
    cancelledAt c1 = Some "2024-05-01T10:00:00.000Z" /\
    cancelledAt c2 = Some "2024-05-01T10:00:01.000Z" /\
    shipmentId c2 = shipmentId c1 /\ orderId c2 = orderId c1 /\
    carrier c2 = carrier c1 /\ trackingNumber c2 = trackingNumber c1.
Proof.
  destruct (cancel_twice
              Sample.kafka_build Sample.randomUUID_at Sample.toISOString_at
              Sample.send_ok Sample.decodeURIComponent
                Sample.toUpperCase "abc" "abc" empty_world eq_refl)
    as (w1 & w2 & c1 & c2 & E1 & E2 & _ & _ & S1 & S2 & T1 & T2 & R).
  exists w1, w2, c1, c2. repeat split; try assumption; apply R.
Defined.

Lemma cancel_unknown_creates_witness :
  exists w',
    Scenario.cancel "abc" empty_world =
      (Returned
         (Res 200
            (JsonShipment
               {| shipmentId := "abc"; orderId := "order-abc";
                  carrier := "ACME_SHIP"; trackingNumber := "TRK-ABC";
                  status := CANCELLED; cancelledAt := None |})),
       w') /\
    shipments w' =
      [("abc",
        {| shipmentId := "abc"; orderId := "order-abc";
           carrier := "ACME_SHIP"; trackingNumber := "TRK-ABC";
           status := CANCELLED;
           cancelledAt := Some "2024-05-01T10:00:00.000Z" |})].
Proof.
  destruct (cancel_unknown_creates
              Sample.kafka_build Sample.randomUUID_at Sample.toISOString_at
              Sample.send_ok Sample.decodeURIComponent
                Sample.toUpperCase "abc" "abc" empty_world
              eq_refl eq_refl)
    as (w' & E & Hs & _).
  exists w'. split; [exact E | exact Hs].
Defined.

Lemma sample_trim_on_ascii : trim_on_ascii Sample.trim.
Proof. intros s _. reflexivity. Qed.

Lemma sample_toUpperCase_on_ascii : toUpperCase_on_ascii Sample.toUpperCase.
Proof. intros s _. reflexivity. Qed.





(* ===================================================================== *)
(** ** The further properties on concrete inputs *)
(* ===================================================================== *)

Module Walk.

Definition serve_all : list Request -> World -> World :=
  serve_all Sample.kafka_build Sample.randomUUID_at Sample.toISOString_at
    Sample.send_ok Sample.JSON_parse Sample.Date_parse_isNaN
    Sample.decodeURIComponent Sample.trim Sample.toUpperCase.

(** The same service in front of a broker that rejects every send. *)
Definition serve_broker_down : Request -> M (option Response) :=
  handle Sample.kafka_build Sample.randomUUID_at Sample.toISOString_at
    Sample.send_down Sample.JSON_parse Sample.Date_parse_isNaN
    Sample.decodeURIComponent Sample.trim Sample.toUpperCase.

Definition consume_broker_down : option string -> M unit :=
  eachMessage Sample.kafka_build Sample.randomUUID_at Sample.toISOString_at
    Sample.send_down Sample.JSON_parse Sample.Date_parse_isNaN Sample.toUpperCase.


(** A creation, an accepted command, a cancellation of an unknown id, a
    listing and the same cancellation again. *)
Definition requests : list Request :=
  [ POST_shipments Scenario.create_body;
    DispatchMessage (Some Scenario.valid_text);
    POST_cancel "abc";
    GET_shipments QAbsent;
    POST_cancel "abc" ].

Definition reads : list Request :=
  [ GET_shipment "abc"; GET_shipments (QString "o-9"); Unmatched;
    GET_shipment "%zz"; GET_shipment "unknown" ].

(** One character more than [parseBody] accepts. *)
Definition over_limit : nat := Z.to_nat (1024 * 1024 + 1).

(** [n] spaces. *)
Fixpoint spaces (n : nat) : string :=
  match n with
  | O => EmptyString
  | S k => String " " (spaces k)
  end.

Definition cancelled_abc_view : Shipment :=
  {| shipmentId := "abc"; orderId := "order-abc";
     carrier := "ACME_SHIP"; trackingNumber := "TRK-ABC";
     status := CANCELLED; cancelledAt := None |}.

Definition a_notification : AnalyticsNotificationEvent :=
  {| notificationId := "a1b2c3d4-e5f6-4a7b-8c9d-0e1f2a3b4c5d";
     n_requestId := "3f2a9c1e-7b4d-4e8a-9c0f-5d6e7f8a9b0c";
     title := "ShipmentCreated";
     body := "Shipment 3f2a9c1e-7b4d-4e8a-9c0f-5d6e7f8a9b0c created for order o-1";
     priority := NORMAL |}.

End Walk.

Lemma spaces_length (n : nat) : String.length (Walk.spaces n) = n.
Proof. induction n as [|n IH]; simpl; auto. Qed.

Lemma registry_stays_well_formed_witness :
  registry_ok (shipments (Walk.serve_all Walk.requests empty_world)).
Proof.
  apply registry_stays_well_formed. split; constructor.
Defined.

Lemma stored_record_only_cancelled_witness :
  exists rec',
    JsMap.get "abc" (shipments (Walk.serve_all Walk.requests Scenario.after_cancel_abc))
      = Some rec' /\
    orderId rec' = "order-abc" /\
    trackingNumber rec' = "TRK-ABC" /\
    status rec' = CANCELLED.
Proof.
  destruct (stored_record_only_cancelled
              Sample.kafka_build Sample.randomUUID_at Sample.toISOString_at
              Sample.send_ok Sample.JSON_parse Sample.Date_parse_isNaN
              Sample.decodeURIComponent Sample.trim Sample.toUpperCase
              Walk.requests Scenario.after_cancel_abc "abc"
              (cancelled_record Sample.toISOString_at
                Sample.toUpperCase "abc" empty_world)
              eq_refl (fun n _ => sample_uuid_never_abc n))
    as (rec' & G & _ & O & _ & T & _ & S).
  exists rec'. repeat split; auto.
Defined.

Lemma create_then_read_witness :
  exists view w',
    Scenario.create Scenario.create_body empty_world
      = (Returned (Res 201 (JsonShipment view)), w') /\
    get_shipment Sample.decodeURIComponent Sample.toUpperCase (shipmentId view) w'
      = (Returned (Res 200 (JsonShipment view)), w') /\
    get_shipments Sample.randomUUID_at Sample.toUpperCase QAbsent w'
      = (Returned (Res 200 (JsonShipments [view])), w').
Proof.
  destruct (create_then_read
              Sample.kafka_build Sample.randomUUID_at Sample.send_ok
              Sample.decodeURIComponent Sample.trim Sample.toUpperCase
              Scenario.create_body "o-1" "10001" empty_world
              create_body_valid eq_refl)
    as (view & w' & E & I & G & L).
  exists view, w'. split; [exact E|]. split; [exact G|].
  apply L. rewrite I. reflexivity.
Defined.

Lemma cancel_then_read_witness :
  exists w',
    Scenario.cancel "abc" empty_world
      = (Returned (Res 200 (JsonShipment Walk.cancelled_abc_view)), w') /\
    get_shipment Sample.decodeURIComponent Sample.toUpperCase "abc" w'
      = (Returned (Res 200 (JsonShipment Walk.cancelled_abc_view)), w') /\
    JsMap.keys (shipments w') = ["abc"].
Proof.
  destruct (cancel_then_read
              Sample.kafka_build Sample.randomUUID_at Sample.toISOString_at
              Sample.send_ok Sample.decodeURIComponent
                Sample.toUpperCase "abc" "abc" empty_world eq_refl)
    as (view & w' & E & _ & _ & G & K).
  assert (V : view = Walk.cancelled_abc_view).
  { assert (F : fst (Scenario.cancel "abc" empty_world)
                = Returned (Res 200 (JsonShipment view)))
      by (unfold Scenario.cancel; now rewrite E).
    vm_compute in F. inversion F. reflexivity. }
  subst view. exists w'. repeat split; assumption.
Defined.

Lemma reads_store_nothing_witness :
  shipments (Walk.serve_all Walk.reads Scenario.after_cancel_abc)
    = shipments Scenario.after_cancel_abc /\
  produced (Walk.serve_all Walk.reads Scenario.after_cancel_abc)
    = produced Scenario.after_cancel_abc.
Proof.
  destruct (reads_store_nothing
              Sample.kafka_build Sample.randomUUID_at Sample.toISOString_at
              Sample.send_ok Sample.JSON_parse Sample.Date_parse_isNaN
              Sample.decodeURIComponent Sample.trim Sample.toUpperCase
              Walk.reads Scenario.after_cancel_abc eq_refl)
    as (A & B & _).
  split; assumption.
Defined.

Lemma list_filter_exact_witness :
  exists views w',
    get_shipments Sample.randomUUID_at
      Sample.toUpperCase (QString "order-abc") Scenario.after_cancel_abc
      = (Returned (Res 200 (JsonShipments views)), w') /\
    Forall (fun view => orderId view = "order-abc") views.
Proof.
  destruct (list_filter_exact Sample.randomUUID_at Sample.toUpperCase "order-abc"
              Scenario.after_cancel_abc)
    as (views & w' & E & F & _); [discriminate|].
  exists views, w'. split; assumption.
Defined.

Lemma escaping_errors_witness :
  Sample.decodeURIComponent "%zz" = None /\
  Sample.send_down (List.length (produced empty_world)) = Some (Error "broker down").
Proof.
  split.
  - destruct (escaping_errors
                Sample.kafka_build Sample.randomUUID_at Sample.toISOString_at
                Sample.send_ok Sample.JSON_parse Sample.Date_parse_isNaN
                Sample.decodeURIComponent Sample.trim Sample.toUpperCase
                (POST_cancel "%zz") empty_world empty_world
                (URIError "URI malformed") eq_refl)
      as [(param & [R | R] & D & _) | (text & payload & R & _)];
      try discriminate R.
    inversion R; subst param. exact D.
  - destruct (escaping_errors
                Sample.kafka_build Sample.randomUUID_at Sample.toISOString_at
                Sample.send_down Sample.JSON_parse Sample.Date_parse_isNaN
                Sample.decodeURIComponent Sample.trim Sample.toUpperCase
                (DispatchMessage (Some Scenario.undated_text)) empty_world
                (snd (Walk.serve_broker_down
                        (DispatchMessage (Some Scenario.undated_text)) empty_world))
                (Error "broker down") eq_refl)
      as [(param & [R | R] & _) | (text & payload & _ & _ & _ & S)];
      try discriminate R.
    exact S.
Defined.

Lemma failed_reply_keeps_shipment_witness :
  exists w',
    Walk.consume_broker_down (Some Scenario.valid_text) empty_world
      = (Thrown (Error "broker down"), w') /\
    JsMap.keys (shipments w') = [Sample.randomUUID_at 2] /\
    List.length (produced w') = 1.
Proof.
  destruct (failed_reply_keeps_shipment
              Sample.kafka_build Sample.randomUUID_at Sample.toISOString_at
              Sample.send_down Sample.JSON_parse Sample.Date_parse_isNaN
                Sample.toUpperCase
              Scenario.valid_text Scenario.valid_payload empty_world
              (Error "broker down") valid_text_parses eq_refl eq_refl eq_refl)
    as (w' & E & G & L).
  exists w'. split; [exact E|]. split; [|exact L].
  assert (F : snd (Walk.consume_broker_down (Some Scenario.valid_text) empty_world) = w')
    by (unfold Walk.consume_broker_down; now rewrite E).
  rewrite <- F. reflexivity.
Defined.

Lemma redelivery_duplicates_witness :
  let w2 :=
    snd (Scenario.consume (Some Scenario.valid_text)
           (snd (Scenario.consume (Some Scenario.valid_text) empty_world))) in
  List.length (produced w2) = 2 /\
  exists s1 s2,
    shipments w2 = [(Sample.randomUUID_at 2, s1); (Sample.randomUUID_at 5, s2)] /\
    orderId s1 = "o-1" /\ orderId s2 = "o-1".
Proof.
  destruct (redelivery_duplicates
              Sample.kafka_build Sample.randomUUID_at Sample.toISOString_at
              Sample.send_ok Sample.JSON_parse Sample.Date_parse_isNaN Sample.toUpperCase
              Scenario.valid_text Scenario.valid_payload empty_world
              valid_text_parses eq_refl eq_refl)
    as ((r1 & r2 & P & _) & D).
  split.
  - unfold Scenario.consume. rewrite P. reflexivity.
  - destruct D as (s1 & s2 & E & O1 & O2);
      [reflexivity | reflexivity | discriminate |].
    exists s1, s2. repeat split; assumption.
Defined.

Lemma isDispatchCommandEvent_exact_witness :
  as_command Scenario.valid_payload = Scenario.valid_command /\
  isDispatchCommandEvent Scenario.partial_payload = false.
Proof.
  destruct (isDispatchCommandEvent_exact Scenario.valid_payload) as (_ & A).
  destruct (isDispatchCommandEvent_exact Scenario.partial_payload) as ((B & _) & _).
  split.
  - apply A. exact valid_payload_structure.
  - destruct (isDispatchCommandEvent Scenario.partial_payload); [|reflexivity].
    exfalso. exact (partial_payload_structure (B eq_refl)).
Defined.

Lemma writes_publish_once_witness :
  let w' := snd (Scenario.create_broker_down Scenario.create_body empty_world) in
  produced w' =
    [ {| topic := "notification.user";
         key := "3f2a9c1e-7b4d-4e8a-9c0f-5d6e7f8a9b0c";
         value := NotificationJson Walk.a_notification |} ] /\
  console w' =
    [ "Failed to publish analytics notification on notification.user: broker down" ] /\
  clients w' = [].
Proof.
  destruct (writes_publish_once
              Sample.kafka_build Sample.randomUUID_at Sample.toISOString_at
              Sample.send_down Sample.decodeURIComponent Sample.trim Sample.toUpperCase
              "abc" "abc" Scenario.create_body "o-1" "10001" empty_world)
    as (_ & C & _).
  exact (C create_body_valid).
Defined.

Lemma responses_hide_cancelledAt_witness :
  hides_cancelledAt (JsonShipment Walk.cancelled_abc_view) /\
  JsMap.get "abc" (shipments Scenario.after_cancel_abc)
    = Some {| shipmentId := "abc"; orderId := "order-abc";
              carrier := "ACME_SHIP"; trackingNumber := "TRK-ABC";
              status := CANCELLED;
              cancelledAt := Some "2024-05-01T10:00:00.000Z" |}.
Proof.
  split; [|reflexivity].
  exact (responses_hide_cancelledAt
           Sample.kafka_build Sample.randomUUID_at Sample.toISOString_at
           Sample.send_ok Sample.JSON_parse Sample.Date_parse_isNaN
           Sample.decodeURIComponent Sample.trim Sample.toUpperCase
           (GET_shipment "abc") Scenario.after_cancel_abc Scenario.after_cancel_abc
           (Res 200 (JsonShipment Walk.cancelled_abc_view)) eq_refl).
Defined.

Lemma mqtt_callbacks_run_once_witness :
  Mqtt_delivered "mqtt://localhost:1883"
    (Mqtt.opened "notification/user" Walk.a_notification)
    [EvPublished None; EvConnect; EvConnect; EvError "reset"; EvTimeout;
     EvPublished None; EvPublished None; EvError "again"]
  = [EvConnect; EvError "reset"; EvPublished None] /\
  count is_error [EvConnect] = 0.
Proof.
  split; [reflexivity|].
  destruct (mqtt_callbacks_run_once "mqtt://localhost:1883" "notification/user"
              Walk.a_notification [EvConnect; EvTimeout; EvError "late"])
    as (_ & _ & _ & _ & T).
  exact (proj1 (T [EvConnect] [EvError "late"] eq_refl)).
Defined.

Lemma makeTrackingNumber_shape_witness :
  makeTrackingNumber Sample.toUpperCase "3f2a9c1e-7b4d-4e8a-9c0f-5d6e7f8a9b0c"
    = makeTrackingNumber Sample.toUpperCase "3f2a9c1e-7b4d-0000-0000-000000000000" /\
  makeTrackingNumber Sample.toUpperCase "3F2A9C1E7B4D" = "TRK-3F2A9C1E7B4D" /\
  String.length (tracking_code Sample.toUpperCase "a-b-c") = 3 /\
  makeTrackingNumber Sample.toUpperCase (Sample.toUpperCase "a-b-c")
    = makeTrackingNumber Sample.toUpperCase "a-b-c".
Proof.
  destruct (makeTrackingNumber_shape Sample.toUpperCase "3f2a9c1e-7b4d")
    as (_ & _ & A & _).
  destruct (makeTrackingNumber_shape Sample.toUpperCase "a-b-c") as (_ & _ & _ & S).
  destruct (S sample_toUpperCase_on_ascii eq_refl) as (Len & _ & Case).
  assert (L : 12 <= String.length (JsString.remove_hyphens "3f2a9c1e-7b4d"))
    by (simpl; lia).
  split; [|split; [reflexivity | split; [exact Len | exact Case]]].
  transitivity (makeTrackingNumber Sample.toUpperCase "3f2a9c1e-7b4d").
  - exact (A "-4e8a-9c0f-5d6e7f8a9b0c" L).
  - symmetry. exact (A "-0000-0000-000000000000" L).
Defined.

Lemma broker_list_parsed_witness :
  shippingKafkaBrokers Sample.trim (Some " kafka-1:9092 ,, kafka-2:9092,")
    = ["kafka-1:9092"; "kafka-2:9092"] /\
  Forall (broker_ok Sample.trim)
    (shippingKafkaBrokers Sample.trim (Some " kafka-1:9092 ,, kafka-2:9092,")) /\
  shippingKafkaBrokers Sample.trim (Some "kafka-1:9092,kafka-2:9092")
    = ["kafka-1:9092"; "kafka-2:9092"] /\
  shippingKafkaBrokers Sample.trim (Some " , ,") = [].
Proof.
  destruct (broker_list_parsed Sample.trim (Some " kafka-1:9092 ,, kafka-2:9092,")
              sample_trim_on_ascii) as (F & _ & _ & B & R).
  split; [reflexivity|]. split; [|split].
  - apply F. intros s E. inversion E. reflexivity.
  - apply (R ["kafka-1:9092"; "kafka-2:9092"]); [discriminate | |].
    + repeat constructor; discriminate.
    + repeat constructor.
  - apply B; [discriminate | reflexivity].
Defined.

Lemma plain_post_answers_witness :
  post_shipments_raw Sample.plain_build Sample.randomUUID_at Sample.send_ok
    Sample.JSON_parse
      Sample.trim Sample.toUpperCase (Walk.spaces Walk.over_limit) empty_world
    = (Returned (Res 400 (JsonError "Payload too large")), empty_world) /\
  Scenario.create_plain "{not json" empty_world
    = (Returned (Res 400 (JsonError "Invalid JSON body")), empty_world) /\
  Scenario.create_plain "null" empty_world
    = (Returned
         (Res 400 (JsonError "Cannot read properties of null (reading 'orderId')")),
       empty_world).
Proof.
  split; [|split].
  - apply (plain_post_answers Sample.plain_build Sample.randomUUID_at Sample.send_ok
             Sample.JSON_parse
               Sample.trim Sample.toUpperCase (Walk.spaces Walk.over_limit) empty_world).
    rewrite spaces_length. vm_compute. reflexivity.
  - destruct (plain_post_answers Sample.plain_build Sample.randomUUID_at Sample.send_ok
                Sample.JSON_parse
                  Sample.trim Sample.toUpperCase "{not json" empty_world) as (_ & _ & A).
    destruct A as (B & _); [vm_compute; discriminate | discriminate |].
    apply B. reflexivity.
  - destruct (plain_post_answers Sample.plain_build Sample.randomUUID_at Sample.send_ok
                Sample.JSON_parse
                  Sample.trim Sample.toUpperCase "null" empty_world) as (_ & _ & A).
    destruct A as (_ & B & _); [vm_compute; discriminate | discriminate |].
    apply B. reflexivity.
Defined.


Lemma kafka_links_lifecycle_witness :
  let a :=
    {| consumer_connect := None;
       producer_connect := Some (Error "connect ECONNREFUSED");
       consumer_subscribe := None; consumer_run := None;
       consumer_disconnect := None; producer_disconnect := None |} in
  let b :=
    {| host := "0.0.0.0"; port_text := "9000"; brokers := ["localhost:9092"];
       dispatchCommandTopic := "queue.shipping.dispatch.command" |} in
  kafkaConnected (on_listening b a no_links) = false /\
  stderr (on_listening b a no_links)
    = ["shipping-service kafka listener failed to start: connect ECONNREFUSED"] /\
  consumer_connected (shutdown a (on_listening b a no_links)) = true /\
  exited (shutdown a (on_listening b a no_links)) = Some 0%Z.
Proof.
  intros a b.
  destruct (kafka_links_lifecycle b a) as (_ & _ & _ & _ & E & _ & L).
  split; [reflexivity|]. split; [reflexivity|]. split; [|exact E].
  exact (L (Error "connect ECONNREFUSED") eq_refl eq_refl).
Defined.

Lemma create_trims_orderId_witness :
  (exists message,
      Scenario.create (JObj [("orderId", JStr " "); ("destinationPostalCode", JStr "1")])
        empty_world
      = (Returned (Res 400 (JsonError message)), empty_world)) /\
  (exists view w',
      Scenario.create
        (JObj [("orderId", JStr "  o-1 "); ("destinationPostalCode", JStr "10001")])
        empty_world
      = (Returned (Res 201 (JsonShipment view)), w') /\
      orderId view = "o-1").
Proof.
  split.
  - destruct (create_trims_orderId
                Sample.kafka_build Sample.randomUUID_at Sample.send_ok
                Sample.trim Sample.toUpperCase
                (JObj [("orderId", JStr " "); ("destinationPostalCode", JStr "1")])
                " " "1" empty_world sample_trim_on_ascii eq_refl eq_refl
                eq_refl eq_refl) as (A & _).
    apply A. left. reflexivity.
  - destruct (create_trims_orderId
                Sample.kafka_build Sample.randomUUID_at Sample.send_ok
                Sample.trim Sample.toUpperCase
                (JObj [("orderId", JStr "  o-1 "); ("destinationPostalCode", JStr "10001")])
                "  o-1 " "10001" empty_world sample_trim_on_ascii eq_refl eq_refl
                eq_refl eq_refl) as (_ & B).
    destruct (B eq_refl eq_refl) as (view & w' & E & _).
    exists view, w'. split; [exact E|].
    assert (F : fst (Scenario.create
                       (JObj [("orderId", JStr "  o-1 ");
                              ("destinationPostalCode", JStr "10001")]) empty_world)
                = Returned (Res 201 (JsonShipment view)))
      by (unfold Scenario.create; now rewrite E).
    vm_compute in F. inversion F. reflexivity.
Defined.

Lemma postal_code_only_checked_witness :
  Scenario.create Scenario.create_body empty_world =
  Scenario.create
    (JObj [("destinationPostalCode", JStr "94105 "); ("orderId", JStr " o-1");
           ("note", JStr "fragile")])
    empty_world.
Proof.
  apply (postal_code_only_checked
           Sample.kafka_build Sample.randomUUID_at Sample.send_ok
             Sample.trim Sample.toUpperCase
           Scenario.create_body
           (JObj [("destinationPostalCode", JStr "94105 "); ("orderId", JStr " o-1");
                  ("note", JStr "fragile")])
           "o-1" "10001" "94105" empty_world create_body_valid).
  exists " o-1", "94105 ". repeat split; try reflexivity; discriminate.
Defined.
